(** * The [blueprint] plugin (plugins/blueprint.cpp)

    A shallow embedding of the tile classifier, the sparse volume, the two
    serializers and the scan driver of the plugin, followed by the properties
    of the specification that are settled against it.

    Conventions.
    - A [const char *] that may be [NULL] is an [option string]; a token is
      modelled by its content, so the string cache ([cache]) is the identity on
      contents.
    - [int16_t], [int32_t] and [uint32_t] values are integers of [Z]; every
      narrowing conversion of the source is written out ([to_int16],
      [to_uint32]).
    - A [std::map] is an association list kept in strictly ascending key order,
      which is the order its iterators visit.
    - What is written to an [ofstream] is the string appended to the file. *)

From Stdlib Require Import ZArith List String Ascii Bool Lia Sorted.
From Stdlib Require Import Decimal DecimalString.
Import ListNotations.

Local Open Scope Z_scope.
Local Open Scope string_scope.

(** ** Machine integers *)

Module Int.

(** Conversion to a signed 16-bit integer (two's complement wrap-around). *)
Definition to_int16 (n : Z) : Z := (n + 32768) mod 65536 - 32768.

(** Conversion to an unsigned 32-bit integer. *)
Definition to_uint32 (n : Z) : Z := n mod 4294967296.

Definition int16_range (n : Z) : Prop := -32768 <= n <= 32767.

End Int.

(** ** Strings and streams *)

(** [std::endl] appends a line feed. *)
Definition endl : string := String (ascii_of_nat 10) EmptyString.

(** [operator<<] on an unsigned integer: its decimal digits. *)
Definition show_unsigned (n : Z) : string :=
  NilZero.string_of_uint (N.to_uint (Z.to_N n)).

(** The text written by a loop [for ( ; prev < k; ++prev) ofile << s]. *)
Fixpoint repeat_string (s : string) (n : nat) : string :=
  match n with
  | O => ""
  | S n' => s ++ repeat_string s n'
  end.

Fixpoint concat_strings (l : list string) : string :=
  match l with
  | [] => ""
  | s :: l' => s ++ concat_strings l'
  end.

(** ** Enumerations of the game's data definitions *)

(** Modelled from the spec: the declaration of [df::tiletype_shape] is not
    among the sources.  The constructors are the enumerators the plugin names;
    [SHAPE_OTHER] stands for every enumerator it does not name (the
    "unrecognized shape" of the specification). *)
Inductive tiletype_shape : Type :=
| EMPTY | RAMP_TOP | FLOOR | BOULDER | PEBBLES | BROOK_TOP | FORTIFICATION
| STAIR_UP | STAIR_DOWN | STAIR_UPDOWN | RAMP | WALL
| SHAPE_OTHER (code : Z).

(** Modelled from the spec: the declaration of [df::building_type] is not
    among the sources.  The constructors are the enumerators the plugin names;
    [BT_OTHER] stands for every other one. *)
Inductive building_type : Type :=
| Armorstand | Bed | Chair | Door | Floodgate | Cabinet | Box | FarmPlot
| Weaponrack | Statue | Table | RoadPaved | RoadDirt | Bridge | Well
| SiegeEngine | Workshop | Furnace | WindowGlass | WindowGem | Construction
| Shop | AnimalTrap | Chain | Cage | TradeDepot | Trap | ScrewPump
| WaterWheel | Windmill | GearAssembly | AxleHorizontal | AxleVertical
| Rollers | Support | ArcheryTarget | TractionBench | Hatch | Slab | NestBox
| Hive | GrateWall | GrateFloor | BarsVertical | BarsFloor | Stockpile
| BT_OTHER (code : Z).

(** Modelled from the spec: the sub-variant enumerations below
    ([building_bridgest::T_direction], [siegeengine_type], [workshop_type],
    [furnace_type], [construction_type], [trap_type],
    [screw_pump_direction]) are declared outside the sources.  Each lists the
    enumerators the plugin names, and one more constructor for any other
    value. *)
Module bridge_direction.
Inductive t : Type := Retracting | Left | Right | Up | Down | Other (code : Z).
End bridge_direction.

Module siegeengine_type.
Inductive t : Type := Catapult | Other (code : Z).
End siegeengine_type.

Module workshop_type.
Inductive t : Type :=
| Leatherworks | Quern | Millstone | Loom | Clothiers | Bowyers | Carpenters
| MetalsmithsForge | MagmaForge | Jewelers | Masons | Butchers | Tanners
| Craftsdwarfs | Siege | Mechanics | Still | Farmers | Kitchen | Fishery
| Ashery | Dyers | Kennels | Custom | Tool | Other (code : Z).
End workshop_type.

Module furnace_type.
Inductive t : Type :=
| WoodFurnace | Smelter | GlassFurnace | Kiln | MagmaSmelter
| MagmaGlassFurnace | MagmaKiln | Custom | Other (code : Z).
End furnace_type.

Module construction_type.
Inductive t : Type :=
| Fortification | Wall | Floor | UpStair | DownStair | UpDownStair | Ramp
| TrackN | TrackS | TrackE | TrackW | TrackNS | TrackNE | TrackNW | TrackSE
| TrackSW | TrackEW | TrackNSE | TrackNSW | TrackNEW | TrackSEW | TrackNSEW
| TrackRampN | TrackRampS | TrackRampE | TrackRampW | TrackRampNS
| TrackRampNE | TrackRampNW | TrackRampSE | TrackRampSW | TrackRampEW
| TrackRampNSE | TrackRampNSW | TrackRampNEW | TrackRampSEW | TrackRampNSEW
| NONE | Other (code : Z).
End construction_type.

Module trap_type.
Inductive t : Type :=
| StoneFallTrap | WeaponTrap | Lever | PressurePlate | CageTrap | TrackStop
| Other (code : Z).
End trap_type.

Module screw_pump_direction.
Inductive t : Type := FromNorth | FromEast | FromSouth | FromWest | Other (code : Z).
End screw_pump_direction.

(** Modelled from the spec: the bitfield [df::stockpile_group_set] is declared
    outside the sources.  A stockpile category is one flag of it; the value of
    [settings.flags.whole] is kept as the set of flags that are on, so that
    [whole == mask_g] reads "exactly the flag [g] is on". *)
Module stockpile_group.
Inductive t : Type :=
| animals | food | furniture | corpses | refuse | wood | stone | gems
| bars_blocks | cloth | leather | ammo | coins | finished_goods | weapons
| armor | other (bit : Z).
End stockpile_group.

Inductive stockpile_group_set : Type :=
| mask (g : stockpile_group.t)          (* exactly one flag is on *)
| flags_whole (whole : Z).              (* any other value: none or several *)

(** ** Positions and buildings *)

(** [df::coord]: three [int16_t] coordinates. *)
Record coord : Type := mk_coord { pos_x : Z; pos_y : Z; pos_z : Z }.

(** The constructor call [df::coord pos(x, y, z)] narrows its [int32_t]
    arguments to the 16-bit fields. *)
Definition make_coord (x y z : Z) : coord :=
  mk_coord (Int.to_int16 x) (Int.to_int16 y) (Int.to_int16 z).

(** The dynamic class of a building object, with the fields the plugin reads
    after a successful [virtual_cast]. *)
Inductive building_class : Type :=
| building_bridgest (direction : bridge_direction.t)
| building_siegeenginest (type : siegeengine_type.t)
| building_workshopst (type : workshop_type.t)
| building_furnacest (type : furnace_type.t)
| building_constructionst (type : construction_type.t)
| building_trapst (trap : trap_type.t) (use_dump : bool)
                  (dump_x_shift dump_y_shift friction : Z)
| building_screw_pumpst (direction : screw_pump_direction.t)
| building_water_wheelst (is_vertical : bool)
| building_axle_horizontalst (is_vertical : bool)
| building_rollersst (direction : screw_pump_direction.t)
| building_stockpilest (flags : stockpile_group_set)
| building_actual.                      (* any class with no field read here *)

(** [df::building]: the fields of the base class ([int32_t] coordinates), the
    result of the virtual [getType()] and the dynamic class. *)
Record building : Type := mk_building {
  x1 : Z; y1 : Z; x2 : Z; y2 : Z;
  centerx : Z; centery : Z;
  is_room : bool;
  getType : building_type;
  dyn : building_class
}.

Record tile_context : Type := mk_ctx {
  pretty : bool;
  b : option building
}.

(** The string cache returns a pointer to a stored copy of its argument: the
    content of the token is the argument's. *)
Definition cache (s : string) : string := s.

(** ** The world-query service *)

(** Modelled from the spec: [Maps::getTileType], [tileShape] (a table of
    TileTypes.h), [tiletype::Void] and [Buildings::findAtTile] are provided by
    the host library, outside the sources.  They are the fields of the world
    the classifier reads. *)
Record world : Type := mk_world {
  tiletype : Type;
  Void : tiletype;
  tileShape : tiletype -> tiletype_shape;
  getTileType : coord -> option tiletype;
  findAtTile : coord -> option building
}.

(** ** Excavation phase *)

(** The [switch] of [get_tile_dig], on the shape. *)
Definition dig_keys (shape : tiletype_shape) : option string :=
  match shape with
  | EMPTY | RAMP_TOP => Some "h"
  | FLOOR | BOULDER | PEBBLES | BROOK_TOP => Some "d"
  | FORTIFICATION => Some "F"
  | STAIR_UP => Some "u"
  | STAIR_DOWN => Some "j"
  | STAIR_UPDOWN => Some "i"
  | RAMP => Some "r"
  | WALL => None
  | SHAPE_OTHER _ => None
  end.

Definition get_tile_dig (w : world) (pos : coord) (_ : tile_context)
  : option string :=
  let tt := getTileType w pos in
  dig_keys (tileShape w (match tt with Some t => t | None => Void w end)).

(** ** Construction phase *)

Definition get_building_size (bld : building) : Z * Z :=
  (Int.to_uint32 (x2 bld - x1 bld + 1), Int.to_uint32 (y2 bld - y1 bld + 1)).

Definition if_pretty (ctx : tile_context) (c : string) : string :=
  if pretty ctx then c else "".

(** [do_block_building] returns the token and the value it leaves in
    [*add_size]: [add_size] is the caller's flag ([false] on entry), and
    [with_size] tells whether a pointer to it was passed. *)
Definition do_block_building (ctx : tile_context) (s : string)
    (at_target_pos : bool) (with_size : bool) : string * bool :=
  if negb at_target_pos then (if_pretty ctx "`", false)
  else (s, with_size).

Definition get_bridge_str (bld : building) : string :=
  match dyn bld with
  | building_bridgest direction =>
      match direction with
      | bridge_direction.Retracting => "gs"
      | bridge_direction.Left => "ga"
      | bridge_direction.Right => "gd"
      | bridge_direction.Up => "gw"
      | bridge_direction.Down => "gx"
      | bridge_direction.Other _ => "g"
      end
  | _ => "g"
  end.

Definition get_siege_str (bld : building) : string :=
  match dyn bld with
  | building_siegeenginest siegeengine_type.Catapult => "ic"
  | building_siegeenginest (siegeengine_type.Other _) => "ib"
  | _ => "ic"
  end.

Definition get_workshop_str (bld : building) : string :=
  match dyn bld with
  | building_workshopst type =>
      match type with
      | workshop_type.Leatherworks => "we"
      | workshop_type.Quern => "wq"
      | workshop_type.Millstone => "wM"
      | workshop_type.Loom => "wo"
      | workshop_type.Clothiers => "wk"
      | workshop_type.Bowyers => "wb"
      | workshop_type.Carpenters => "wc"
      | workshop_type.MetalsmithsForge => "wf"
      | workshop_type.MagmaForge => "wv"
      | workshop_type.Jewelers => "wj"
      | workshop_type.Masons => "wm"
      | workshop_type.Butchers => "wu"
      | workshop_type.Tanners => "wn"
      | workshop_type.Craftsdwarfs => "wr"
      | workshop_type.Siege => "ws"
      | workshop_type.Mechanics => "wt"
      | workshop_type.Still => "wl"
      | workshop_type.Farmers => "ww"
      | workshop_type.Kitchen => "wz"
      | workshop_type.Fishery => "wh"
      | workshop_type.Ashery => "wy"
      | workshop_type.Dyers => "wd"
      | workshop_type.Kennels => "k"
      | workshop_type.Custom => "~"
      | workshop_type.Tool => "~"
      | workshop_type.Other _ => "~"
      end
  | _ => "~"
  end.

Definition get_furnace_str (bld : building) : string :=
  match dyn bld with
  | building_furnacest type =>
      match type with
      | furnace_type.WoodFurnace => "ew"
      | furnace_type.Smelter => "es"
      | furnace_type.GlassFurnace => "eg"
      | furnace_type.Kiln => "ek"
      | furnace_type.MagmaSmelter => "el"
      | furnace_type.MagmaGlassFurnace => "ea"
      | furnace_type.MagmaKiln => "en"
      | furnace_type.Custom => "~"
      | furnace_type.Other _ => "~"
      end
  | _ => "~"
  end.

Definition get_construction_str (bld : building) : string :=
  match dyn bld with
  | building_constructionst type =>
      match type with
      | construction_type.Fortification => "CF"
      | construction_type.Wall => "CW"
      | construction_type.Floor => "Cf"
      | construction_type.UpStair => "Cu"
      | construction_type.DownStair => "Cj"
      | construction_type.UpDownStair => "Cx"
      | construction_type.Ramp => "Cr"
      | construction_type.TrackN => "trackN"
      | construction_type.TrackS => "trackS"
      | construction_type.TrackE => "trackE"
      | construction_type.TrackW => "trackW"
      | construction_type.TrackNS => "trackNS"
      | construction_type.TrackNE => "trackNE"
      | construction_type.TrackNW => "trackNW"
      | construction_type.TrackSE => "trackSE"
      | construction_type.TrackSW => "trackSW"
      | construction_type.TrackEW => "trackEW"
      | construction_type.TrackNSE => "trackNSE"
      | construction_type.TrackNSW => "trackNSW"
      | construction_type.TrackNEW => "trackNEW"
      | construction_type.TrackSEW => "trackSEW"
      | construction_type.TrackNSEW => "trackNSEW"
      | construction_type.TrackRampN => "trackrampN"
      | construction_type.TrackRampS => "trackrampS"
      | construction_type.TrackRampE => "trackrampE"
      | construction_type.TrackRampW => "trackrampW"
      | construction_type.TrackRampNS => "trackrampNS"
      | construction_type.TrackRampNE => "trackrampNE"
      | construction_type.TrackRampNW => "trackrampNW"
      | construction_type.TrackRampSE => "trackrampSE"
      | construction_type.TrackRampSW => "trackrampSW"
      | construction_type.TrackRampEW => "trackrampEW"
      | construction_type.TrackRampNSE => "trackrampNSE"
      | construction_type.TrackRampNSW => "trackrampNSW"
      | construction_type.TrackRampNEW => "trackrampNEW"
      | construction_type.TrackRampSEW => "trackrampSEW"
      | construction_type.TrackRampNSEW => "trackrampNSEW"
      | construction_type.NONE => "~"
      | construction_type.Other _ => "~"
      end
  | _ => "~"
  end.

(** The dump part of a track stop's token. *)
Definition track_stop_dump (use_dump : bool) (dump_x_shift dump_y_shift : Z)
  : string :=
  if use_dump then
    if Z.eqb dump_x_shift 0 then
      "d" ++ (if Z.ltb 0 dump_y_shift then "d" else "")
    else
      "ddd" ++ (if Z.ltb dump_x_shift 0 then "d" else "")
  else "".

(** The [switch (trap->friction)]: control enters at the matching label and
    falls through every label below it. *)
Definition track_stop_friction (friction : Z) : string :=
  if Z.eqb friction 10 then "a" ++ "a" ++ "a" ++ "a"
  else if Z.eqb friction 50 then "a" ++ "a" ++ "a"
  else if Z.eqb friction 500 then "a" ++ "a"
  else if Z.eqb friction 10000 then "a"
  else "".

Definition get_trap_str (bld : building) : string :=
  match dyn bld with
  | building_trapst trap use_dump dump_x_shift dump_y_shift friction =>
      match trap with
      | trap_type.StoneFallTrap => "Ts"
      | trap_type.WeaponTrap => "Tw"
      | trap_type.Lever => "Tl"
      | trap_type.PressurePlate => "Tp"
      | trap_type.CageTrap => "Tc"
      | trap_type.TrackStop =>
          cache ("CS" ++ track_stop_dump use_dump dump_x_shift dump_y_shift
                      ++ track_stop_friction friction)
      | trap_type.Other _ => "~"
      end
  | _ => "~"
  end.

Definition get_screw_pump_str (bld : building) : string :=
  match dyn bld with
  | building_screw_pumpst direction =>
      match direction with
      | screw_pump_direction.FromNorth => "Msu"
      | screw_pump_direction.FromEast => "Msk"
      | screw_pump_direction.FromSouth => "Msm"
      | screw_pump_direction.FromWest => "Msh"
      | screw_pump_direction.Other _ => "~"
      end
  | _ => "~"
  end.

Definition get_water_wheel_str (bld : building) : string :=
  match dyn bld with
  | building_water_wheelst is_vertical => if is_vertical then "Mw" else "Mws"
  | _ => "~"
  end.

Definition get_axle_str (bld : building) : string :=
  match dyn bld with
  | building_axle_horizontalst is_vertical =>
      if is_vertical then "Mhs" else "Mh"
  | _ => "~"
  end.

Definition get_roller_str (bld : building) : string :=
  match dyn bld with
  | building_rollersst direction =>
      match direction with
      | screw_pump_direction.FromNorth => "Mr"
      | screw_pump_direction.FromEast => "Mrs"
      | screw_pump_direction.FromSouth => "Mrss"
      | screw_pump_direction.FromWest => "Mrsss"
      | screw_pump_direction.Other _ => "~"
      end
  | _ => "~"
  end.

(** [get_build_keys] dereferences [ctx.b]; [bld] is that building.  The result
    is the token and the final value of the flag [add_size]. *)
Definition get_build_keys (pos : coord) (ctx : tile_context) (bld : building)
  : string * bool :=
  let at_nw_corner := Z.eqb (pos_x pos) (x1 bld) && Z.eqb (pos_y pos) (y1 bld) in
  let at_se_corner := Z.eqb (pos_x pos) (x2 bld) && Z.eqb (pos_y pos) (y2 bld) in
  let at_center :=
    Z.eqb (pos_x pos) (centerx bld) && Z.eqb (pos_y pos) (centery bld) in
  match getType bld with
  | Armorstand => ("a", false)
  | Bed => ("b", false)
  | Chair => ("c", false)
  | Door => ("d", false)
  | Floodgate => ("x", false)
  | Cabinet => ("f", false)
  | Box => ("h", false)
  | FarmPlot => do_block_building ctx "p" at_nw_corner true
  | Weaponrack => ("r", false)
  | Statue => ("s", false)
  | Table => ("t", false)
  | RoadPaved => do_block_building ctx "o" at_nw_corner true
  | RoadDirt => do_block_building ctx "O" at_nw_corner true
  | Bridge => do_block_building ctx (get_bridge_str bld) at_nw_corner true
  | Well => ("l", false)
  | SiegeEngine => do_block_building ctx (get_siege_str bld) at_center false
  | Workshop => do_block_building ctx (get_workshop_str bld) at_center false
  | Furnace => do_block_building ctx (get_furnace_str bld) at_center false
  | WindowGlass => ("y", false)
  | WindowGem => ("Y", false)
  | Construction => (get_construction_str bld, false)
  | Shop => do_block_building ctx "z" at_center false
  | AnimalTrap => ("m", false)
  | Chain => ("v", false)
  | Cage => ("j", false)
  | TradeDepot => do_block_building ctx "D" at_center false
  | Trap => (get_trap_str bld, false)
  | ScrewPump =>
      do_block_building ctx (get_screw_pump_str bld) at_se_corner false
  | WaterWheel =>
      do_block_building ctx (get_water_wheel_str bld) at_center false
  | Windmill => do_block_building ctx "Mm" at_center false
  | GearAssembly => ("Mg", false)
  | AxleHorizontal => do_block_building ctx (get_axle_str bld) at_nw_corner true
  | AxleVertical => ("Mv", false)
  | Rollers => do_block_building ctx (get_roller_str bld) at_nw_corner true
  | Support => ("S", false)
  | ArcheryTarget => ("A", false)
  | TractionBench => ("R", false)
  | Hatch => ("H", false)
  | Slab => ("~", false)
  | NestBox => ("N", false)
  | Hive => ("~", false)
  | GrateWall => ("W", false)
  | GrateFloor => ("G", false)
  | BarsVertical => ("B", false)
  | BarsFloor => ("~", false)
  | Stockpile => ("~", false)
  | BT_OTHER _ => ("~", false)
  end.

(** [add_expansion_syntax]: ["~"] for a null [keys], otherwise the keys
    followed by the building's dimensions. *)
Definition add_expansion_syntax (bld : building) (keys : option string)
  : string :=
  match keys with
  | None => "~"
  | Some k =>
      let size := get_building_size bld in
      cache (k ++ "(" ++ show_unsigned (fst size) ++ "x"
               ++ show_unsigned (snd size) ++ ")")
  end.

Definition is_stockpile (t : building_type) : bool :=
  match t with Stockpile => true | _ => false end.

Definition get_tile_build (pos : coord) (ctx : tile_context) : option string :=
  match b ctx with
  | None => None
  | Some bld =>
      if is_stockpile (getType bld) then None
      else
        let (keys, add_size) := get_build_keys pos ctx bld in
        if negb add_size then Some keys
        else Some (add_expansion_syntax bld (Some keys))
  end.

(** ** Designation phase *)

Definition get_place_keys (ctx : tile_context) : option string :=
  match b ctx with
  | Some bld =>
      match dyn bld with
      | building_stockpilest (mask g) =>
          match g with
          | stockpile_group.animals => Some "a"
          | stockpile_group.food => Some "f"
          | stockpile_group.furniture => Some "u"
          | stockpile_group.corpses => Some "y"
          | stockpile_group.refuse => Some "r"
          | stockpile_group.wood => Some "w"
          | stockpile_group.stone => Some "s"
          | stockpile_group.gems => Some "e"
          | stockpile_group.bars_blocks => Some "b"
          | stockpile_group.cloth => Some "h"
          | stockpile_group.leather => Some "l"
          | stockpile_group.ammo => Some "z"
          | stockpile_group.coins => Some "n"
          | stockpile_group.finished_goods => Some "g"
          | stockpile_group.weapons => Some "p"
          | stockpile_group.armor => Some "d"
          | stockpile_group.other _ => None
          end
      | building_stockpilest (flags_whole _) => None
      | _ => None
      end
  | None => None
  end.

Definition get_tile_place (pos : coord) (ctx : tile_context) : option string :=
  match b ctx with
  | None => None
  | Some bld =>
      if negb (is_stockpile (getType bld)) then None
      else if negb (Z.eqb (x1 bld) (pos_x pos))
              || negb (Z.eqb (y1 bld) (pos_y pos))
      then Some (if_pretty ctx "`")
      else Some (add_expansion_syntax bld (get_place_keys ctx))
  end.

(** ** Area-flag phase *)

Definition get_tile_query (_ : coord) (ctx : tile_context) : option string :=
  match b ctx with
  | None => None
  | Some bld => if negb (is_room bld) then None else Some "r+"
  end.

Definition ensure_building (w : world) (pos : coord) (ctx : tile_context)
  : tile_context :=
  match b ctx with
  | Some _ => ctx
  | None => mk_ctx (pretty ctx) (findAtTile w pos)
  end.

(** ** Ordered maps with 16-bit keys *)

(** [std::map<int16_t, V>]: the entries in ascending key order. *)
Module Map16.
Section Ops.
Context {V : Type}.

Definition t : Type := list (Z * V).

(** [m.count(k) ? &m.at(k) : NULL] *)
Fixpoint find (k : Z) (m : t) : option V :=
  match m with
  | [] => None
  | (k', v) :: m' => if Z.eqb k k' then Some v else find k m'
  end.

(** [f] applied to the value at [k], after [m.emplace(k, d)] has made
    sure that the key exists. *)
Fixpoint upsert (k : Z) (d : V) (f : V -> V) (m : t) : t :=
  match m with
  | [] => [(k, f d)]
  | (k', v) :: m' =>
      if Z.eqb k k' then (k', f v) :: m'
      else if Z.ltb k k' then (k, f d) :: m
      else (k', v) :: upsert k d f m'
  end.

Definition keys (m : t) : list Z := map fst m.

(** The representation invariant: keys strictly ascending. *)
Definition ordered (m : t) : Prop := StronglySorted Z.lt (keys m).
End Ops.
Arguments t : clear implicits.
End Map16.

Definition bp_row : Type := Map16.t string.
Definition bp_area : Type := Map16.t bp_row.
Definition bp_volume : Type := Map16.t bp_area.

Definition NEW_AREA : bp_area := [].
Definition NEW_ROW : bp_row := [].

(** The three statements of [do_transform] that store a token: the keys are
    narrowed to [int16_t] by [emplace] and [operator[]]. *)
Definition record_tile (zk yk xk : Z) (tile_str : string) (mapdata : bp_volume)
  : bp_volume :=
  Map16.upsert (Int.to_int16 zk) NEW_AREA
    (Map16.upsert (Int.to_int16 yk) NEW_ROW
       (Map16.upsert (Int.to_int16 xk) "" (fun _ => tile_str)))
    mapdata.

(** The token stored for a layer, a row and a column, if any. *)
Definition lookup_tile (z y x : Z) (mapdata : bp_volume) : option string :=
  match Map16.find z mapdata with
  | None => None
  | Some area =>
      match Map16.find y area with
      | None => None
      | Some row => Map16.find x row
      end
  end.

(** ** Run parameters *)

Record blueprint_options : Type := mk_options {
  help : bool;
  start : coord;
  format : string;
  split_strategy : string;
  width : Z;
  height : Z;
  depth : Z;
  name : string;
  auto_phase : bool;
  dig : bool;
  build : bool;
  place : bool;
  query : bool
}.

Definition z_key (opts : blueprint_options) : string :=
  if Z.ltb 0 (depth opts) then "#<" else "#>".

(** ** Minimal layout *)

(** [for ( ; prev < k; ++prev) ofile << s]: the text written; the counter
    ends at [Z.max prev k]. *)
Definition write_gap (s : string) (prev k : Z) : string :=
  repeat_string s (Z.to_nat (k - prev)).

Fixpoint write_minimal_row (xprev : Z) (row : bp_row) : string :=
  match row with
  | [] => ""
  | (x, tile) :: row' =>
      write_gap "," xprev x ++ tile ++ write_minimal_row (Z.max xprev x) row'
  end.

Fixpoint write_minimal_area (yprev : Z) (area : bp_area) : string :=
  match area with
  | [] => ""
  | (y, row) :: area' =>
      write_gap endl yprev y ++ write_minimal_row 0 row
        ++ write_minimal_area (Z.max yprev y) area'
  end.

Fixpoint write_minimal_layers (key : string) (zprev : Z) (mapdata : bp_volume)
  : string :=
  match mapdata with
  | [] => ""
  | (z, area) :: mapdata' =>
      write_gap (key ++ endl) zprev z ++ write_minimal_area 0 area ++ endl
        ++ write_minimal_layers key (Z.max zprev z) mapdata'
  end.

Definition write_minimal (opts : blueprint_options) (mapdata : bp_volume)
  : string :=
  match mapdata with
  | [] => ""
  | _ => write_minimal_layers (z_key opts) 0 mapdata
  end.

(** ** Dense layout *)

(** [for (int16_t i = i0; i < bound; ++i) body(i)], the bound being an
    [int32_t]: the counter wraps at 16 bits.  [fuel] bounds the number of
    iterations; [None] when it is exhausted. *)
Fixpoint for_int16 (fuel : nat) (i bound : Z) (body : Z -> option string)
  : option string :=
  if Z.ltb i bound then
    match fuel with
    | O => None
    | S fuel' =>
        match body i with
        | None => None
        | Some s =>
            match for_int16 fuel' (Int.to_int16 (i + 1)) bound body with
            | None => None
            | Some rest => Some (s ++ rest)
            end
        end
    end
  else Some "".

(** [(tile ? tile : " ")] *)
Definition pretty_cell (tile : option string) : string :=
  match tile with
  | Some s => s
  | None => " "
  end.

Definition write_pretty (fuel : nat) (opts : blueprint_options)
    (mapdata : bp_volume) : option string :=
  let key := z_key opts in
  let absdepth := Int.to_int16 (Z.abs (depth opts)) in
  for_int16 fuel 0 absdepth (fun z =>
    let area := Map16.find z mapdata in
    match
      for_int16 fuel 0 (height opts) (fun y =>
        let row := match area with
                   | Some a => Map16.find y a
                   | None => None
                   end in
        match
          for_int16 fuel 0 (width opts) (fun x =>
            let tile := match row with
                        | Some r => Map16.find x r
                        | None => None
                        end in
            Some (pretty_cell tile ++ ","))
        with
        | None => None
        | Some cells => Some (cells ++ "#" ++ endl)
        end)
    with
    | None => None
    | Some rows =>
        Some (rows ++ (if Z.ltb z (absdepth - 1) then key ++ endl else ""))
    end).

Definition get_modeline (phase : string) : string :=
  "#" ++ phase ++ " label(" ++ phase ++ ")".

(** ** Files, the console and the script host *)

(** The outcomes of the call to the Lua function [get_filename]. *)
Inductive lua_result : Type :=
| lua_load_failed
| lua_call_failed
| lua_not_a_string
| lua_string (s : string).

(** Modelled from the spec: [Filesystem::mkdir_recursive], the Lua function
    [plugins.blueprint.get_filename] and the file system on which the
    [ofstream] constructor opens a file are collaborators outside the
    sources; the driver only sees their results.  [file_opens] tells whether
    a file of that name can be opened for writing. *)
Record host : Type := mk_host {
  mkdir_recursive : string -> bool;
  lua_get_filename : blueprint_options -> string -> lua_result;
  file_opens : string -> bool
}.

(** What a run can change outside its own variables: the lines printed with
    [printerr], the directories created, the contents of the files written and
    the [ofstream] objects that are open (each named by the file it was opened
    on). *)
Record io : Type := mk_io {
  printed_errors : list string;
  directories : list string;
  disk : list (string * string);
  open_streams : list string
}.

Definition printerr (msg : string) (s : io) : io :=
  mk_io (printed_errors s ++ [msg]) (directories s) (disk s) (open_streams s).

Fixpoint disk_update (fname : string) (f : string -> string)
    (d : list (string * string)) : list (string * string) :=
  match d with
  | [] => [(fname, f "")]
  | (n, c) :: d' =>
      if String.eqb fname n then (n, f c) :: d'
      else (n, c) :: disk_update fname f d'
  end.

(** An [ofstream] object: the file it was constructed on and whether that
    file was opened.  The plugin never tests the state of a stream; what is
    written to a stream that is not open is lost, and closing it does
    nothing. *)
Record ofstream : Type := mk_ofstream {
  stream_file : string;
  is_open : bool
}.

(** [new ofstream(fname, ofstream::trunc)]: when the file can be opened it is
    created or emptied and the stream is open; otherwise the object is made
    all the same, with nothing changed outside. *)
Definition open_trunc (h : host) (fname : string) (s : io) : ofstream * io :=
  if file_opens h fname then
    (mk_ofstream fname true,
     mk_io (printed_errors s) (directories s)
           (disk_update fname (fun _ => "") (disk s))
           (open_streams s ++ [fname]))
  else (mk_ofstream fname false, s).

(** [ofile << text] *)
Definition stream_write (ofile : ofstream) (text : string) (s : io) : io :=
  if is_open ofile then
    mk_io (printed_errors s) (directories s)
          (disk_update (stream_file ofile) (fun c => c ++ text) (disk s))
          (open_streams s)
  else s.

(** [stream->close(); delete stream] *)
Definition stream_close (stream : ofstream) (s : io) : io :=
  if is_open stream then
    mk_io (printed_errors s) (directories s) (disk s)
          (filter (fun n => negb (String.eqb n (stream_file stream)))
             (open_streams s))
  else s.

(** [std::string::find_last_of] for one character; [None] is [npos]. *)
Fixpoint find_last_of (c : ascii) (s : string) : option nat :=
  match s with
  | EmptyString => None
  | String a s' =>
      match find_last_of c s' with
      | Some i => Some (S i)
      | None => if Ascii.eqb a c then Some O else None
      end
  end.

Definition parent_path (opts : blueprint_options) : string :=
  let basename := "blueprints/" ++ name opts in
  match find_last_of "/"%char basename with
  | Some last_slash => String.substring 0 last_slash basename
  | None => basename
  end.

Definition create_output_dir (h : host) (opts : blueprint_options) (s : io)
  : bool * io :=
  let parent := parent_path opts in
  if negb (mkdir_recursive h parent) then
    (false,
     printerr ("could not create output directory: '" ++ parent ++ "'" ++ endl) s)
  else
    (true,
     mk_io (printed_errors s) (directories s ++ [parent]) (disk s)
           (open_streams s)).

Definition get_filename (h : host) (opts : blueprint_options) (phase : string)
    (s : io) : option string * io :=
  match lua_get_filename h opts phase with
  | lua_load_failed =>
      (None, printerr ("Failed to load blueprint Lua code" ++ endl) s)
  | lua_call_failed =>
      (None, printerr ("Failed Lua call to get_filename" ++ endl) s)
  | lua_not_a_string =>
      (None,
       printerr ("Failed to retrieve filename from get_filename" ++ endl) s)
  | lua_string fname => (Some fname, s)
  end.

(** ** Processors and the scan *)

Definition get_tile_fn : Type := coord -> tile_context -> option string.
Definition init_ctx_fn : Type := coord -> tile_context -> tile_context.

Record blueprint_processor : Type := mk_processor {
  mapdata : bp_volume;
  phase : string;
  get_tile : get_tile_fn;
  init_ctx : option init_ctx_fn
}.

Definition new_processor (phase : string) (get_tile : get_tile_fn)
    (init_ctx : option init_ctx_fn) : blueprint_processor :=
  mk_processor [] phase get_tile init_ctx.

Definition set_mapdata (p : blueprint_processor) (m : bp_volume)
  : blueprint_processor :=
  mk_processor m (phase p) (get_tile p) (init_ctx p).

(** The body of the innermost loop of [do_transform] for the processors from
    the current one on: [ctx] is shared by all of them. *)
Fixpoint process_tile (pos : coord) (zk yk xk : Z) (ctx : tile_context)
    (processors : list blueprint_processor) : list blueprint_processor :=
  match processors with
  | [] => []
  | p :: rest =>
      let ctx' := match init_ctx p with
                  | Some init => init pos ctx
                  | None => ctx
                  end in
      let p' := match get_tile p pos ctx' with
                | Some tile_str =>
                    set_mapdata p (record_tile zk yk xk tile_str (mapdata p))
                | None => p
                end in
      p' :: process_tile pos zk yk xk ctx' rest
  end.

(** The values taken by a loop counter that starts at [from] and is moved
    [n] times by [step]. *)
Definition counter_values (from step : Z) (n : nat) : list Z :=
  map (fun i => from + step * Z.of_nat i) (seq 0 n).

(** The three nested loops of [do_transform]. *)
Definition scan (pretty : bool) (start end_ : coord)
    (processors : list blueprint_processor) : list blueprint_processor :=
  let z_inc := if Z.ltb (pos_z start) (pos_z end_) then 1 else -1 in
  fold_left (fun procs z =>
    fold_left (fun procs y =>
      fold_left (fun procs x =>
        let pos := make_coord x y z in
        let ctx := mk_ctx pretty None in
        process_tile pos (Z.abs (z - pos_z start)) (y - pos_y start)
                     (x - pos_x start) ctx procs)
        (counter_values (pos_x start) 1
           (Z.to_nat (pos_x end_ - pos_x start))) procs)
      (counter_values (pos_y start) 1
         (Z.to_nat (pos_y end_ - pos_y start))) procs)
    (counter_values (pos_z start) z_inc
       (Z.to_nat (Z.abs (pos_z end_ - pos_z start)))) processors.

(** ** Writing the files *)

(** [std::map<string, ofstream*>]: the file names in ascending order, each
    with the stream made for it. *)
Definition output_map : Type := list (string * ofstream).

(** The stream the map holds for a name: [None] when
    [output_files.count(fname)] is 0, otherwise [output_files[fname]]. *)
Fixpoint output_at (fname : string) (m : output_map) : option ofstream :=
  match m with
  | [] => None
  | (n, stream) :: m' =>
      if String.eqb fname n then Some stream else output_at fname m'
  end.

(** [output_files[fname] = stream] *)
Fixpoint output_insert (fname : string) (stream : ofstream) (m : output_map)
  : output_map :=
  match m with
  | [] => [(fname, stream)]
  | (n, s) :: m' =>
      if String.eqb fname n then (n, stream) :: m'
      else if String.ltb fname n then (fname, stream) :: m
      else (n, s) :: output_insert fname stream m'
  end.

(** The result is [None] when a loop of the dense serializer does not end
    within [fuel] iterations; otherwise the returned flag, the map of output
    files and the state of the outside.  A stream is made for a name the map
    does not hold yet; [ofile] is the stream the map then holds for the
    name. *)
Definition write_blueprint (h : host) (fuel : nat) (output_files : output_map)
    (opts : blueprint_options) (processor : blueprint_processor)
    (pretty : bool) (s : io) : option (bool * output_map * io) :=
  match get_filename h opts (phase processor) s with
  | (None, s1) => Some (false, output_files, s1)
  | (Some fname, s1) =>
      let '(ofile, output_files1, s2) :=
        match output_at fname output_files with
        | None =>
            let (stream, s') := open_trunc h fname s1 in
            (stream, output_insert fname stream output_files, s')
        | Some stream => (stream, output_files, s1)
        end in
      let s3 := stream_write ofile (get_modeline (phase processor) ++ endl) s2 in
      let text :=
        if pretty then write_pretty fuel opts (mapdata processor)
        else Some (write_minimal opts (mapdata processor)) in
      match text with
      | None => None
      | Some t => Some (true, output_files1, stream_write ofile t s3)
      end
  end.

(** The loop of [do_transform] over the processors: it returns at the first
    failure. *)
Fixpoint write_all (h : host) (fuel : nat) (output_files : output_map)
    (opts : blueprint_options) (processors : list blueprint_processor)
    (pretty : bool) (s : io) : option (bool * output_map * io) :=
  match processors with
  | [] => Some (true, output_files, s)
  | p :: rest =>
      match write_blueprint h fuel output_files opts p pretty s with
      | None => None
      | Some (false, output_files1, s1) => Some (false, output_files1, s1)
      | Some (true, output_files1, s1) =>
          write_all h fuel output_files1 opts rest pretty s1
      end
  end.

(** The last loop of [do_transform]: the names are reported and the streams
    closed. *)
Fixpoint close_all (output_files : output_map) (filenames : list string)
    (s : io) : list string * io :=
  match output_files with
  | [] => (filenames, s)
  | (fname, stream) :: rest =>
      close_all rest (filenames ++ [fname]) (stream_close stream s)
  end.

Definition selected_processors (w : world) (opts : blueprint_options)
  : list blueprint_processor :=
  (if auto_phase opts || dig opts
   then [new_processor "dig" (get_tile_dig w) None] else [])
  ++ (if auto_phase opts || build opts
      then [new_processor "build" get_tile_build (Some (ensure_building w))]
      else [])
  ++ (if auto_phase opts || place opts
      then [new_processor "place" get_tile_place (Some (ensure_building w))]
      else [])
  ++ (if auto_phase opts || query opts
      then [new_processor "query" get_tile_query (Some (ensure_building w))]
      else []).

Definition is_empty {A : Type} (l : list A) : bool :=
  match l with [] => true | _ => false end.

(** [do_transform]: the returned flag, the vector [filenames] and the state of
    the outside; [None] when the dense serializer does not end within
    [fuel] iterations of one of its loops. *)
Definition do_transform (w : world) (h : host) (fuel : nat)
    (start end_ : coord) (opts : blueprint_options)
    (filenames : list string) (s : io)
  : option (bool * list string * io) :=
  let processors := selected_processors w opts in
  if is_empty processors then
    Some (false, filenames,
          printerr ("no phases requested! nothing to do!" ++ endl) s)
  else
    match create_output_dir h opts s with
    | (false, s1) => Some (false, filenames, s1)
    | (true, s1) =>
        let pretty := negb (String.eqb (format opts) "minimal") in
        let processors1 := scan pretty start end_ processors in
        match write_all h fuel [] opts processors1 pretty s1 with
        | None => None
        | Some (false, _, s2) => Some (false, filenames, s2)
        | Some (true, output_files, s2) =>
            let (filenames1, s3) := close_all output_files filenames s2 in
            Some (true, filenames1, s3)
        end
    end.

(** * Vocabulary of the properties *)

(** The shape the excavation classifier switches on. *)
Definition shape_at (w : world) (pos : coord) : tiletype_shape :=
  tileShape w (match getTileType w pos with Some t => t | None => Void w end).

(** Number of occurrences of a character in a token. *)
Fixpoint count_char (c : ascii) (s : string) : nat :=
  match s with
  | EmptyString => O
  | String a s' => (if Ascii.eqb a c then 1 else 0)%nat + count_char c s'
  end.

(** The case labels of the friction [switch], in source order. *)
Definition friction_labels : list Z := [10; 50; 500; 10000].

(** Number of labels from the one equal to [friction] to the last one. *)
Fixpoint labels_from (friction : Z) (labels : list Z) : nat :=
  match labels with
  | [] => O
  | l :: rest =>
      if Z.eqb friction l then List.length labels else labels_from friction rest
  end.

(** A track stop with the given settings. *)
Definition track_stop (use_dump : bool) (dump_x_shift dump_y_shift friction : Z)
  : building :=
  mk_building 4 4 4 4 4 4 false Trap
    (building_trapst trap_type.TrackStop use_dump dump_x_shift dump_y_shift
       friction).

(** ** A 3x3 map with a mason's workshop *)

Definition masons : building :=
  mk_building 0 0 2 2 1 1 false Workshop
    (building_workshopst workshop_type.Masons).

Definition inside (bld : building) (pos : coord) : bool :=
  Z.leb (x1 bld) (pos_x pos) && Z.leb (pos_x pos) (x2 bld)
  && Z.leb (y1 bld) (pos_y pos) && Z.leb (pos_y pos) (y2 bld).

Definition workshop_world : world :=
  mk_world unit tt (fun _ => FLOOR) (fun _ => Some tt)
    (fun pos => if inside masons pos then Some masons else None).

Definition csv_host : host :=
  mk_host (fun _ => true)
    (fun opts phase =>
       lua_string ("blueprints/" ++ name opts ++ "-" ++ phase ++ ".csv"))
    (fun _ => true).

Definition empty_io : io := mk_io [] [] [] [].

Definition build_options (fmt : string) : blueprint_options :=
  mk_options false (mk_coord 0 0 0) fmt "phase" 3 3 1 "ws" false
    false true false false.

(** The text the 3x3 workshop map gives for the construction phase, in the
    dense and in the minimal layout. *)
Definition workshop_dense_text : string :=
  "#build label(build)" ++ endl
  ++ "`,`,`,#" ++ endl
  ++ "`,wm,`,#" ++ endl
  ++ "`,`,`,#" ++ endl.

Definition workshop_minimal_text : string :=
  "#build label(build)" ++ endl
  ++ ",," ++ endl
  ++ ",wm," ++ endl
  ++ ",," ++ endl.

Definition run_workshop (fmt : string) : option (bool * list string * io) :=
  do_transform workshop_world csv_host 3 (mk_coord 0 0 0) (mk_coord 3 3 1)
    (build_options fmt) [] empty_io.

Definition workshop_result (text : string) : option (bool * list string * io) :=
  Some (true, ["blueprints/ws-build.csv"],
        mk_io [] ["blueprints"] [("blueprints/ws-build.csv", text)] []).

(** ** Anchors and footprints *)

Inductive anchor : Type := north_west | centre | south_east.

(** The anchor the specification gives to each multi-tile kind; [None] for the kinds
    that are not anchored. *)
Definition designated_anchor (t : building_type) : option anchor :=
  match t with
  | FarmPlot | RoadPaved | RoadDirt | Bridge | AxleHorizontal | Rollers =>
      Some north_west
  | Workshop | Furnace | SiegeEngine | TradeDepot | Shop | WaterWheel
  | Windmill => Some centre
  | ScrewPump => Some south_east
  | _ => None
  end.

Definition anchor_tile (a : anchor) (bld : building) : Z * Z :=
  match a with
  | north_west => (x1 bld, y1 bld)
  | centre => (centerx bld, centery bld)
  | south_east => (x2 bld, y2 bld)
  end.

Definition at_tile (xy : Z * Z) (pos : coord) : bool :=
  Z.eqb (pos_x pos) (fst xy) && Z.eqb (pos_y pos) (snd xy).

(** The descriptor of a multi-tile building, before any size suffix. *)
Definition descriptor (bld : building) : string :=
  match getType bld with
  | FarmPlot => "p"
  | RoadPaved => "o"
  | RoadDirt => "O"
  | Bridge => get_bridge_str bld
  | SiegeEngine => get_siege_str bld
  | Workshop => get_workshop_str bld
  | Furnace => get_furnace_str bld
  | Shop => "z"
  | TradeDepot => "D"
  | ScrewPump => get_screw_pump_str bld
  | WaterWheel => get_water_wheel_str bld
  | Windmill => "Mm"
  | AxleHorizontal => get_axle_str bld
  | Rollers => get_roller_str bld
  | _ => "~"
  end.

Definition footprint_width (bld : building) : Z := x2 bld - x1 bld + 1.
Definition footprint_height (bld : building) : Z := y2 bld - y1 bld + 1.

(** The kinds whose token ends with the footprint size. *)
Definition carries_size (t : building_type) : bool :=
  match t with
  | FarmPlot | RoadPaved | RoadDirt | Bridge | AxleHorizontal | Rollers => true
  | _ => false
  end.

(** The full token of a multi-tile building. *)
Definition full_token (bld : building) : string :=
  if carries_size (getType bld) then
    descriptor bld ++ "(" ++ show_unsigned (footprint_width bld) ++ "x"
      ++ show_unsigned (footprint_height bld) ++ ")"
  else descriptor bld.

(** The tiles of the footprint on the layer [z], row by row. *)
Definition footprint (bld : building) (z : Z) : list coord :=
  flat_map
    (fun y =>
       map (fun x => mk_coord x y z)
         (counter_values (x1 bld) 1 (Z.to_nat (footprint_width bld))))
    (counter_values (y1 bld) 1 (Z.to_nat (footprint_height bld))).

(** A building whose corners are map coordinates (non-negative [int32_t]
    values) in the right order, with its centre inside the footprint. *)
Definition well_formed (bld : building) : Prop :=
  0 <= x1 bld /\ x1 bld <= x2 bld /\ x2 bld <= 2147483647
  /\ 0 <= y1 bld /\ y1 bld <= y2 bld /\ y2 bld <= 2147483647
  /\ x1 bld <= centerx bld <= x2 bld
  /\ y1 bld <= centery bld <= y2 bld.

(** Whether the construction classifier gives the token [s] at a tile. *)
Definition build_token_is (ctx : tile_context) (s : string) (pos : coord)
  : bool :=
  match get_tile_build pos ctx with
  | Some t => String.eqb t s
  | None => false
  end.

(** ** Rows of the minimal layout *)

Definition minimal_cell (row : bp_row) (x : Z) : string :=
  match Map16.find x row with
  | Some tile => tile
  | None => ""
  end.

(** The greatest key of an ordered map, [d] when it is empty. *)
Fixpoint last_key {V : Type} (d : Z) (m : Map16.t V) : Z :=
  match m with
  | [] => d
  | (k, _) :: m' => last_key k m'
  end.

(** The cells of a row, from column 0 to its last recorded column. *)
Definition minimal_cells (row : bp_row) : list string :=
  map (minimal_cell row)
    (counter_values 0 1 (Z.to_nat (last_key (-1) row + 1))).

Fixpoint join_with (sep : string) (l : list string) : string :=
  match l with
  | [] => ""
  | s :: l' =>
      match l' with
      | [] => s
      | _ => s ++ sep ++ join_with sep l'
      end
  end.

(** A farm plot of 3x2 tiles and a stockpile of 2x2 tiles. *)
Definition farm_plot : building :=
  mk_building 5 5 7 6 6 5 false FarmPlot building_actual.

Definition stone_pile : building :=
  mk_building 1 1 2 2 1 1 false Stockpile
    (building_stockpilest (mask stockpile_group.stone)).

(** The invariant of a sparse volume: the three levels are ordered. *)
Definition area_ok (area : bp_area) : Prop :=
  Map16.ordered area /\ Forall (fun e => Map16.ordered (snd e)) area.

Definition volume_ok (vol : bp_volume) : Prop :=
  Map16.ordered vol /\ Forall (fun e => area_ok (snd e)) vol.

(** A processor for the construction phase with nothing recorded, and the
    context of the minimal layout at a tile of the farm plot. *)
Definition build_processor : blueprint_processor :=
  new_processor "build" get_tile_build None.

Definition farm_ctx : tile_context := mk_ctx false (Some farm_plot).

(** ** The gaps of the minimal layout *)

(** The shape the three loops of [write_minimal] share: before each entry
    the separator is written once for every key skipped since the previous
    entry, then the entry itself. *)
Fixpoint write_gapped {V : Type} (sep : string) (body : V -> string)
    (prev : Z) (m : Map16.t V) : string :=
  match m with
  | [] => ""
  | (k, v) :: m' =>
      write_gap sep prev k ++ body v ++ write_gapped sep body (Z.max prev k) m'
  end.

(** What an ordered map contributes at a key: the text of its entry, or
    nothing. *)
Definition slot {V : Type} (body : V -> string) (m : Map16.t V) (k : Z)
  : string :=
  match Map16.find k m with
  | Some v => body v
  | None => ""
  end.

(** The line of a row of an area in the minimal layout. *)
Definition minimal_line (area : bp_area) (y : Z) : string :=
  slot (write_minimal_row 0) area y.

(** The text of a layer of a volume in the minimal layout: its lines and the
    end of its last line, or nothing for a layer that is not stored. *)
Definition minimal_layer (vol : bp_volume) (z : Z) : string :=
  slot (fun area => write_minimal_area 0 area ++ endl) vol z.

(** The keys from 0 to the last key of a map. *)
Definition keys_to_last {V : Type} (m : Map16.t V) : list Z :=
  counter_values 0 1 (Z.to_nat (last_key (-1) m + 1)).

(** The volume the construction phase records for the 3x3 workshop map in
    the minimal layout. *)
Definition workshop_minimal_volume : bp_volume :=
  [(0, [(0, [(0, ""); (1, ""); (2, "")]);
        (1, [(0, ""); (1, "wm"); (2, "")]);
        (2, [(0, ""); (1, ""); (2, "")])])].

(** The dig processor of the workshop map, before the scan. *)
Definition workshop_dig : blueprint_processor :=
  new_processor "dig" (get_tile_dig workshop_world) None.

(** ** The grid of the dense layout *)

(** The cells of the dense layout as the specification describes them: one
    layer for each of the [abs(depth)] offsets, [height] rows a layer,
    [width] cells a row, each cell the stored token or a blank. *)
Definition dense_grid (opts : blueprint_options) (vol : bp_volume)
  : list (list (list string)) :=
  map (fun z =>
         map (fun y =>
                map (fun x => pretty_cell (lookup_tile z y x vol))
                  (counter_values 0 1 (Z.to_nat (width opts))))
           (counter_values 0 1 (Z.to_nat (height opts))))
    (counter_values 0 1 (Z.to_nat (Z.abs (depth opts)))).

(** A row: every cell followed by a comma, then '#' and the end of line. *)
Definition render_row (cells : list string) : string :=
  concat_strings (map (fun c => c ++ ",") cells) ++ "#" ++ endl.

Definition render_layer (rows : list (list string)) : string :=
  concat_strings (map render_row rows).

(** The layers, with a separator line between consecutive ones only. *)
Definition render_grid (key : string) (grid : list (list (list string)))
  : string :=
  join_with (key ++ endl) (map render_layer grid).


(** Run parameters for two layers of 2x1 tiles scanned upwards. *)
Definition two_layer_options : blueprint_options :=
  mk_options false (mk_coord 0 0 5) "pretty" "none" 2 1 (-2) "two" false
    true false false false.

(** ** The scan, tile by tile *)

(** The context the [i]-th processor classifies a tile with: the context of
    the tile after the initialisations of the processors up to it. *)
Fixpoint context_for (pos : coord) (ctx : tile_context)
    (processors : list blueprint_processor) (i : nat) : tile_context :=
  match processors with
  | [] => ctx
  | p :: rest =>
      let ctx' := match init_ctx p with
                  | Some init => init pos ctx
                  | None => ctx
                  end in
      match i with
      | O => ctx'
      | S i' => context_for pos ctx' rest i'
      end
  end.

(** The tiles of a scan as triples (x, y, z) of loop counters, in the order
    the loops visit them. *)
Definition scan_tiles (start end_ : coord) : list (Z * Z * Z) :=
  flat_map (fun z =>
    flat_map (fun y =>
      map (fun x => (x, y, z))
        (counter_values (pos_x start) 1
           (Z.to_nat (pos_x end_ - pos_x start))))
      (counter_values (pos_y start) 1
         (Z.to_nat (pos_y end_ - pos_y start))))
    (counter_values (pos_z start)
       (if Z.ltb (pos_z start) (pos_z end_) then 1 else -1)
       (Z.to_nat (Z.abs (pos_z end_ - pos_z start)))).

Definition scan_step (pretty : bool) (start : coord)
    (processors : list blueprint_processor) (t : Z * Z * Z)
  : list blueprint_processor :=
  let '(x, y, z) := t in
  process_tile (make_coord x y z) (Z.abs (z - pos_z start))
    (y - pos_y start) (x - pos_x start) (mk_ctx pretty None) processors.

(** The token the [i]-th processor gets at a tile. *)
Definition token_at (pretty : bool) (processors : list blueprint_processor)
    (i : nat) (p : blueprint_processor) (t : Z * Z * Z) : option string :=
  let '(x, y, z) := t in
  get_tile p (make_coord x y z)
    (context_for (make_coord x y z) (mk_ctx pretty None) processors i).

(** What one tile adds to a volume. *)
Definition store (start : coord) (tok : Z * Z * Z -> option string)
    (vol : bp_volume) (t : Z * Z * Z) : bp_volume :=
  let '(x, y, z) := t in
  match tok t with
  | Some tile_str =>
      record_tile (Z.abs (z - pos_z start)) (y - pos_y start)
        (x - pos_x start) tile_str vol
  | None => vol
  end.

(** The keys of a tile: layer, row and column, as narrowed by the maps. *)
Definition tile_key (start : coord) (t : Z * Z * Z) : Z * Z * Z :=
  let '(x, y, z) := t in
  (Int.to_int16 (Z.abs (z - pos_z start)),
   Int.to_int16 (y - pos_y start),
   Int.to_int16 (x - pos_x start)).

(** A tile inside the scanned box: the end is exclusive and the layers run
    from the start towards the end. *)
Definition in_box (start end_ : coord) (t : Z * Z * Z) : Prop :=
  let '(x, y, z) := t in
  pos_x start <= x < pos_x end_
  /\ pos_y start <= y < pos_y end_
  /\ (pos_z start <= z < pos_z end_ \/ pos_z end_ < z <= pos_z start).

(** A start position on the map and an end position cropped to it. *)
Definition scan_bounds (start end_ : coord) : Prop :=
  0 <= pos_x start /\ pos_x end_ <= 32767
  /\ 0 <= pos_y start /\ pos_y end_ <= 32767
  /\ 0 <= pos_z start <= 32767 /\ -1 <= pos_z end_ <= 32767.

(** ** A shaft scanned upwards *)

(** Walls everywhere, but an up stair at (0,0,9) and a ramp at (0,0,7). *)
Definition shaft_world : world :=
  mk_world tiletype_shape WALL (fun s => s)
    (fun pos =>
       if Z.eqb (pos_x pos) 0 && Z.eqb (pos_y pos) 0 && Z.eqb (pos_z pos) 9
       then Some STAIR_UP
       else if Z.eqb (pos_x pos) 0 && Z.eqb (pos_y pos) 0
               && Z.eqb (pos_z pos) 7
       then Some RAMP
       else Some WALL)
    (fun _ => None).

Definition shaft_options (fmt : string) : blueprint_options :=
  mk_options false (mk_coord 0 0 10) fmt "none" 1 1 (-5) "shaft" false
    true false false false.

Definition shaft_start : coord := mk_coord 0 0 10.
Definition shaft_end : coord := mk_coord 1 1 5.

Definition run_shaft (fmt : string) : option (bool * list string * io) :=
  do_transform shaft_world csv_host 5 shaft_start shaft_end
    (shaft_options fmt) [] empty_io.

Definition shaft_minimal_text : string :=
  "#dig label(dig)" ++ endl
  ++ "#>" ++ endl ++ "u" ++ endl
  ++ "#>" ++ endl ++ "#>" ++ endl ++ "r" ++ endl.

Definition shaft_dense_text : string :=
  "#dig label(dig)" ++ endl
  ++ " ,#" ++ endl ++ "#>" ++ endl
  ++ "u,#" ++ endl ++ "#>" ++ endl
  ++ " ,#" ++ endl ++ "#>" ++ endl
  ++ "r,#" ++ endl ++ "#>" ++ endl
  ++ " ,#" ++ endl.

Definition shaft_result (text : string) : option (bool * list string * io) :=
  Some (true, ["blueprints/shaft-dig.csv"],
        mk_io [] ["blueprints"] [("blueprints/shaft-dig.csv", text)] []).

(** ** A run whose second file name cannot be resolved *)

Definition failing_host : host :=
  mk_host (fun _ => true)
    (fun opts phase =>
       if String.eqb phase "dig"
       then lua_string ("blueprints/" ++ name opts ++ "-dig.csv")
       else lua_not_a_string)
    (fun _ => true).

Definition dig_build_options : blueprint_options :=
  mk_options false (mk_coord 0 0 0) "minimal" "phase" 3 3 1 "ws" false
    true true false false.

Definition no_phase_options : blueprint_options :=
  mk_options false (mk_coord 0 0 0) "minimal" "none" 3 3 1 "ws" false
    false false false false.

(** * Further vocabulary *)

(** The fields of a [df::coord] are 16-bit values. *)
Definition coord_in_range (c : coord) : Prop :=
  Int.int16_range (pos_x c) /\ Int.int16_range (pos_y c)
  /\ Int.int16_range (pos_z c).

(** Whether two triples of keys are the same. *)
Definition same_keys (k k' : Z * Z * Z) : bool :=
  let '(z, y, x) := k in
  let '(z', y', x') := k' in
  Z.eqb z z' && Z.eqb y y' && Z.eqb x x'.

(** The code of a processor, which a scan never changes. *)
Definition processor_code (p : blueprint_processor)
  : string * get_tile_fn * option init_ctx_fn :=
  (phase p, get_tile p, init_ctx p).

(** The dig processor of the shaft, before the scan. *)
Definition shaft_dig : blueprint_processor :=
  new_processor "dig" (get_tile_dig shaft_world) None.

(** ** Sample rows and grids *)

(** A row with a gap and an area with a missing row. *)
Definition gapped_row : bp_row := [(0, "d"); (3, "d")].
Definition gapped_area : bp_area := [(0, [(1, "u")]); (2, gapped_row)].
Definition gapped_volume : bp_volume := [(1, gapped_area); (3, [(0, [(0, "r")])])].

(** Run parameters for a grid wider than the 16-bit column counter. *)
Definition wide_options : blueprint_options :=
  mk_options false (mk_coord 0 0 0) "pretty" "none" 32768 1 1 "wide" false
    true false false false.

(** Whether the keys of a tile lie in the grid the dense layout writes. *)
Definition in_grid (opts : blueprint_options) (z y x : Z) : Prop :=
  0 <= z < Z.abs (depth opts) /\ 0 <= y < height opts /\ 0 <= x < width opts.

(** ** Files *)

(** The content of a file on the disk, if the file exists. *)
Fixpoint disk_read (fname : string) (d : list (string * string))
  : option string :=
  match d with
  | [] => None
  | (n, c) :: d' => if String.eqb fname n then Some c else disk_read fname d'
  end.

(** The section a processor contributes to its file. *)
Definition section_text (fuel : nat) (opts : blueprint_options)
    (pretty : bool) (p : blueprint_processor) : option string :=
  match (if pretty then write_pretty fuel opts (mapdata p)
         else Some (write_minimal opts (mapdata p))) with
  | Some body => Some (get_modeline (phase p) ++ endl ++ body)
  | None => None
  end.

(** A disk with an old blueprint on it. *)
Definition used_io : io :=
  mk_io [] ["blueprints"]
    [("blueprints/ws-dig.csv", "#dig label(dig)" ++ endl ++ "old" ++ endl);
     ("notes.txt", "keep")] [].

(** A host that cannot create the output directory. *)
Definition readonly_host : host :=
  mk_host (fun _ => false)
    (fun opts phase =>
       lua_string ("blueprints/" ++ name opts ++ "-" ++ phase ++ ".csv"))
    (fun _ => true).

(** A host that writes every phase to one file. *)
Definition one_file_host : host :=
  mk_host (fun _ => true)
    (fun opts _ => lua_string ("blueprints/" ++ name opts ++ ".csv"))
    (fun _ => true).

(** Hosts on which no file can be opened for writing: one that names a file
    for each phase, and one that names one file for all phases. *)
Definition locked_host : host :=
  mk_host (fun _ => true)
    (fun opts phase =>
       lua_string ("blueprints/" ++ name opts ++ "-" ++ phase ++ ".csv"))
    (fun _ => false).

Definition locked_file_host : host :=
  mk_host (fun _ => true)
    (fun opts _ => lua_string ("blueprints/" ++ name opts ++ ".csv"))
    (fun _ => false).

(** Adjacent file names in strictly ascending order. *)
Definition names_ascending (names : list string) : Prop :=
  Sorted (fun a c => String.ltb a c = true) names.

(** The file name the host gives for the phase of a processor, if any. *)
Definition resolved_name (h : host) (opts : blueprint_options)
    (p : blueprint_processor) (n : string) : Prop :=
  lua_get_filename h opts (phase p) = lua_string n.

(** What the write loop keeps true of its map of output files: each name is
    mapped to the stream made for it, every open stream is in the map, and
    the names are in ascending order. *)
Definition outputs_ok (outs : output_map) (s : io) : Prop :=
  Forall (fun e => stream_file (snd e) = fst e) outs
  /\ (forall n, In n (open_streams s) -> In (n, mk_ofstream n true) outs)
  /\ names_ascending (map fst outs).

(** Whether some phase is selected. *)
Definition some_phase (opts : blueprint_options) : bool :=
  auto_phase opts || dig opts || build opts || place opts || query opts.

(** Whether the host gave no file name. *)
Definition unresolved (r : lua_result) : bool :=
  match r with
  | lua_string _ => false
  | _ => true
  end.

(** A host that resolves no file name. *)
Definition mute_host : host :=
  mk_host (fun _ => true) (fun _ _ => lua_call_failed) (fun _ => true).

Definition one_file_options : blueprint_options :=
  mk_options false (mk_coord 0 0 0) "minimal" "none" 3 3 1 "ws" false
    true true false false.

(** The outside after the dig and build phases of the workshop map have been
    written to a file each, in the minimal layout. *)
Definition workshop_two_files : io :=
  mk_io [] ["blueprints"]
    [("blueprints/ws-dig.csv",
      "#dig label(dig)" ++ endl ++ "d,d,d" ++ endl ++ "d,d,d" ++ endl
        ++ "d,d,d" ++ endl);
     ("blueprints/ws-build.csv", workshop_minimal_text)] [].

(** ** Classifier vocabulary *)

Definition is_some {A : Type} (o : option A) : bool :=
  match o with
  | Some _ => true
  | None => false
  end.

(** The number of 'd' marks of a track stop: none without a dump, one or two
    for a dump along y, three or four for a dump along x. *)
Definition dump_marks (use_dump : bool) (dump_x_shift dump_y_shift : Z) : nat :=
  if use_dump then
    if Z.eqb dump_x_shift 0 then (if Z.ltb 0 dump_y_shift then 2 else 1)
    else (if Z.ltb dump_x_shift 0 then 4 else 3)
  else 0.

(** The category of a stockpile of which exactly one category flag is on. *)
Definition single_category (bld : building) : option stockpile_group.t :=
  match dyn bld with
  | building_stockpilest (mask g) => Some g
  | _ => None
  end.

(** The letters of the sixteen stockpile categories in the designation
    phase; a flag outside the table has none. *)
Definition category_letter (g : stockpile_group.t) : option string :=
  match g with
  | stockpile_group.animals => Some "a"
  | stockpile_group.food => Some "f"
  | stockpile_group.furniture => Some "u"
  | stockpile_group.corpses => Some "y"
  | stockpile_group.refuse => Some "r"
  | stockpile_group.wood => Some "w"
  | stockpile_group.stone => Some "s"
  | stockpile_group.gems => Some "e"
  | stockpile_group.bars_blocks => Some "b"
  | stockpile_group.cloth => Some "h"
  | stockpile_group.leather => Some "l"
  | stockpile_group.ammo => Some "z"
  | stockpile_group.coins => Some "n"
  | stockpile_group.finished_goods => Some "g"
  | stockpile_group.weapons => Some "p"
  | stockpile_group.armor => Some "d"
  | stockpile_group.other _ => None
  end.

(** A stockpile that holds several categories. *)
Definition mixed_pile : building :=
  mk_building 1 1 2 2 1 1 false Stockpile
    (building_stockpilest (flags_whole 6)).

(** A door. *)
Definition door : building :=
  mk_building 3 3 3 3 3 3 true Door building_actual.

(** A map on which every tile holds the door. *)
Definition door_world : world :=
  mk_world unit tt (fun _ => FLOOR) (fun _ => Some tt) (fun _ => Some door).

Definition all_phases_options : blueprint_options :=
  mk_options false (mk_coord 0 0 0) "minimal" "none" 1 1 1 "all" true
    false false false false.

(** ** The tables of sub-variants *)

(** The token of a sub-variant, read through a building that carries it. *)
Definition with_class (t : building_type) (c : building_class) : building :=
  mk_building 0 0 0 0 0 0 false t c.

Definition workshop_token (t : workshop_type.t) : string :=
  get_workshop_str (with_class Workshop (building_workshopst t)).

Definition furnace_token (t : furnace_type.t) : string :=
  get_furnace_str (with_class Furnace (building_furnacest t)).

Definition construction_token (t : construction_type.t) : string :=
  get_construction_str (with_class Construction (building_constructionst t)).

Definition screw_pump_token (d : screw_pump_direction.t) : string :=
  get_screw_pump_str (with_class ScrewPump (building_screw_pumpst d)).

Definition roller_token (d : screw_pump_direction.t) : string :=
  get_roller_str (with_class Rollers (building_rollersst d)).

Definition bridge_token (d : bridge_direction.t) : string :=
  get_bridge_str (with_class Bridge (building_bridgest d)).

Definition stockpile_letter (g : stockpile_group.t) : option string :=
  get_place_keys
    (mk_ctx false
       (Some (with_class Stockpile (building_stockpilest (mask g))))).

(** The enumerators the tables name. *)
Definition named_workshops : list workshop_type.t :=
  [workshop_type.Leatherworks; workshop_type.Quern; workshop_type.Millstone;
   workshop_type.Loom; workshop_type.Clothiers; workshop_type.Bowyers;
   workshop_type.Carpenters; workshop_type.MetalsmithsForge;
   workshop_type.MagmaForge; workshop_type.Jewelers; workshop_type.Masons;
   workshop_type.Butchers; workshop_type.Tanners; workshop_type.Craftsdwarfs;
   workshop_type.Siege; workshop_type.Mechanics; workshop_type.Still;
   workshop_type.Farmers; workshop_type.Kitchen; workshop_type.Fishery;
   workshop_type.Ashery; workshop_type.Dyers; workshop_type.Kennels].

Definition named_furnaces : list furnace_type.t :=
  [furnace_type.WoodFurnace; furnace_type.Smelter; furnace_type.GlassFurnace;
   furnace_type.Kiln; furnace_type.MagmaSmelter;
   furnace_type.MagmaGlassFurnace; furnace_type.MagmaKiln].

Definition named_constructions : list construction_type.t :=
  [construction_type.Fortification; construction_type.Wall;
   construction_type.Floor; construction_type.UpStair;
   construction_type.DownStair; construction_type.UpDownStair;
   construction_type.Ramp; construction_type.TrackN;
   construction_type.TrackS; construction_type.TrackE;
   construction_type.TrackW; construction_type.TrackNS;
   construction_type.TrackNE; construction_type.TrackNW;
   construction_type.TrackSE; construction_type.TrackSW;
   construction_type.TrackEW; construction_type.TrackNSE;
   construction_type.TrackNSW; construction_type.TrackNEW;
   construction_type.TrackSEW; construction_type.TrackNSEW;
   construction_type.TrackRampN; construction_type.TrackRampS;
   construction_type.TrackRampE; construction_type.TrackRampW;
   construction_type.TrackRampNS; construction_type.TrackRampNE;
   construction_type.TrackRampNW; construction_type.TrackRampSE;
   construction_type.TrackRampSW; construction_type.TrackRampEW;
   construction_type.TrackRampNSE; construction_type.TrackRampNSW;
   construction_type.TrackRampNEW; construction_type.TrackRampSEW;
   construction_type.TrackRampNSEW].

Definition named_directions : list screw_pump_direction.t :=
  [screw_pump_direction.FromNorth; screw_pump_direction.FromEast;
   screw_pump_direction.FromSouth; screw_pump_direction.FromWest].

Definition named_bridges : list bridge_direction.t :=
  [bridge_direction.Retracting; bridge_direction.Left;
   bridge_direction.Right; bridge_direction.Up; bridge_direction.Down].

Definition named_groups : list stockpile_group.t :=
  [stockpile_group.animals; stockpile_group.food; stockpile_group.furniture;
   stockpile_group.corpses; stockpile_group.refuse; stockpile_group.wood;
   stockpile_group.stone; stockpile_group.gems; stockpile_group.bars_blocks;
   stockpile_group.cloth; stockpile_group.leather; stockpile_group.ammo;
   stockpile_group.coins; stockpile_group.finished_goods;
   stockpile_group.weapons; stockpile_group.armor].

(** Reading a token back: the first named enumerator that has it. *)
Definition decode {T : Type} (token : T -> string) (named : list T)
    (s : string) : option T :=
  find (fun t => String.eqb (token t) s) named.

Definition letter_or_none (g : stockpile_group.t) : string :=
  match stockpile_letter g with
  | Some k => k
  | None => "~"
  end.

(** The dig and build processors of the workshop map with the volumes the
    scan gives them in the minimal layout. *)
Definition dig_done : blueprint_processor :=
  mk_processor
    [(0, [(0, [(0, "d"); (1, "d"); (2, "d")]);
          (1, [(0, "d"); (1, "d"); (2, "d")]);
          (2, [(0, "d"); (1, "d"); (2, "d")])])]
    "dig" (get_tile_dig workshop_world) None.

Definition build_done : blueprint_processor :=
  mk_processor
    [(0, [(0, [(0, ""); (1, ""); (2, "")]);
          (1, [(0, ""); (1, "wm"); (2, "")]);
          (2, [(0, ""); (1, ""); (2, "")])])]
    "build" get_tile_build (Some (ensure_building workshop_world)).

Definition dig_section : string :=
  "#dig label(dig)" ++ endl ++ "d,d,d" ++ endl ++ "d,d,d" ++ endl
    ++ "d,d,d" ++ endl.

(** ** The end of the scanned box *)

(** The end coordinate [do_blueprint] computes from a valid start position:
    start plus the requested extents, narrowed to the 16-bit fields of a
    [df::coord], then cropped to the counts of the map ([x_count], [y_count]
    and [z_count] of [df::world::T_map]) and to -1 for the layer. *)
Definition blueprint_end (start : coord) (opts : blueprint_options)
    (x_count y_count z_count : Z) : coord :=
  let end_ := make_coord (pos_x start + width opts) (pos_y start + height opts)
                (pos_z start + depth opts) in
  let ex := if Z.ltb x_count (pos_x end_) then Int.to_int16 x_count
            else pos_x end_ in
  let ey := if Z.ltb y_count (pos_y end_) then Int.to_int16 y_count
            else pos_y end_ in
  let ez := if Z.ltb z_count (pos_z end_) then Int.to_int16 z_count
            else pos_z end_ in
  let ez := if Z.ltb ez (-1) then -1 else ez in
  mk_coord ex ey ez.

(** A start position that [Maps::isValidTilePos] accepts on a map of the
    given counts, the counts being within the 16-bit range. *)
Definition valid_start (start : coord) (x_count y_count z_count : Z) : Prop :=
  0 <= pos_x start < x_count /\ x_count <= 32767
  /\ 0 <= pos_y start < y_count /\ y_count <= 32767
  /\ 0 <= pos_z start < z_count /\ z_count <= 32767.

(** Extents that do not leave the 16-bit range when added to the start. *)
Definition extents_fit (start : coord) (opts : blueprint_options) : Prop :=
  0 < width opts /\ pos_x start + width opts <= 32767
  /\ 0 < height opts /\ pos_y start + height opts <= 32767
  /\ depth opts <> 0 /\ -32768 <= pos_z start + depth opts <= 32767.

(** Whether the designation classifier gives the token [s] at a tile. *)
Definition place_token_is (ctx : tile_context) (s : string) (pos : coord)
  : bool :=
  match get_tile_place pos ctx with
  | Some t => String.eqb t s
  | None => false
  end.

(** The token of a stockpile at its north-west corner. *)
Definition corner_token (bld : building) : string :=
  add_expansion_syntax bld (get_place_keys (mk_ctx false (Some bld))).

(** ** The string cache, with its state *)

(** The static [std::set<string>] of [cache]: the strings in ascending
    order.  Elsewhere a token is its content and [cache] the identity; here
    the set is explicit. *)
Module StringCache.

Definition t : Type := list string.

(** [_cache.emplace(str)]: the set afterwards. *)
Fixpoint emplace (str : string) (c : t) : t :=
  match c with
  | [] => [str]
  | s :: c' =>
      if String.eqb str s then c
      else if String.ltb str s then str :: c
      else s :: emplace str c'
  end.

(** [cache(str)]: a null argument clears the set and gives null; otherwise
    the result points to the element of the set that equals [str]. *)
Definition cache (str : option string) (c : t) : option string * t :=
  match str with
  | None => (None, [])
  | Some s =>
      let c' := emplace s c in
      (List.find (String.eqb s) c', c')
  end.

(** The set after the strings of a list have gone through [cache]. *)
Definition intern_all (l : list string) (c : t) : t :=
  fold_left (fun acc s => snd (cache (Some s) acc)) l c.

(** The invariant of the set: strictly ascending. *)
Definition ordered (c : t) : Prop :=
  StronglySorted (fun a d => String.ltb a d = true) c.

End StringCache.

(** * Properties *)

(** ** Machine integers *)

Lemma to_int16_id (n : Z) : Int.int16_range n -> Int.to_int16 n = n.
Proof.
  unfold Int.int16_range, Int.to_int16. intros H.
  rewrite Z.mod_small by lia. lia.
Qed.

Lemma to_int16_range (n : Z) : Int.int16_range (Int.to_int16 n).
Proof.
  unfold Int.int16_range, Int.to_int16.
  pose proof (Z.mod_pos_bound (n + 32768) 65536). lia.
Qed.

Lemma to_uint32_id (n : Z) : 0 <= n < 4294967296 -> Int.to_uint32 n = n.
Proof. intros H. unfold Int.to_uint32. now apply Z.mod_small. Qed.

(** ** Excavation phase *)

(** C5.  The excavation classifier is a total function of the shape of the
    tile alone: two tiles of equal shape get the same token whatever the
    world, the position and the context (which holds the building, never
    looked up here); open space and ramp tops give "h", floors, boulders,
    pebbles and brook surfaces "d", fortifications "F", up, down and up-down
    stairs "u", "j" and "i", ramps "r", all these tokens being pairwise
    distinct; walls and every other shape give no token. *)
Theorem get_tile_dig_by_shape :
  (forall (w w' : world) (pos pos' : coord) (ctx ctx' : tile_context),
      shape_at w pos = shape_at w' pos' ->
      get_tile_dig w pos ctx = get_tile_dig w' pos' ctx')
  /\ (forall (w : world) (pos : coord) (ctx : tile_context),
         let token := get_tile_dig w pos ctx in
         match shape_at w pos with
         | EMPTY | RAMP_TOP => token = Some "h"
         | FLOOR | BOULDER | PEBBLES | BROOK_TOP => token = Some "d"
         | FORTIFICATION => token = Some "F"
         | STAIR_UP => token = Some "u"
         | STAIR_DOWN => token = Some "j"
         | STAIR_UPDOWN => token = Some "i"
         | RAMP => token = Some "r"
         | WALL | SHAPE_OTHER _ => token = None
         end)
  /\ NoDup ["h"; "d"; "F"; "u"; "j"; "i"; "r"].
Proof.
  split; [| split].
  - intros w w' pos pos' ctx ctx' Hshape.
    unfold get_tile_dig. fold (shape_at w pos). fold (shape_at w' pos').
    now rewrite Hshape.
  - intros w pos ctx token. subst token.
    unfold get_tile_dig. fold (shape_at w pos).
    destruct (shape_at w pos); reflexivity.
  - repeat constructor; simpl; intuition discriminate.
Qed.

Lemma get_tile_dig_by_shape_witness :
  shape_at workshop_world (mk_coord 0 0 0) = shape_at workshop_world (mk_coord 2 1 0)
  /\ get_tile_dig workshop_world (mk_coord 0 0 0) (mk_ctx true None)
     = get_tile_dig workshop_world (mk_coord 2 1 0) (mk_ctx false (Some masons)).
Proof.
  split; [reflexivity |].
  apply (proj1 get_tile_dig_by_shape). reflexivity.
Defined.

(** ** Track stops *)

Lemma count_char_app (c : ascii) (s t : string) :
  count_char c (s ++ t) = (count_char c s + count_char c t)%nat.
Proof.
  induction s as [| a s IH]; simpl; [reflexivity |].
  rewrite IH. lia.
Qed.

Lemma count_a_dump (use_dump : bool) (dx dy : Z) :
  count_char "a" (track_stop_dump use_dump dx dy) = O.
Proof.
  unfold track_stop_dump.
  destruct use_dump, (Z.eqb dx 0), (Z.ltb 0 dy), (Z.ltb dx 0); reflexivity.
Qed.

Lemma count_a_friction (friction : Z) :
  count_char "a" (track_stop_friction friction)
  = labels_from friction friction_labels.
Proof.
  unfold track_stop_friction, friction_labels, labels_from.
  destruct (Z.eqb friction 10); [reflexivity |].
  destruct (Z.eqb friction 50); [reflexivity |].
  destruct (Z.eqb friction 500); [reflexivity |].
  destruct (Z.eqb friction 10000); reflexivity.
Qed.

Lemma track_stop_markers (bld : building) (use_dump : bool)
    (dx dy friction : Z) :
  dyn bld = building_trapst trap_type.TrackStop use_dump dx dy friction ->
  count_char "a" (get_trap_str bld) = labels_from friction friction_labels.
Proof.
  intros Hdyn. unfold get_trap_str, cache. rewrite Hdyn.
  rewrite !count_char_app, count_a_dump, count_a_friction. reflexivity.
Qed.

(** C3, as stated, fails: the track stop of friction 10000 carries one marker
    and the one of friction 10 carries four. *)
Lemma friction_markers_counterexample :
  let low := track_stop false 0 0 10 in
  let high := track_stop false 0 0 10000 in
  get_trap_str low = "CSaaaa" /\ get_trap_str high = "CSa"
  /\ ~ (count_char "a" (get_trap_str low)
        <= count_char "a" (get_trap_str high))%nat.
Proof.
  simpl. repeat split. vm_compute. lia.
Qed.

(** C3, amended.  The friction suffix of a track stop's token is built by the
    fall-through of the switch: it holds one marker 'a' for every case label
    from the one equal to the friction to the last one, that is four, three,
    two and one marker for the frictions 10, 50, 500 and 10000 and none for
    any other value; so, of two track stops whose frictions are among these
    four values, the one with the higher friction carries at most as many
    markers as the other, and fewer when the frictions differ. *)
Theorem friction_markers_fall_through
    (bld bld' : building) (use_dump use_dump' : bool)
    (dx dy friction dx' dy' friction' : Z) :
  dyn bld = building_trapst trap_type.TrackStop use_dump dx dy friction ->
  dyn bld' = building_trapst trap_type.TrackStop use_dump' dx' dy' friction' ->
  get_trap_str bld
  = "CS" ++ track_stop_dump use_dump dx dy
         ++ repeat_string "a" (labels_from friction friction_labels)
  /\ count_char "a" (get_trap_str bld)
     = (if Z.eqb friction 10 then 4
        else if Z.eqb friction 50 then 3
        else if Z.eqb friction 500 then 2
        else if Z.eqb friction 10000 then 1 else 0)%nat
  /\ (In friction friction_labels -> In friction' friction_labels ->
      friction < friction' ->
      (count_char "a" (get_trap_str bld')
       < count_char "a" (get_trap_str bld))%nat).
Proof.
  intros Hdyn Hdyn'. split; [| split].
  - unfold get_trap_str, cache. rewrite Hdyn.
    unfold track_stop_friction, friction_labels, labels_from.
    destruct (Z.eqb friction 10); [reflexivity |].
    destruct (Z.eqb friction 50); [reflexivity |].
    destruct (Z.eqb friction 500); [reflexivity |].
    destruct (Z.eqb friction 10000); reflexivity.
  - rewrite (track_stop_markers _ _ _ _ _ Hdyn).
    unfold friction_labels, labels_from.
    destruct (Z.eqb friction 10); [reflexivity |].
    destruct (Z.eqb friction 50); [reflexivity |].
    destruct (Z.eqb friction 500); [reflexivity |].
    destruct (Z.eqb friction 10000); reflexivity.
  - intros Hin Hin' Hlt.
    rewrite (track_stop_markers _ _ _ _ _ Hdyn).
    rewrite (track_stop_markers _ _ _ _ _ Hdyn').
    unfold friction_labels in *. simpl in Hin, Hin'.
    destruct Hin as [<- | [<- | [<- | [<- | []]]]];
      destruct Hin' as [<- | [<- | [<- | [<- | []]]]];
      try lia; vm_compute; lia.
Qed.

Lemma friction_markers_fall_through_witness :
  In 50 friction_labels /\ In 500 friction_labels /\ 50 < 500
  /\ (count_char "a" (get_trap_str (track_stop true 0 1 500))
      < count_char "a" (get_trap_str (track_stop false 0 0 50)))%nat.
Proof.
  assert (H50 : In 50 friction_labels) by (simpl; auto).
  assert (H500 : In 500 friction_labels) by (simpl; auto).
  repeat split; [exact H50 | exact H500 |].
  apply (proj2 (proj2 (friction_markers_fall_through
           (track_stop false 0 0 50) (track_stop true 0 1 500)
           false true 0 0 50 0 1 500 eq_refl eq_refl)));
    [exact H50 | exact H500 | lia].
Defined.

(** C4.  A track stop with a dump configured, an x-shift of 0, a positive
    y-shift and friction 500 is classified by the construction phase as
    "CSddaa", at whatever tile and in either layout. *)
Theorem track_stop_dump_south_friction_500
    (bld : building) (dy : Z) (pos : coord) (layout : bool) :
  getType bld = Trap ->
  dyn bld = building_trapst trap_type.TrackStop true 0 dy 500 ->
  0 < dy ->
  get_tile_build pos (mk_ctx layout (Some bld)) = Some "CSddaa".
Proof.
  intros Htype Hdyn Hdy.
  unfold get_tile_build, get_build_keys. simpl. rewrite Htype. simpl.
  unfold get_trap_str, cache, track_stop_dump, track_stop_friction.
  rewrite Hdyn.
  apply Z.ltb_lt in Hdy. rewrite Hdy. reflexivity.
Qed.

Lemma track_stop_dump_south_friction_500_witness :
  0 < 1
  /\ get_tile_build (mk_coord 4 4 0)
       (mk_ctx true (Some (track_stop true 0 1 500))) = Some "CSddaa".
Proof.
  split; [lia |].
  apply (track_stop_dump_south_friction_500 (track_stop true 0 1 500) 1);
    [reflexivity | reflexivity | lia].
Defined.

(** ** The continuation placeholder *)

(** C2, as stated, fails: on the 3x3 map with a mason's workshop the dense
    layout shows the eight other tiles of the workshop as backticks, not as
    blank cells, and the minimal layout shows them as empty cells, not as
    backticks. *)
Lemma placeholder_layout_counterexample :
  run_workshop "pretty" = workshop_result workshop_dense_text
  /\ run_workshop "minimal" = workshop_result workshop_minimal_text
  /\ fst (do_block_building (mk_ctx true (Some masons)) "wm" false false) <> ""
  /\ fst (do_block_building (mk_ctx true (Some masons)) "wm" false false) <> " "
  /\ fst (do_block_building (mk_ctx false (Some masons)) "wm" false false) <> "`".
Proof.
  repeat split; try (vm_compute; reflexivity); vm_compute; discriminate.
Qed.

(** *** The ordered maps *)

Lemma ordered_nil {V : Type} : Map16.ordered (@nil (Z * V)).
Proof. constructor. Qed.

Lemma ordered_inv {V : Type} (k : Z) (v : V) (m : Map16.t V) :
  Map16.ordered ((k, v) :: m) ->
  Map16.ordered m /\ Forall (fun j => k < j) (Map16.keys m).
Proof.
  unfold Map16.ordered. simpl. intros H. inversion H; subst. now split.
Qed.

Lemma find_above {V : Type} (k : Z) (m : Map16.t V) :
  Forall (fun j => k < j) (Map16.keys m) -> Map16.find k m = None.
Proof.
  induction m as [| [k' v] m IH]; simpl; intros H; [reflexivity |].
  inversion H; subst.
  destruct (Z.eqb_spec k k'); [lia | auto].
Qed.

Lemma upsert_keys_above {V : Type} (k j : Z) (d : V) (f : V -> V)
    (m : Map16.t V) :
  j < k -> Forall (fun i => j < i) (Map16.keys m) ->
  Forall (fun i => j < i) (Map16.keys (Map16.upsert k d f m)).
Proof.
  intros Hjk. induction m as [| [k' v] m IH]; simpl; intros H.
  - constructor; [exact Hjk | constructor].
  - inversion H; subst.
    destruct (Z.eqb k k'); simpl; [now constructor |].
    destruct (Z.ltb k k'); simpl; constructor; auto.
Qed.

Lemma upsert_ordered {V : Type} (k : Z) (d : V) (f : V -> V)
    (m : Map16.t V) :
  Map16.ordered m -> Map16.ordered (Map16.upsert k d f m).
Proof.
  induction m as [| [k' v] m IH]; simpl; intros H.
  - repeat constructor.
  - destruct (ordered_inv _ _ _ H) as [Hm Hall].
    destruct (Z.eqb_spec k k') as [-> | Hne].
    + exact H.
    + destruct (Z.ltb_spec k k') as [Hlt | Hge].
      * unfold Map16.ordered. simpl. constructor; [exact H |].
        constructor; [exact Hlt |].
        eapply Forall_impl; [| exact Hall]. simpl. intros; lia.
      * unfold Map16.ordered. simpl. constructor.
        -- apply IH, Hm.
        -- apply upsert_keys_above; [lia | exact Hall].
Qed.

Lemma find_upsert_same {V : Type} (k : Z) (d : V) (f : V -> V)
    (m : Map16.t V) :
  Map16.ordered m ->
  Map16.find k (Map16.upsert k d f m)
  = Some (f (match Map16.find k m with Some v => v | None => d end)).
Proof.
  induction m as [| [k' v] m IH]; simpl; intros H.
  - now rewrite Z.eqb_refl.
  - destruct (ordered_inv _ _ _ H) as [Hm Hall].
    destruct (Z.eqb k k') eqn:E; simpl.
    + now rewrite E.
    + destruct (Z.ltb_spec k k') as [Hlt | Hge]; simpl.
      * rewrite Z.eqb_refl. rewrite find_above; [reflexivity |].
        eapply Forall_impl; [| exact Hall]. simpl. intros; lia.
      * rewrite E. now apply IH.
Qed.

Lemma find_upsert_other {V : Type} (k j : Z) (d : V) (f : V -> V)
    (m : Map16.t V) :
  j <> k -> Map16.find j (Map16.upsert k d f m) = Map16.find j m.
Proof.
  intros Hjk. apply Z.eqb_neq in Hjk.
  induction m as [| [k' v] m IH]; simpl.
  - now rewrite Hjk.
  - destruct (Z.eqb k k') eqn:E; simpl.
    + apply Z.eqb_eq in E. subst k'. now rewrite Hjk.
    + destruct (Z.ltb k k'); simpl.
      * now rewrite Hjk.
      * now rewrite IH.
Qed.

(** C2, amended.  The continuation placeholder of a non-anchor tile is the
    backtick in the dense layout and the empty string in the minimal one:
    stored in a row, it is shown by the dense serializer as the cell "`", and
    the minimal serializer writes nothing for it beyond the separators that
    lead to its column. *)
Theorem placeholder_layout
    (ctx : tile_context) (s : string) (with_size : bool) :
  let token := fst (do_block_building ctx s false with_size) in
  token = (if pretty ctx then "`" else "")
  /\ (pretty ctx = true ->
      forall (x : Z) (row : bp_row),
        Map16.ordered row ->
        pretty_cell (Map16.find x (Map16.upsert x "" (fun _ => token) row))
        = "`")
  /\ (pretty ctx = false ->
      forall (xprev x : Z) (rest : bp_row),
        write_minimal_row xprev ((x, token) :: rest)
        = write_gap "," xprev x ++ write_minimal_row (Z.max xprev x) rest).
Proof.
  simpl. unfold if_pretty. repeat split.
  - intros Hp x row Hrow. rewrite find_upsert_same, Hp by exact Hrow.
    reflexivity.
  - intros Hp xprev x rest. rewrite Hp. reflexivity.
Qed.

Lemma placeholder_layout_witness :
  pretty (mk_ctx true (Some masons)) = true
  /\ Map16.ordered [(1, "wm")]
  /\ pretty_cell
       (Map16.find 2
          (Map16.upsert 2 ""
             (fun _ => fst (do_block_building (mk_ctx true (Some masons))
                              "wm" false false))
             [(1, "wm")])) = "`".
Proof.
  assert (Hrow : Map16.ordered [(1, "wm")]) by (repeat constructor).
  split; [reflexivity | split; [exact Hrow |]].
  apply (proj1 (proj2 (placeholder_layout (mk_ctx true (Some masons))
                         "wm" false))); [reflexivity | exact Hrow].
Defined.

(** ** Strings and counters *)

Lemma string_app_assoc (s t u : string) : (s ++ t) ++ u = s ++ t ++ u.
Proof. induction s as [| a s IH]; simpl; [reflexivity | now rewrite IH]. Qed.

Lemma string_app_nil_r (s : string) : s ++ "" = s.
Proof. induction s as [| a s IH]; simpl; [reflexivity | now rewrite IH]. Qed.

Lemma concat_strings_app (l l' : list string) :
  concat_strings (l ++ l')%list = concat_strings l ++ concat_strings l'.
Proof.
  induction l as [| s l IH]; simpl; [reflexivity |].
  now rewrite IH, string_app_assoc.
Qed.

Lemma repeat_string_snoc (s : string) (n : nat) :
  repeat_string s (S n) = repeat_string s n ++ s.
Proof.
  induction n as [| n IH]; [simpl; now rewrite string_app_nil_r |].
  change (repeat_string s (S (S n))) with (s ++ repeat_string s (S n)).
  rewrite IH at 1.
  change (repeat_string s (S n)) with (s ++ repeat_string s n).
  now rewrite string_app_assoc.
Qed.

Lemma counter_values_cons (from : Z) (n : nat) :
  counter_values from 1 (S n) = from :: counter_values (from + 1) 1 n.
Proof.
  unfold counter_values.
  change (seq 0 (S n)) with (O :: seq 1 n). rewrite map_cons.
  f_equal; [lia |].
  rewrite <- seq_shift, map_map. apply map_ext. intros i. lia.
Qed.

Lemma counter_values_app (from : Z) (n m : nat) :
  counter_values from 1 (n + m)
  = (counter_values from 1 n ++ counter_values (from + Z.of_nat n) 1 m)%list.
Proof.
  revert from. induction n as [| n IH]; intros from.
  - simpl. f_equal. lia.
  - change (S n + m)%nat with (S (n + m)).
    rewrite !counter_values_cons, IH. simpl. do 3 f_equal. lia.
Qed.

Lemma counter_values_length (from step : Z) (n : nat) :
  List.length (counter_values from step n) = n.
Proof. unfold counter_values. now rewrite length_map, length_seq. Qed.

Lemma counter_values_in (from : Z) (n : nat) (v : Z) :
  In v (counter_values from 1 n) <-> from <= v < from + Z.of_nat n.
Proof.
  unfold counter_values. rewrite in_map_iff. split.
  - intros [i [<- Hi]]. apply in_seq in Hi. lia.
  - intros H. exists (Z.to_nat (v - from)). split; [lia |].
    apply in_seq. lia.
Qed.

(** ** Rows of the minimal layout *)

Lemma last_key_ge {V : Type} (k : Z) (m : Map16.t V) :
  Map16.ordered m -> Forall (fun j => k < j) (Map16.keys m) ->
  k <= last_key k m.
Proof.
  revert k. induction m as [| [k' v] m IH]; simpl; intros k Hm Hall; [lia |].
  destruct (ordered_inv _ _ _ Hm) as [Hm' Hall'].
  inversion Hall; subst. specialize (IH k' Hm' Hall'). lia.
Qed.

Lemma minimal_row_tail (row : bp_row) :
  forall x : Z,
    Map16.ordered row -> Forall (fun j => x < j) (Map16.keys row) ->
    write_minimal_row x row
    = concat_strings
        (map (fun i => "," ++ minimal_cell row i)
           (counter_values (x + 1) 1 (Z.to_nat (last_key x row - x)))).
Proof.
  induction row as [| [x' tile] row IH]; intros x Hord Hall.
  - simpl. now rewrite Z.sub_diag.
  - destruct (ordered_inv _ _ _ Hord) as [Hord' Hall'].
    inversion Hall as [| ? ? Hlt Hrest]; subst. simpl in Hlt.
    pose proof (last_key_ge x' row Hord' Hall') as Hlast.
    simpl write_minimal_row. simpl last_key.
    rewrite Z.max_r by lia.
    replace (Z.to_nat (last_key x' row - x))
      with (Z.to_nat (x' - x - 1) + (1 + Z.to_nat (last_key x' row - x')))%nat
      by lia.
    rewrite !counter_values_app, !map_app, !concat_strings_app.
    rewrite (IH x' Hord' Hall').
    replace (x + 1 + Z.of_nat (Z.to_nat (x' - x - 1))) with x' by lia.
    replace (x' + Z.of_nat 1) with (x' + 1) by lia.
    unfold write_gap.
    replace (Z.to_nat (x' - x)) with (S (Z.to_nat (x' - x - 1))) by lia.
    rewrite repeat_string_snoc, !string_app_assoc.
    f_equal.
    + (* the columns before x' hold nothing *)
      assert (Hgap : forall (n : nat) (a : Z),
                 a + Z.of_nat n <= x' ->
                 concat_strings
                   (map (fun i => "," ++ minimal_cell ((x', tile) :: row) i)
                      (counter_values a 1 n))
                 = repeat_string "," n).
      { induction n as [| n IHn]; intros a Ha; [reflexivity |].
        rewrite counter_values_cons. simpl map. simpl concat_strings.
        rewrite IHn by lia.
        unfold minimal_cell. simpl.
        destruct (Z.eqb_spec a x'); [lia |].
        rewrite find_above; [reflexivity |].
        eapply Forall_impl; [| exact Hall']. simpl. intros; lia. }
      symmetry. apply Hgap. lia.
    + rewrite (counter_values_cons x' 0).
      change (counter_values (x' + 1) 1 0) with (@nil Z).
      cbn [map concat_strings].
      rewrite string_app_nil_r, string_app_assoc.
      assert (Hcell : minimal_cell ((x', tile) :: row) x' = tile).
      { unfold minimal_cell. cbn [Map16.find]. now rewrite Z.eqb_refl. }
      rewrite Hcell. do 3 f_equal.
      apply map_ext_in. intros i Hi. apply counter_values_in in Hi.
      unfold minimal_cell. simpl.
      destruct (Z.eqb_spec i x'); [lia | reflexivity].
Qed.

Lemma join_with_cons (sep s : string) (l : list string) :
  join_with sep (s :: l) = s ++ concat_strings (map (fun t => sep ++ t) l).
Proof.
  revert s. induction l as [| t l IH]; intros s.
  - simpl. now rewrite string_app_nil_r.
  - change (join_with sep (s :: t :: l)) with (s ++ sep ++ join_with sep (t :: l)).
    rewrite IH. simpl. now rewrite string_app_assoc.
Qed.

(** The line of a row in the minimal layout: its cells from column 0 to the
    last recorded column, separated by commas. *)
Lemma minimal_row_positions (row : bp_row) :
  Map16.ordered row -> Forall (fun j => 0 <= j) (Map16.keys row) ->
  write_minimal_row 0 row = join_with "," (minimal_cells row).
Proof.
  intros Hord Hall. destruct row as [| [x0 t0] row]; [reflexivity |].
  destruct (ordered_inv _ _ _ Hord) as [Hord' Hall'].
  inversion Hall as [| ? ? H0 _]; subst. simpl in H0.
  pose proof (last_key_ge x0 row Hord' Hall') as Hlast.
  unfold minimal_cells. cbn [last_key].
  replace (Z.to_nat (last_key x0 row + 1))
    with (S (Z.to_nat (last_key x0 row))) by lia.
  rewrite counter_values_cons. cbn [map]. rewrite join_with_cons, map_map.
  replace (0 + 1) with 1 by lia.
  destruct (Z.eqb_spec x0 0) as [-> | Hne].
  - cbn [write_minimal_row]. unfold write_gap. simpl repeat_string.
    rewrite Z.max_id.
    rewrite (minimal_row_tail row 0 Hord' Hall').
    replace (last_key 0 row - 0) with (last_key 0 row) by lia.
    unfold minimal_cell at 2. cbn [Map16.find]. rewrite Z.eqb_refl.
    simpl append at 1. f_equal. f_equal.
    apply map_ext_in. intros i Hi. apply counter_values_in in Hi.
    unfold minimal_cell. cbn [Map16.find].
    destruct (Z.eqb_spec i 0); [lia | reflexivity].
  - assert (Hall0 : Forall (fun j => 0 < j) (Map16.keys ((x0, t0) :: row))).
    { simpl. constructor; [lia |].
      eapply Forall_impl; [| exact Hall']. simpl. intros; lia. }
    rewrite (minimal_row_tail _ 0 Hord Hall0). cbn [last_key].
    replace (last_key x0 row - 0) with (last_key x0 row) by lia.
    replace (0 + 1) with 1 by lia.
    unfold minimal_cell at 2. rewrite (find_above 0 _ Hall0).
    reflexivity.
Qed.

Lemma find_some_in {V : Type} (k : Z) (v : V) (m : Map16.t V) :
  Map16.find k m = Some v -> In k (Map16.keys m).
Proof.
  induction m as [| [k' v'] m IH]; simpl; [discriminate |].
  destruct (Z.eqb_spec k k'); auto.
Qed.

Lemma last_key_max {V : Type} (d k : Z) (m : Map16.t V) :
  Map16.ordered m -> In k (Map16.keys m) -> k <= last_key d m.
Proof.
  revert d. induction m as [| [k' v] m IH]; simpl; intros d Hm Hin; [easy |].
  destruct (ordered_inv _ _ _ Hm) as [Hm' Hall'].
  destruct Hin as [-> | Hin].
  - apply last_key_ge; assumption.
  - now apply IH.
Qed.

Lemma counter_values_nth (from : Z) (n i : nat) :
  (i < n)%nat ->
  nth_error (counter_values from 1 n) i = Some (from + Z.of_nat i).
Proof.
  intros Hi. unfold counter_values.
  rewrite nth_error_map, nth_error_seq.
  destruct (Nat.ltb_spec i n); [| lia]. cbn [option_map Nat.add].
  f_equal. lia.
Qed.

(** ** Anchored buildings *)

(** The construction classifier on a multi-tile kind, at any tile. *)
Lemma get_tile_build_anchored (bld : building) (a : anchor) (pos : coord)
    (layout : bool) :
  designated_anchor (getType bld) = Some a ->
  get_tile_build pos (mk_ctx layout (Some bld))
  = Some (if at_tile (anchor_tile a bld) pos then
            if carries_size (getType bld)
            then add_expansion_syntax bld (Some (descriptor bld))
            else descriptor bld
          else if_pretty (mk_ctx layout (Some bld)) "`").
Proof.
  intros Ha.
  unfold get_tile_build, get_build_keys, descriptor, at_tile.
  cbn [b].
  destruct (getType bld) eqn:Htype; cbn in Ha; try discriminate Ha;
    injection Ha as <-; cbn [is_stockpile carries_size anchor_tile fst snd];
    unfold do_block_building;
    match goal with
    | |- context [negb (?p && ?q)] => destruct (p && q)
    end; reflexivity.
Qed.

Lemma add_expansion_syntax_size (bld : building) (keys : string) :
  well_formed bld ->
  add_expansion_syntax bld (Some keys)
  = keys ++ "(" ++ show_unsigned (footprint_width bld) ++ "x"
         ++ show_unsigned (footprint_height bld) ++ ")".
Proof.
  intros (Hx0 & Hx & Hx2 & Hy0 & Hy & Hy2 & _).
  unfold add_expansion_syntax, get_building_size, cache,
    footprint_width, footprint_height.
  cbn [fst snd]. rewrite !to_uint32_id by lia. reflexivity.
Qed.

Lemma get_tile_build_full_token (bld : building) (a : anchor) (pos : coord)
    (layout : bool) :
  designated_anchor (getType bld) = Some a -> well_formed bld ->
  get_tile_build pos (mk_ctx layout (Some bld))
  = Some (if at_tile (anchor_tile a bld) pos then full_token bld
          else if_pretty (mk_ctx layout (Some bld)) "`").
Proof.
  intros Ha Hwf. rewrite (get_tile_build_anchored bld a pos layout Ha).
  unfold full_token.
  destruct (carries_size (getType bld));
    [rewrite add_expansion_syntax_size by exact Hwf |]; reflexivity.
Qed.

Lemma upsert_forall {V : Type} (P : V -> Prop) (k : Z) (d : V)
    (f : V -> V) (m : Map16.t V) :
  P (f d) -> (forall v, P v -> P (f v)) ->
  Forall (fun e => P (snd e)) m ->
  Forall (fun e => P (snd e)) (Map16.upsert k d f m).
Proof.
  intros Hd Hf. induction m as [| [k' v] m IH]; intros Hall.
  - constructor; [exact Hd | constructor].
  - inversion Hall as [| ? ? Hv Hrest]; subst. cbn [Map16.upsert].
    destruct (Z.eqb k k'); [constructor; [apply Hf, Hv | exact Hrest] |].
    destruct (Z.ltb k k'); constructor; auto.
Qed.

Lemma find_forall {V : Type} (P : V -> Prop) (k : Z) (d : V)
    (m : Map16.t V) :
  P d -> Forall (fun e => P (snd e)) m ->
  P (match Map16.find k m with Some v => v | None => d end).
Proof.
  intros Hd. induction m as [| [k' v] m IH]; intros Hall; [exact Hd |].
  inversion Hall; subst. cbn [Map16.find].
  destruct (Z.eqb k k'); auto.
Qed.

Lemma area_ok_nil : area_ok NEW_AREA.
Proof. split; constructor. Qed.

Lemma upsert_row_ok (y x : Z) (tile : string) (area : bp_area) :
  area_ok area ->
  area_ok (Map16.upsert y NEW_ROW (Map16.upsert x "" (fun _ => tile)) area).
Proof.
  intros [Hord Hrows]. split; [now apply upsert_ordered |].
  apply (upsert_forall (fun row : bp_row => Map16.ordered row)).
  - apply upsert_ordered, ordered_nil.
  - intros row Hrow. now apply upsert_ordered.
  - exact Hrows.
Qed.

(** The volume after a token is stored. *)
Lemma record_tile_ok (zk yk xk : Z) (tile : string) (vol : bp_volume) :
  volume_ok vol -> volume_ok (record_tile zk yk xk tile vol).
Proof.
  intros [Hord Hall]. unfold record_tile.
  split; [now apply upsert_ordered |].
  apply (upsert_forall area_ok).
  - apply upsert_row_ok, area_ok_nil.
  - intros area. apply upsert_row_ok.
  - exact Hall.
Qed.

Lemma lookup_record_same (zk yk xk : Z) (tile : string) (vol : bp_volume) :
  volume_ok vol ->
  lookup_tile (Int.to_int16 zk) (Int.to_int16 yk) (Int.to_int16 xk)
    (record_tile zk yk xk tile vol) = Some tile.
Proof.
  intros [Hord Hall]. unfold lookup_tile, record_tile.
  rewrite find_upsert_same by exact Hord.
  pose proof (find_forall area_ok (Int.to_int16 zk) NEW_AREA vol
                area_ok_nil Hall) as [Hao Hrows].
  rewrite find_upsert_same by exact Hao.
  rewrite find_upsert_same; [reflexivity |].
  apply (find_forall (fun row : bp_row => Map16.ordered row));
    [apply ordered_nil | exact Hrows].
Qed.

(** ** One anchor per footprint *)

Lemma count_counter_value (a from : Z) (n : nat) :
  List.length (filter (fun v => Z.eqb v a) (counter_values from 1 n))
  = if Z.leb from a && Z.ltb a (from + Z.of_nat n) then 1%nat else 0%nat.
Proof.
  revert from. induction n as [| n IH]; intros from.
  - simpl. destruct (Z.leb_spec from a), (Z.ltb_spec a (from + 0));
      simpl; try reflexivity; lia.
  - rewrite counter_values_cons. cbn [filter]. 
    destruct (Z.eqb_spec from a) as [-> | Hne]; cbn [List.length]; rewrite IH.
    + destruct (Z.leb_spec (a + 1) a); [lia |].
      destruct (Z.leb_spec a a); [| lia].
      destruct (Z.ltb_spec a (a + Z.of_nat (S n))); [| lia]. reflexivity.
    + destruct (Z.leb_spec (from + 1) a), (Z.leb_spec from a),
        (Z.ltb_spec a (from + 1 + Z.of_nat n)),
        (Z.ltb_spec a (from + Z.of_nat (S n)));
        simpl; try reflexivity; lia.
Qed.

Lemma count_row_tile (xy : Z * Z) (y z : Z) (xs : list Z) :
  List.length (filter (at_tile xy) (map (fun x => mk_coord x y z) xs))
  = if Z.eqb y (snd xy)
    then List.length (filter (fun v => Z.eqb v (fst xy)) xs)
    else 0%nat.
Proof.
  induction xs as [| x xs IH]; cbn [map filter].
  - now destruct (Z.eqb y (snd xy)).
  - unfold at_tile at 1. cbn [pos_x pos_y].
    destruct (Z.eqb y (snd xy)) eqn:Ey.
    + rewrite andb_true_r. destruct (Z.eqb x (fst xy)); cbn [List.length];
        now rewrite IH.
    + rewrite andb_false_r. exact IH.
Qed.

Lemma count_grid_tile (xy : Z * Z) (z : Z) (xs : list Z) (from : Z) (n : nat) :
  List.length
    (filter (at_tile xy)
       (flat_map (fun y => map (fun x => mk_coord x y z) xs)
          (counter_values from 1 n)))
  = if Z.leb from (snd xy) && Z.ltb (snd xy) (from + Z.of_nat n)
    then List.length (filter (fun v => Z.eqb v (fst xy)) xs)
    else 0%nat.
Proof.
  revert from. induction n as [| n IH]; intros from.
  - simpl. destruct (Z.leb_spec from (snd xy)),
      (Z.ltb_spec (snd xy) (from + 0)); simpl; try reflexivity; lia.
  - rewrite counter_values_cons. cbn [flat_map].
    rewrite filter_app, length_app, count_row_tile, IH.
    destruct (Z.eqb_spec from (snd xy)) as [-> | Hne].
    + destruct (Z.leb_spec (snd xy + 1) (snd xy)); [lia |].
      destruct (Z.leb_spec (snd xy) (snd xy)); [| lia].
      destruct (Z.ltb_spec (snd xy) (snd xy + Z.of_nat (S n))); [| lia].
      simpl. lia.
    + destruct (Z.leb_spec (from + 1) (snd xy)), (Z.leb_spec from (snd xy)),
        (Z.ltb_spec (snd xy) (from + 1 + Z.of_nat n)),
        (Z.ltb_spec (snd xy) (from + Z.of_nat (S n)));
        simpl; try reflexivity; lia.
Qed.

Lemma footprint_length (bld : building) (z : Z) :
  well_formed bld ->
  Z.of_nat (List.length (footprint bld z))
  = footprint_width bld * footprint_height bld.
Proof.
  intros (Hx0 & Hx & _ & Hy0 & Hy & _).
  unfold footprint.
  assert (Hlen : forall (xs ys : list Z),
             List.length
               (flat_map (fun y => map (fun x => mk_coord x y z) xs) ys)
             = (List.length ys * List.length xs)%nat).
  { intros xs ys. induction ys as [| y ys IH]; [reflexivity |].
    cbn [flat_map]. rewrite length_app, length_map, IH. simpl. lia. }
  rewrite Hlen, !counter_values_length.
  unfold footprint_width, footprint_height in *. nia.
Qed.

Lemma anchor_count (bld : building) (a : anchor) (z : Z) :
  well_formed bld ->
  List.length (filter (at_tile (anchor_tile a bld)) (footprint bld z)) = 1%nat.
Proof.
  intros (Hx0 & Hx & _ & Hy0 & Hy & _ & Hcx & Hcy).
  unfold footprint. rewrite count_grid_tile, count_counter_value.
  unfold footprint_width, footprint_height.
  rewrite !Z2Nat.id by lia.
  destruct a; cbn [anchor_tile fst snd];
    repeat match goal with
           | |- context [Z.leb ?p ?q] => destruct (Z.leb_spec p q); [| lia]
           | |- context [Z.ltb ?p ?q] => destruct (Z.ltb_spec p q); [| lia]
           end; reflexivity.
Qed.

(** The full token of a multi-tile building is neither of the placeholders. *)
Lemma full_token_not_placeholder (bld : building) (a : anchor) (layout : bool) :
  designated_anchor (getType bld) = Some a ->
  String.eqb (if_pretty (mk_ctx layout (Some bld)) "`") (full_token bld) = false.
Proof.
  intros Ha. apply String.eqb_neq.
  unfold full_token, descriptor, if_pretty. cbn [pretty].
  unfold get_bridge_str, get_siege_str, get_workshop_str, get_furnace_str,
    get_screw_pump_str, get_water_wheel_str, get_axle_str, get_roller_str.
  destruct (getType bld); cbn in Ha; try discriminate Ha;
    cbn [carries_size]; destruct layout;
    repeat match goal with
           | |- context [match ?t with _ => _ end] => destruct t
           end; cbn [append]; discriminate.
Qed.

Lemma anchor_in_footprint (bld : building) (a : anchor) (z : Z) :
  well_formed bld ->
  In (mk_coord (fst (anchor_tile a bld)) (snd (anchor_tile a bld)) z)
     (footprint bld z).
Proof.
  intros (Hx0 & Hx & _ & Hy0 & Hy & _ & Hcx & Hcy).
  unfold footprint. apply in_flat_map.
  exists (snd (anchor_tile a bld)). split.
  - apply counter_values_in. unfold footprint_height.
    destruct a; cbn [anchor_tile snd]; lia.
  - apply in_map_iff. exists (fst (anchor_tile a bld)).
    split; [reflexivity |].
    apply counter_values_in. unfold footprint_width.
    destruct a; cbn [anchor_tile fst]; lia.
Qed.

(** C1.  For a building of a multi-tile kind whose footprint is w x h tiles,
    the construction classifier gives, at every tile of the footprint, the
    full token if the tile is the anchor designated for the kind (north-west
    corner for farm plots, roads, bridges, horizontal axles and rollers;
    centre for workshops, furnaces, siege engines, trade depots, shops, water
    wheels and windmills; south-east corner for screw pumps) and the
    continuation placeholder otherwise; the anchor is a tile of the
    footprint; of the w*h tiles exactly one gets the full token and w*h - 1
    get the placeholder; and when w = h = 1 the only tile gets the full
    token. *)
Theorem one_full_token_per_footprint
    (bld : building) (a : anchor) (layout : bool) (z : Z) :
  designated_anchor (getType bld) = Some a ->
  well_formed bld ->
  let ctx := mk_ctx layout (Some bld) in
  let tiles := footprint bld z in
  let w := footprint_width bld in
  let h := footprint_height bld in
  (forall pos : coord,
      In pos tiles ->
      get_tile_build pos ctx
      = Some (if at_tile (anchor_tile a bld) pos then full_token bld
              else if_pretty ctx "`"))
  /\ In (mk_coord (fst (anchor_tile a bld)) (snd (anchor_tile a bld)) z) tiles
  /\ Z.of_nat (List.length tiles) = w * h
  /\ List.length (filter (build_token_is ctx (full_token bld)) tiles) = 1%nat
  /\ Z.of_nat
       (List.length (filter (build_token_is ctx (if_pretty ctx "`")) tiles))
     = w * h - 1
  /\ (w = 1 -> h = 1 ->
      tiles = [mk_coord (x1 bld) (y1 bld) z]
      /\ get_tile_build (mk_coord (x1 bld) (y1 bld) z) ctx
         = Some (full_token bld)).
Proof.
  intros Ha Hwf ctx tiles w h.
  pose proof (full_token_not_placeholder bld a layout Ha) as Hne.
  fold ctx in Hne.
  assert (Hfull : forall pos,
             build_token_is ctx (full_token bld) pos
             = at_tile (anchor_tile a bld) pos).
  { intros pos. unfold build_token_is, ctx.
    rewrite (get_tile_build_full_token bld a pos layout Ha Hwf). fold ctx.
    destruct (at_tile (anchor_tile a bld) pos);
      [apply String.eqb_refl | exact Hne]. }
  assert (Hrest : forall pos,
             build_token_is ctx (if_pretty ctx "`") pos
             = negb (at_tile (anchor_tile a bld) pos)).
  { intros pos. unfold build_token_is, ctx.
    rewrite (get_tile_build_full_token bld a pos layout Ha Hwf). fold ctx.
    destruct (at_tile (anchor_tile a bld) pos); cbn [negb];
      [rewrite String.eqb_sym; exact Hne | apply String.eqb_refl]. }
  pose proof (anchor_count bld a z Hwf) as Hcount. fold tiles in Hcount.
  pose proof (footprint_length bld z Hwf) as Hlen.
  fold tiles w h in Hlen.
  repeat split.
  - intros pos _. apply (get_tile_build_full_token bld a pos layout Ha Hwf).
  - apply anchor_in_footprint, Hwf.
  - exact Hlen.
  - rewrite (filter_ext _ _ Hfull). exact Hcount.
  - rewrite (filter_ext _ _ Hrest).
    pose proof (filter_length (at_tile (anchor_tile a bld)) tiles). lia.
  - unfold tiles, footprint. fold w h. rewrite H, H0.
    change (Z.to_nat 1) with 1%nat.
    rewrite !(counter_values_cons _ 0). reflexivity.
  - unfold ctx.
    rewrite (get_tile_build_full_token bld a _ layout Ha Hwf).
    destruct Hwf as (Hx0 & Hx & _ & Hy0 & Hy & _ & Hcx & Hcy).
    unfold w, h, footprint_width, footprint_height in *.
    unfold at_tile. cbn [pos_x pos_y].
    replace (fst (anchor_tile a bld)) with (x1 bld)
      by (destruct a; cbn [anchor_tile fst]; lia).
    replace (snd (anchor_tile a bld)) with (y1 bld)
      by (destruct a; cbn [anchor_tile snd]; lia).
    now rewrite !Z.eqb_refl.
Qed.

Lemma one_full_token_per_footprint_witness :
  designated_anchor (getType masons) = Some centre
  /\ well_formed masons
  /\ get_tile_build (mk_coord 1 1 0) (mk_ctx true (Some masons)) = Some "wm"
  /\ List.length
       (filter (build_token_is (mk_ctx true (Some masons)) (full_token masons))
          (footprint masons 0)) = 1%nat
  /\ Z.of_nat
       (List.length
          (filter (build_token_is (mk_ctx true (Some masons))
                     (if_pretty (mk_ctx true (Some masons)) "`"))
             (footprint masons 0))) = 3 * 3 - 1.
Proof.
  assert (Hwf : well_formed masons) by (unfold well_formed; simpl; lia).
  destruct (one_full_token_per_footprint masons centre true 0 eq_refl Hwf)
    as (Htok & Hin & _ & Hone & Hrest & _).
  split; [reflexivity |].
  split; [exact Hwf |].
  split; [exact (Htok (mk_coord 1 1 0) Hin) |].
  split; [exact Hone | exact Hrest].
Defined.

(** ** Dense layout *)

(** A loop on a 16-bit counter whose bound fits 16 bits runs its body for
    every value from the first one up to the bound, given that much fuel. *)
Lemma for_int16_runs (body : Z -> option string) (f : Z -> string)
    (bound : Z) :
  bound <= 32767 ->
  forall (k fuel : nat) (i : Z),
    0 <= i -> i + Z.of_nat k = Z.max i bound -> (k <= fuel)%nat ->
    (forall j, i <= j < bound -> body j = Some (f j)) ->
    for_int16 fuel i bound body
    = Some (concat_strings (map f (counter_values i 1 k))).
Proof.
  intros Hbound. induction k as [| k IH]; intros fuel i Hi Hk Hfuel Hbody.
  - destruct fuel; cbn [for_int16];
      destruct (Z.ltb_spec i bound); try lia; reflexivity.
  - destruct fuel as [| fuel]; [lia |]. cbn [for_int16].
    destruct (Z.ltb_spec i bound); [| lia].
    rewrite Hbody by lia.
    rewrite to_int16_id by (unfold Int.int16_range; lia).
    rewrite (IH fuel (i + 1)); try lia.
    + rewrite counter_values_cons. reflexivity.
    + intros j Hj. apply Hbody. lia.
Qed.

(** With a bound beyond the 16-bit range the counter wraps before it reaches
    the bound: no amount of fuel lets the loop end. *)
Lemma for_int16_never_ends (body : Z -> option string) (bound : Z) :
  32767 < bound ->
  forall (fuel : nat) (i : Z),
    Int.int16_range i -> for_int16 fuel i bound body = None.
Proof.
  intros Hbound. induction fuel as [| fuel IH]; intros i Hi;
    unfold Int.int16_range in Hi; cbn [for_int16];
    destruct (Z.ltb_spec i bound); try lia; [reflexivity |].
  destruct (body i); [| reflexivity].
  now rewrite IH by apply to_int16_range.
Qed.

Lemma join_layers (sep : string) (f : Z -> string) (last : Z) :
  forall (k : nat) (i : Z),
    i + Z.of_nat k = last + 1 ->
    concat_strings
      (map (fun z => f z ++ (if Z.ltb z last then sep else ""))
         (counter_values i 1 k))
    = join_with sep (map f (counter_values i 1 k)).
Proof.
  induction k as [| k IH]; intros i Hi; [reflexivity |].
  rewrite counter_values_cons. cbn [map concat_strings].
  rewrite (IH (i + 1)) by lia.
  destruct k as [| k].
  - cbn. destruct (Z.ltb_spec i last); [lia |].
    now rewrite !string_app_nil_r.
  - destruct (Z.ltb_spec i last); [| lia].
    rewrite counter_values_cons. cbn [map join_with].
    now rewrite string_app_assoc.
Qed.


Lemma lookup_tile_unfold (z y x : Z) (vol : bp_volume) :
  match
    match Map16.find z vol with
    | Some a => Map16.find y a
    | None => None
    end
  with
  | Some r => Map16.find x r
  | None => None
  end = lookup_tile z y x vol.
Proof.
  unfold lookup_tile. destruct (Map16.find z vol) as [a |]; [| reflexivity].
  now destruct (Map16.find y a).
Qed.



(** The text of the dense layout for two layers of 2x1 tiles. *)
Example write_pretty_two_layers :
  write_pretty 2 two_layer_options [(1, [(0, [(1, "d")])])]
  = Some (" , ,#" ++ endl ++ "#>" ++ endl ++ " ,d,#" ++ endl).
Proof. reflexivity. Qed.

(** ** No phase selected *)

(** C9.  When no phase is selected (dig, build, place and query off and no
    auto-detection) the run returns failure after printing one error line,
    before anything else: no directory is created, no file is created or
    written and no stream is opened; the list of file names is returned as
    it was. *)
Theorem no_phase_fails_before_io
    (w : world) (h : host) (fuel : nat) (start end_ : coord)
    (opts : blueprint_options) (filenames : list string) (s : io) :
  auto_phase opts = false ->
  dig opts = false -> build opts = false ->
  place opts = false -> query opts = false ->
  exists s' : io,
    do_transform w h fuel start end_ opts filenames s
    = Some (false, filenames, s')
    /\ printed_errors s'
       = (printed_errors s
          ++ [("no phases requested! nothing to do!" ++ endl)%string])%list
    /\ directories s' = directories s
    /\ disk s' = disk s
    /\ open_streams s' = open_streams s.
Proof.
  intros Hauto Hdig Hbuild Hplace Hquery.
  unfold do_transform, selected_processors.
  rewrite Hauto, Hdig, Hbuild, Hplace, Hquery. cbn.
  eexists. split; [reflexivity |]. cbn. repeat split.
Qed.

Lemma no_phase_fails_before_io_witness :
  auto_phase no_phase_options = false
  /\ exists s' : io,
       do_transform workshop_world csv_host 3 (mk_coord 0 0 0)
         (mk_coord 3 3 1) no_phase_options [] empty_io
       = Some (false, [], s')
       /\ printed_errors s'
          = (printed_errors empty_io
             ++ [("no phases requested! nothing to do!" ++ endl)%string])%list
       /\ directories s' = directories empty_io
       /\ disk s' = disk empty_io
       /\ open_streams s' = open_streams empty_io.
Proof.
  split; [reflexivity |].
  apply (no_phase_fails_before_io workshop_world csv_host 3 (mk_coord 0 0 0)
           (mk_coord 3 3 1) no_phase_options [] empty_io);
    reflexivity.
Defined.

(** ** Streams left open *)

(** C8 does not hold of the code: with the dig and build phases selected and
    a host that resolves the file name of the first phase only, the run
    returns failure while the stream opened for the dig phase is still
    open. *)
Theorem failed_write_leaves_stream_open :
  exists s' : io,
    do_transform workshop_world failing_host 3 (mk_coord 0 0 0)
      (mk_coord 3 3 1) dig_build_options [] empty_io
    = Some (false, [], s')
    /\ open_streams empty_io = []
    /\ open_streams s' = ["blueprints/ws-dig.csv"]
    /\ printed_errors s'
       = ["Failed to retrieve filename from get_filename" ++ endl].
Proof.
  eexists. split; [vm_compute; reflexivity |]. repeat split.
Qed.

(** On the path where every file name is resolved the streams are closed. *)
Example successful_run_closes_streams :
  exists s' : io,
    do_transform workshop_world csv_host 3 (mk_coord 0 0 0)
      (mk_coord 3 3 1) dig_build_options [] empty_io
    = Some (true, ["blueprints/ws-build.csv"; "blueprints/ws-dig.csv"], s')
    /\ open_streams s' = [].
Proof.
  eexists. split; [vm_compute; reflexivity |]. reflexivity.
Qed.

(** ** The scan *)

Lemma fold_left_flat_map {A B C : Type} (f : A -> C -> A) (g : B -> list C)
    (l : list B) (a : A) :
  fold_left f (flat_map g l) a
  = fold_left (fun acc x => fold_left f (g x) acc) l a.
Proof.
  revert a. induction l as [| x l IH]; intros a; [reflexivity |].
  cbn [flat_map fold_left]. now rewrite fold_left_app, IH.
Qed.

Lemma fold_left_map {A B C : Type} (f : A -> C -> A) (g : B -> C)
    (l : list B) (a : A) :
  fold_left f (map g l) a = fold_left (fun acc x => f acc (g x)) l a.
Proof.
  revert a. induction l as [| x l IH]; intros a; [reflexivity |].
  cbn [map fold_left]. now rewrite IH.
Qed.

Lemma fold_left_equal {A B : Type} (f g : A -> B -> A) (l : list B) (a : A) :
  (forall acc x, In x l -> f acc x = g acc x) ->
  fold_left f l a = fold_left g l a.
Proof.
  revert a. induction l as [| x l IH]; intros a Hfg; [reflexivity |].
  cbn [fold_left]. rewrite Hfg by now left.
  apply IH. intros acc y Hy. apply Hfg. now right.
Qed.

(** The three loops visit the tiles of [scan_tiles] one after the other. *)
Lemma scan_tile_by_tile (pretty : bool) (start end_ : coord)
    (processors : list blueprint_processor) :
  scan pretty start end_ processors
  = fold_left (scan_step pretty start) (scan_tiles start end_) processors.
Proof.
  unfold scan, scan_tiles. rewrite fold_left_flat_map.
  apply fold_left_equal. intros procs z _.
  rewrite fold_left_flat_map. apply fold_left_equal. intros procs' y _.
  rewrite fold_left_map. reflexivity.
Qed.

Lemma context_for_process_tile (pos pos' : coord) (zk yk xk : Z)
    (processors : list blueprint_processor) :
  forall (ctx ctx' : tile_context) (i : nat),
    context_for pos' ctx' (process_tile pos zk yk xk ctx processors) i
    = context_for pos' ctx' processors i.
Proof.
  induction processors as [| p rest IH]; intros ctx ctx' i; [reflexivity |].
  cbn [process_tile context_for].
  assert (Hinit : init_ctx
                    (match get_tile p pos
                             (match init_ctx p with
                              | Some init => init pos ctx
                              | None => ctx
                              end) with
                     | Some tile_str =>
                         set_mapdata p
                           (record_tile zk yk xk tile_str (mapdata p))
                     | None => p
                     end) = init_ctx p).
  { destruct (get_tile p pos _); reflexivity. }
  rewrite Hinit. destruct i as [| i]; [reflexivity | apply IH].
Qed.

Lemma process_tile_nth (pos : coord) (zk yk xk : Z)
    (processors : list blueprint_processor) :
  forall (ctx : tile_context) (i : nat) (p : blueprint_processor),
    nth_error processors i = Some p ->
    nth_error (process_tile pos zk yk xk ctx processors) i
    = Some (match get_tile p pos (context_for pos ctx processors i) with
            | Some tile_str =>
                set_mapdata p (record_tile zk yk xk tile_str (mapdata p))
            | None => p
            end).
Proof.
  induction processors as [| q rest IH]; intros ctx i p Hnth.
  - destruct i; discriminate Hnth.
  - destruct i as [| i]; cbn [process_tile context_for nth_error] in *.
    + injection Hnth as <-. reflexivity.
    + now apply IH.
Qed.

(** The processor at index [i] after a run of tiles: its volume is the one
    the tiles' tokens build up, the rest of it is unchanged. *)
Lemma scan_steps_nth (pretty : bool) (start : coord) (tiles : list (Z * Z * Z)) :
  forall (processors : list blueprint_processor) (i : nat)
         (p : blueprint_processor),
    nth_error processors i = Some p ->
    nth_error (fold_left (scan_step pretty start) tiles processors) i
    = Some (set_mapdata p
              (fold_left (store start (token_at pretty processors i p))
                 tiles (mapdata p))).
Proof.
  induction tiles as [| [[x y] z] tiles IH]; intros processors i p Hnth.
  - cbn [fold_left]. rewrite Hnth. now destruct p.
  - cbn [fold_left].
    pose proof (process_tile_nth (make_coord x y z) (Z.abs (z - pos_z start))
                  (y - pos_y start) (x - pos_x start) processors
                  (mk_ctx pretty None) i p Hnth) as Hstep.
    fold (scan_step pretty start processors (x, y, z)) in Hstep.
    rewrite (IH _ i _ Hstep).
    assert (Htok : forall q t,
               get_tile q = get_tile p ->
               token_at pretty (scan_step pretty start processors (x, y, z))
                 i q t
               = token_at pretty processors i p t).
    { intros q [[x' y'] z'] Hq. unfold token_at, scan_step.
      now rewrite context_for_process_tile, Hq. }
    assert (Hstore : forall q vol,
               get_tile q = get_tile p ->
               fold_left
                 (store start
                    (token_at pretty
                       (scan_step pretty start processors (x, y, z)) i q))
                 tiles vol
               = fold_left (store start (token_at pretty processors i p))
                   tiles vol).
    { intros q vol Hq. apply fold_left_equal. intros acc [[x' y'] z'] _.
      unfold store. now rewrite (Htok q _ Hq). }
    f_equal.
    change (store start (token_at pretty processors i p) (mapdata p) (x, y, z))
      with (match get_tile p (make_coord x y z)
                    (context_for (make_coord x y z) (mk_ctx pretty None)
                       processors i) with
            | Some tile_str =>
                record_tile (Z.abs (z - pos_z start)) (y - pos_y start)
                  (x - pos_x start) tile_str (mapdata p)
            | None => mapdata p
            end).
    destruct (get_tile p (make_coord x y z)
                (context_for (make_coord x y z) (mk_ctx pretty None)
                   processors i)) as [tile_str |].
    + rewrite Hstore by reflexivity. reflexivity.
    + rewrite Hstore by reflexivity. reflexivity.
Qed.

Lemma lookup_record_other (zk yk xk z y x : Z) (tile : string)
    (vol : bp_volume) :
  volume_ok vol ->
  (z, y, x) <> (Int.to_int16 zk, Int.to_int16 yk, Int.to_int16 xk) ->
  lookup_tile z y x (record_tile zk yk xk tile vol) = lookup_tile z y x vol.
Proof.
  intros [Hord Hall] Hne. unfold lookup_tile, record_tile.
  destruct (Z.eq_dec z (Int.to_int16 zk)) as [-> | Hz];
    [| now rewrite find_upsert_other].
  rewrite find_upsert_same by exact Hord.
  pose proof (find_forall area_ok (Int.to_int16 zk) NEW_AREA vol
                area_ok_nil Hall) as [Hao Hrows].
  destruct (Z.eq_dec y (Int.to_int16 yk)) as [-> | Hy].
  - rewrite find_upsert_same by exact Hao.
    assert (Hx : x <> Int.to_int16 xk) by congruence.
    rewrite find_upsert_other by exact Hx.
    destruct (Map16.find (Int.to_int16 zk) vol) as [area |]; cbn.
    + now destruct (Map16.find (Int.to_int16 yk) area).
    + reflexivity.
  - rewrite find_upsert_other by exact Hy.
    now destruct (Map16.find (Int.to_int16 zk) vol).
Qed.

Lemma store_ok (start : coord) (tok : Z * Z * Z -> option string)
    (tiles : list (Z * Z * Z)) :
  forall vol : bp_volume,
    volume_ok vol -> volume_ok (fold_left (store start tok) tiles vol).
Proof.
  induction tiles as [| [[x y] z] tiles IH]; intros vol Hok; [exact Hok |].
  cbn [fold_left]. apply IH. unfold store.
  destruct (tok (x, y, z)); [now apply record_tile_ok | exact Hok].
Qed.

(** When distinct tiles have distinct keys, every tile that gave a token
    finds it under its keys once the tiles have been stored. *)
Lemma stored_tokens (start : coord) (tok : Z * Z * Z -> option string)
    (tiles : list (Z * Z * Z)) :
  (forall t u, In t tiles -> In u tiles ->
               tile_key start t = tile_key start u -> t = u) ->
  forall (vol : bp_volume) (t : Z * Z * Z) (tile : string),
    volume_ok vol -> In t tiles -> tok t = Some tile ->
    let '(zk, yk, xk) := tile_key start t in
    lookup_tile zk yk xk (fold_left (store start tok) tiles vol) = Some tile.
Proof.
  induction tiles as [| u tiles IH] using rev_ind; intros Hinj vol t tile Hok Hin Htok;
    [destruct Hin |].
  rewrite fold_left_app. cbn [fold_left].
  pose proof (store_ok start tok tiles vol Hok) as Hok'.
  destruct (tile_key start t) as [[zk yk] xk] eqn:Ekey.
  assert (Hcase : t = u \/ (In t tiles /\ tile_key start t <> tile_key start u)).
  { apply in_app_or in Hin. destruct Hin as [Hin | [<- | []]]; [| now left].
    destruct (list_eq_dec Z.eq_dec
                (let '(a, b0, c) := tile_key start t in [a; b0; c])
                (let '(a, b0, c) := tile_key start u in [a; b0; c]))
      as [Heq | Hne].
    - left. apply Hinj; [apply in_or_app; now left
                        | apply in_or_app; right; now left |].
      destruct (tile_key start t) as [[? ?] ?],
        (tile_key start u) as [[? ?] ?]. congruence.
    - right. split; [exact Hin |]. intros Heq. apply Hne. now rewrite Heq. }
  destruct Hcase as [<- | [Hin' Hne]].
  - destruct t as [[x y] z]. unfold store. rewrite Htok.
    unfold tile_key in Ekey. injection Ekey as <- <- <-.
    now apply lookup_record_same.
  - assert (Hprev : lookup_tile zk yk xk
                      (fold_left (store start tok) tiles vol) = Some tile).
    { specialize (IH (fun a c Ha Hc =>
                        Hinj a c (in_or_app _ _ _ (or_introl Ha))
                          (in_or_app _ _ _ (or_introl Hc)))
                    vol t tile Hok Hin' Htok).
      now rewrite Ekey in IH. }
    destruct u as [[x y] z]. unfold store.
    destruct (tok (x, y, z)); [| exact Hprev].
    rewrite lookup_record_other; [exact Hprev | exact Hok' |].
    intros Heq. apply Hne. rewrite Ekey. unfold tile_key. now rewrite Heq.
Qed.

(** *** The tiles of the box *)

Lemma counter_values_member (from step : Z) (n : nat) (v : Z) :
  In v (counter_values from step n)
  <-> exists i : nat, (i < n)%nat /\ v = from + step * Z.of_nat i.
Proof.
  unfold counter_values. rewrite in_map_iff. split.
  - intros [i [<- Hi]]. exists i. apply in_seq in Hi. split; [lia | reflexivity].
  - intros [i [Hi ->]]. exists i. split; [reflexivity |]. apply in_seq. lia.
Qed.

Lemma scan_tiles_in_box (start end_ : coord) (t : Z * Z * Z) :
  In t (scan_tiles start end_) <-> in_box start end_ t.
Proof.
  destruct t as [[x y] z]. unfold scan_tiles, in_box.
  rewrite in_flat_map. split.
  - intros [z' [Hz Hin]]. apply in_flat_map in Hin.
    destruct Hin as [y' [Hy Hin]]. apply in_map_iff in Hin.
    destruct Hin as [x' [Heq Hx]]. injection Heq as -> -> ->.
    apply counter_values_in in Hx. apply counter_values_in in Hy.
    apply counter_values_member in Hz. destruct Hz as [i [Hi ->]].
    destruct (Z.ltb_spec (pos_z start) (pos_z end_)); lia.
  - intros (Hx & Hy & Hz). exists z. split.
    + apply counter_values_member.
      exists (Z.to_nat (Z.abs (z - pos_z start))).
      destruct (Z.ltb_spec (pos_z start) (pos_z end_)); lia.
    + apply in_flat_map. exists y. split; [apply counter_values_in; lia |].
      apply in_map_iff. exists x. split; [reflexivity |].
      apply counter_values_in. lia.
Qed.

(** Inside the bounds of a map the keys of a tile are its offsets from the
    start, the layer offset being the distance to the start layer. *)
Lemma tile_key_offsets (start end_ : coord) (x y z : Z) :
  scan_bounds start end_ -> in_box start end_ (x, y, z) ->
  tile_key start (x, y, z)
  = (Z.abs (z - pos_z start), y - pos_y start, x - pos_x start).
Proof.
  unfold scan_bounds, in_box, tile_key. intros Hb Hin.
  rewrite !to_int16_id by (unfold Int.int16_range; lia). reflexivity.
Qed.

Lemma tile_key_injective (start end_ : coord) (t u : Z * Z * Z) :
  scan_bounds start end_ ->
  in_box start end_ t -> in_box start end_ u ->
  tile_key start t = tile_key start u -> t = u.
Proof.
  destruct t as [[x y] z], u as [[x' y'] z']. intros Hb Ht Hu.
  rewrite (tile_key_offsets start end_ x y z Hb Ht).
  rewrite (tile_key_offsets start end_ x' y' z' Hb Hu).
  unfold in_box in Ht, Hu. intros Heq. injection Heq as Hz Hy Hx.
  f_equal; [f_equal |]; lia.
Qed.

(** *** The order of the layers in the text *)

Lemma layer_in_text (key : string) (k : Z) (area : bp_area)
    (vol : bp_volume) :
  forall zprev : Z,
    Map16.find k vol = Some area ->
    exists pre post : string,
      write_minimal_layers key zprev vol
      = pre ++ (write_minimal_area 0 area ++ endl) ++ post.
Proof.
  induction vol as [| [k' a'] vol IH]; intros zprev Hfind; [discriminate |].
  cbn [Map16.find] in Hfind. cbn [write_minimal_layers].
  destruct (Z.eqb k k').
  - injection Hfind as ->.
    exists (write_gap (key ++ endl) zprev k'),
      (write_minimal_layers key (Z.max zprev k') vol).
    now rewrite !string_app_assoc.
  - destruct (IH (Z.max zprev k') Hfind) as [pre [post Heq]].
    exists (write_gap (key ++ endl) zprev k' ++ write_minimal_area 0 a'
            ++ endl ++ pre), post.
    rewrite Heq. now rewrite !string_app_assoc.
Qed.

Lemma layers_in_text (key : string) (k1 k2 : Z) (a1 a2 : bp_area)
    (vol : bp_volume) :
  Map16.ordered vol ->
  Map16.find k1 vol = Some a1 -> Map16.find k2 vol = Some a2 -> k1 < k2 ->
  forall zprev : Z,
    exists pre mid post : string,
      write_minimal_layers key zprev vol
      = pre ++ (write_minimal_area 0 a1 ++ endl) ++ mid
            ++ (write_minimal_area 0 a2 ++ endl) ++ post.
Proof.
  induction vol as [| [k a] vol IH]; intros Hord H1 H2 Hlt zprev;
    [discriminate |].
  destruct (ordered_inv _ _ _ Hord) as [Hord' Hall].
  cbn [Map16.find] in H1, H2. cbn [write_minimal_layers].
  destruct (Z.eqb_spec k1 k) as [-> | Hne1].
  - injection H1 as ->.
    destruct (Z.eqb_spec k2 k); [lia |].
    destruct (layer_in_text key k2 a2 vol (Z.max zprev k) H2)
      as [pre [post Heq]].
    exists (write_gap (key ++ endl) zprev k), pre, post.
    rewrite Heq. now rewrite !string_app_assoc.
  - destruct (Z.eqb_spec k2 k) as [-> | Hne2].
    + (* k2 is the first key, k1 a later one: impossible *)
      apply find_some_in in H1. rewrite Forall_forall in Hall.
      specialize (Hall k1 H1). lia.
    + destruct (IH Hord' H1 H2 Hlt (Z.max zprev k))
        as [pre [mid [post Heq]]].
      exists (write_gap (key ++ endl) zprev k ++ write_minimal_area 0 a
              ++ endl ++ pre), mid, post.
      rewrite Heq. now rewrite !string_app_assoc.
Qed.

(** C7.  In a scan whose start is on the map and whose end is cropped to it,
    a tile of the scanned box that gives a processor a token is stored in the
    processor's volume under the layer key abs(z - start_z) (and the row and
    column offsets from the start); the layers of the volume are in strictly
    ascending key order, which is the order the serializers go through them,
    so that of two stored layers the text of the one nearer to the start
    comes first; and a scan that starts at z = 10 with depth -5 writes the
    token found at z = 9 before the token found at z = 7, in both layouts. *)
Theorem layers_near_to_far :
  (forall (pretty : bool) (start end_ : coord)
          (processors : list blueprint_processor) (i : nat)
          (p : blueprint_processor) (x y z : Z) (tile : string),
      scan_bounds start end_ ->
      volume_ok (mapdata p) ->
      nth_error processors i = Some p ->
      in_box start end_ (x, y, z) ->
      token_at pretty processors i p (x, y, z) = Some tile ->
      exists p' : blueprint_processor,
        nth_error (scan pretty start end_ processors) i = Some p'
        /\ lookup_tile (Z.abs (z - pos_z start)) (y - pos_y start)
             (x - pos_x start) (mapdata p') = Some tile
        /\ Map16.ordered (mapdata p'))
  /\ (forall (key : string) (vol : bp_volume) (k1 k2 : Z) (a1 a2 : bp_area),
         Map16.ordered vol ->
         Map16.find k1 vol = Some a1 -> Map16.find k2 vol = Some a2 ->
         k1 < k2 ->
         exists pre mid post : string,
           write_minimal_layers key 0 vol
           = pre ++ (write_minimal_area 0 a1 ++ endl) ++ mid
                 ++ (write_minimal_area 0 a2 ++ endl) ++ post)
  /\ scan false shaft_start shaft_end
       [new_processor "dig" (get_tile_dig shaft_world) None]
     = [mk_processor [(1, [(0, [(0, "u")])]); (3, [(0, [(0, "r")])])]
          "dig" (get_tile_dig shaft_world) None]
  /\ run_shaft "minimal" = shaft_result shaft_minimal_text
  /\ run_shaft "pretty" = shaft_result shaft_dense_text.
Proof.
  split; [| split; [| split; [| split]]].
  - intros pretty start end_ processors i p x y z tile Hb Hok Hnth Hin Htok.
    eexists. rewrite scan_tile_by_tile.
    split; [apply (scan_steps_nth pretty start _ processors i p Hnth) |].
    cbn [mapdata set_mapdata]. split.
    + pose proof (stored_tokens start (token_at pretty processors i p)
                    (scan_tiles start end_)) as Hstored.
      specialize (Hstored
                    (fun t u Ht Hu =>
                       tile_key_injective start end_ t u Hb
                         (proj1 (scan_tiles_in_box start end_ t) Ht)
                         (proj1 (scan_tiles_in_box start end_ u) Hu))
                    (mapdata p) (x, y, z) tile Hok
                    (proj2 (scan_tiles_in_box start end_ (x, y, z)) Hin)
                    Htok).
      now rewrite (tile_key_offsets start end_ x y z Hb Hin) in Hstored.
    + apply store_ok, Hok.
  - intros key vol k1 k2 a1 a2 Hord H1 H2 Hlt.
    exact (layers_in_text key k1 k2 a1 a2 vol Hord H1 H2 Hlt 0).
  - vm_compute. reflexivity.
  - vm_compute. reflexivity.
  - vm_compute. reflexivity.
Qed.

Lemma layers_near_to_far_witness :
  scan_bounds shaft_start shaft_end
  /\ volume_ok (mapdata (new_processor "dig" (get_tile_dig shaft_world) None))
  /\ in_box shaft_start shaft_end (0, 0, 7)
  /\ exists p' : blueprint_processor,
       nth_error
         (scan false shaft_start shaft_end
            [new_processor "dig" (get_tile_dig shaft_world) None]) 0
       = Some p'
       /\ lookup_tile (Z.abs (7 - pos_z shaft_start)) (0 - pos_y shaft_start)
            (0 - pos_x shaft_start) (mapdata p') = Some "r"
       /\ Map16.ordered (mapdata p').
Proof.
  assert (Hb : scan_bounds shaft_start shaft_end)
    by (unfold scan_bounds; simpl; lia).
  assert (Hok : volume_ok
                  (mapdata (new_processor "dig" (get_tile_dig shaft_world)
                              None)))
    by (split; constructor).
  assert (Hin : in_box shaft_start shaft_end (0, 0, 7))
    by (unfold in_box; simpl; lia).
  split; [exact Hb |]. split; [exact Hok |]. split; [exact Hin |].
  apply (proj1 layers_near_to_far false shaft_start shaft_end
           [new_processor "dig" (get_tile_dig shaft_world) None] 0%nat
           (new_processor "dig" (get_tile_dig shaft_world) None) 0 0 7 "r"
           Hb Hok eq_refl Hin).
  reflexivity.
Defined.

(** ** Empty placeholders in the minimal layout *)

(** *** The gaps of the minimal layout *)

Lemma write_minimal_row_gapped (row : bp_row) :
  forall xprev : Z,
    write_minimal_row xprev row = write_gapped "," (fun tile => tile) xprev row.
Proof.
  induction row as [| [x tile] row IH]; intros xprev; [reflexivity |].
  cbn [write_minimal_row write_gapped]. now rewrite IH.
Qed.

Lemma write_minimal_area_gapped (area : bp_area) :
  forall yprev : Z,
    write_minimal_area yprev area
    = write_gapped endl (write_minimal_row 0) yprev area.
Proof.
  induction area as [| [y row] area IH]; intros yprev; [reflexivity |].
  cbn [write_minimal_area write_gapped]. now rewrite IH.
Qed.

Lemma write_minimal_layers_gapped (key : string) (vol : bp_volume) :
  forall zprev : Z,
    write_minimal_layers key zprev vol
    = write_gapped (key ++ endl)
        (fun area => write_minimal_area 0 area ++ endl) zprev vol.
Proof.
  induction vol as [| [z area] vol IH]; intros zprev; [reflexivity |].
  cbn [write_minimal_layers write_gapped].
  now rewrite IH, !string_app_assoc.
Qed.

(** After an entry at key [x], an ordered map writes, for every key up to
    its last one, the separator and then what it holds at that key. *)
Lemma write_gapped_tail {V : Type} (sep : string) (body : V -> string)
    (m : Map16.t V) :
  forall x : Z,
    Map16.ordered m -> Forall (fun j => x < j) (Map16.keys m) ->
    write_gapped sep body x m
    = concat_strings
        (map (fun i => sep ++ slot body m i)
           (counter_values (x + 1) 1 (Z.to_nat (last_key x m - x)))).
Proof.
  induction m as [| [k v] m IH]; intros x Hord Hall.
  - simpl. now rewrite Z.sub_diag.
  - destruct (ordered_inv _ _ _ Hord) as [Hord' Hall'].
    inversion Hall as [| ? ? Hlt Hrest]; subst. simpl in Hlt.
    pose proof (last_key_ge k m Hord' Hall') as Hlast.
    cbn [write_gapped last_key]. rewrite Z.max_r by lia.
    replace (Z.to_nat (last_key k m - x))
      with (Z.to_nat (k - x - 1) + (1 + Z.to_nat (last_key k m - k)))%nat
      by lia.
    rewrite !counter_values_app, !map_app, !concat_strings_app.
    rewrite (IH k Hord' Hall').
    replace (x + 1 + Z.of_nat (Z.to_nat (k - x - 1))) with k by lia.
    replace (k + Z.of_nat 1) with (k + 1) by lia.
    unfold write_gap.
    replace (Z.to_nat (k - x)) with (S (Z.to_nat (k - x - 1))) by lia.
    rewrite repeat_string_snoc, !string_app_assoc.
    f_equal.
    + assert (Hgap : forall (n : nat) (a : Z),
                 a + Z.of_nat n <= k ->
                 concat_strings
                   (map (fun i => sep ++ slot body ((k, v) :: m) i)
                      (counter_values a 1 n))
                 = repeat_string sep n).
      { induction n as [| n IHn]; intros a Ha; [reflexivity |].
        rewrite counter_values_cons. cbn [map concat_strings].
        rewrite IHn by lia. unfold slot. cbn [Map16.find].
        destruct (Z.eqb_spec a k); [lia |].
        rewrite find_above; [now rewrite string_app_nil_r |].
        eapply Forall_impl; [| exact Hall']. simpl. intros; lia. }
      symmetry. apply Hgap. lia.
    + rewrite (counter_values_cons k 0).
      change (counter_values (k + 1) 1 0) with (@nil Z).
      cbn [map concat_strings].
      rewrite string_app_nil_r, string_app_assoc.
      assert (Hslot : slot body ((k, v) :: m) k = body v).
      { unfold slot. cbn [Map16.find]. now rewrite Z.eqb_refl. }
      rewrite Hslot. do 3 f_equal.
      apply map_ext_in. intros i Hi. apply counter_values_in in Hi.
      unfold slot. cbn [Map16.find].
      destruct (Z.eqb_spec i k); [lia | reflexivity].
Qed.

(** From key 0 on, an ordered map with no negative key writes what it holds
    at the keys 0 to its last key, separated. *)
Lemma write_gapped_slots {V : Type} (sep : string) (body : V -> string)
    (m : Map16.t V) :
  Map16.ordered m -> Forall (fun j => 0 <= j) (Map16.keys m) ->
  write_gapped sep body 0 m = join_with sep (map (slot body m) (keys_to_last m)).
Proof.
  intros Hord Hall. destruct m as [| [k0 v0] m]; [reflexivity |].
  destruct (ordered_inv _ _ _ Hord) as [Hord' Hall'].
  inversion Hall as [| ? ? H0 _]; subst. simpl in H0.
  pose proof (last_key_ge k0 m Hord' Hall') as Hlast.
  unfold keys_to_last. cbn [last_key].
  replace (Z.to_nat (last_key k0 m + 1))
    with (S (Z.to_nat (last_key k0 m))) by lia.
  rewrite counter_values_cons. cbn [map]. rewrite join_with_cons, map_map.
  replace (0 + 1) with 1 by lia.
  destruct (Z.eqb_spec k0 0) as [-> | Hne].
  - cbn [write_gapped]. unfold write_gap.
    change (Z.to_nat (0 - 0)) with O. cbn [repeat_string append].
    rewrite Z.max_id.
    rewrite (write_gapped_tail sep body m 0 Hord' Hall').
    replace (last_key 0 m - 0) with (last_key 0 m) by lia.
    replace (0 + 1) with 1 by lia.
    assert (Hslot : slot body ((0, v0) :: m) 0 = body v0) by reflexivity.
    rewrite Hslot. f_equal. f_equal.
    apply map_ext_in. intros i Hi. apply counter_values_in in Hi.
    unfold slot. cbn [Map16.find].
    destruct (Z.eqb_spec i 0); [lia | reflexivity].
  - assert (Hall0 : Forall (fun j => 0 < j) (Map16.keys ((k0, v0) :: m))).
    { simpl. constructor; [lia |].
      eapply Forall_impl; [| exact Hall']. simpl. intros; lia. }
    rewrite (write_gapped_tail sep body _ 0 Hord Hall0). cbn [last_key].
    replace (last_key k0 m - 0) with (last_key k0 m) by lia.
    replace (0 + 1) with 1 by lia.
    assert (Hslot : slot body ((k0, v0) :: m) 0 = "").
    { unfold slot. now rewrite (find_above 0 _ Hall0). }
    rewrite Hslot. reflexivity.
Qed.

(** What an ordered map with no negative key holds at one of its keys is the
    entry of that index among the texts from key 0 to its last key. *)
Lemma slot_position {V : Type} (body : V -> string) (m : Map16.t V)
    (k : Z) (v : V) :
  Map16.ordered m -> Forall (fun j => 0 <= j) (Map16.keys m) ->
  Map16.find k m = Some v ->
  nth_error (map (slot body m) (keys_to_last m)) (Z.to_nat k) = Some (body v).
Proof.
  intros Hord Hall Hfind.
  pose proof (find_some_in _ _ _ Hfind) as Hin.
  pose proof (last_key_max (-1) k m Hord Hin) as Hmax.
  assert (0 <= k) by (rewrite Forall_forall in Hall; now apply Hall).
  unfold keys_to_last. rewrite nth_error_map.
  rewrite counter_values_nth by lia. cbn [option_map].
  unfold slot. rewrite Z2Nat.id, Z.add_0_l by lia.
  now rewrite Hfind.
Qed.

Lemma found_entry_holds {V : Type} (P : V -> Prop) (k : Z) (v : V)
    (m : Map16.t V) :
  Forall (fun e => P (snd e)) m -> Map16.find k m = Some v -> P v.
Proof.
  induction m as [| [k' v'] m IH]; intros Hall Hfind;
    [discriminate Hfind |].
  inversion Hall as [| ? ? Hhd Htl]; subst. cbn [Map16.find] in Hfind.
  destruct (Z.eqb k k'); [injection Hfind as <-; exact Hhd | now apply IH].
Qed.

Lemma process_tile_length (pos : coord) (zk yk xk : Z)
    (processors : list blueprint_processor) :
  forall ctx : tile_context,
    List.length (process_tile pos zk yk xk ctx processors)
    = List.length processors.
Proof.
  induction processors as [| p rest IH]; intros ctx; [reflexivity |].
  cbn [process_tile List.length]. now rewrite IH.
Qed.

(** C10.  In the minimal layout a tile of a multi-tile building that is not
    its anchor, and a tile of a stockpile (designation phase) that is not its
    north-west corner, get the empty string as token.  Whatever the list of
    processors and the place of the processor in it, the loop body of the
    scan stores an empty token the processor gets: afterwards the layer, the
    row and the column of the tile exist in its volume and hold the empty
    string, while a processor that gets no token is left as it was, and the
    number of processors is unchanged.  In the line the minimal serializer
    writes for a row, which consists of the cells from column 0 to the last
    stored column separated by commas, an empty token stored at column [x]
    is the cell of position [x]; and in the text [write_minimal] writes for
    a volume, which consists of the layers 0 to the last stored one joined
    by the separator line, each stored layer being its lines 0 to the last
    stored one joined by ends of line, that line is line [y] of layer [z]
    for an empty token stored at layer [z], row [y] and column [x]. *)
Theorem empty_placeholder_is_stored :
  (forall (bld : building) (a : anchor) (pos : coord),
      designated_anchor (getType bld) = Some a ->
      at_tile (anchor_tile a bld) pos = false ->
      get_tile_build pos (mk_ctx false (Some bld)) = Some "")
  /\ (forall (bld : building) (pos : coord),
         getType bld = Stockpile ->
         at_tile (x1 bld, y1 bld) pos = false ->
         get_tile_place pos (mk_ctx false (Some bld)) = Some "")
  /\ (forall (processors : list blueprint_processor) (i : nat)
             (p : blueprint_processor) (pos : coord) (zk yk xk : Z)
             (ctx : tile_context),
         nth_error processors i = Some p ->
         volume_ok (mapdata p) ->
         List.length (process_tile pos zk yk xk ctx processors)
         = List.length processors
         /\ (get_tile p pos (context_for pos ctx processors i) = Some "" ->
             exists p',
               nth_error (process_tile pos zk yk xk ctx processors) i = Some p'
               /\ lookup_tile (Int.to_int16 zk) (Int.to_int16 yk)
                    (Int.to_int16 xk) (mapdata p') = Some ""
               /\ In (Int.to_int16 zk) (Map16.keys (mapdata p')))
         /\ (get_tile p pos (context_for pos ctx processors i) = None ->
             nth_error (process_tile pos zk yk xk ctx processors) i = Some p))
  /\ (forall (row : bp_row) (x : Z),
         Map16.ordered row -> Forall (fun j => 0 <= j) (Map16.keys row) ->
         Map16.find x row = Some "" ->
         write_minimal_row 0 row = join_with "," (minimal_cells row)
         /\ nth_error (minimal_cells row) (Z.to_nat x) = Some "")
  /\ (forall (opts : blueprint_options) (vol : bp_volume) (area : bp_area)
             (row : bp_row) (z y x : Z),
         volume_ok vol ->
         Forall (fun j => 0 <= j) (Map16.keys vol) ->
         Forall (fun j => 0 <= j) (Map16.keys area) ->
         Forall (fun j => 0 <= j) (Map16.keys row) ->
         Map16.find z vol = Some area -> Map16.find y area = Some row ->
         Map16.find x row = Some "" ->
         write_minimal opts vol
         = join_with (z_key opts ++ endl)
             (map (minimal_layer vol) (keys_to_last vol))
         /\ nth_error (map (minimal_layer vol) (keys_to_last vol)) (Z.to_nat z)
            = Some (join_with endl (map (minimal_line area) (keys_to_last area))
                      ++ endl)
         /\ nth_error (map (minimal_line area) (keys_to_last area))
              (Z.to_nat y)
            = Some (join_with "," (minimal_cells row))
         /\ nth_error (minimal_cells row) (Z.to_nat x) = Some "").
Proof.
  assert (Hcell : forall (row : bp_row) (x : Z),
             Map16.ordered row -> Forall (fun j => 0 <= j) (Map16.keys row) ->
             Map16.find x row = Some "" ->
             nth_error (minimal_cells row) (Z.to_nat x) = Some "").
  { intros row x Hord Hall Hfind.
    pose proof (find_some_in _ _ _ Hfind) as Hin.
    pose proof (last_key_max (-1) x row Hord Hin) as Hmax.
    assert (0 <= x) by (rewrite Forall_forall in Hall; now apply Hall).
    unfold minimal_cells. rewrite nth_error_map.
    rewrite counter_values_nth by lia. cbn [option_map].
    unfold minimal_cell. rewrite Z2Nat.id, Z.add_0_l by lia.
    now rewrite Hfind. }
  split; [| split; [| split; [| split]]].
  - intros bld a pos Ha Hat.
    rewrite (get_tile_build_anchored bld a pos false Ha), Hat. reflexivity.
  - intros bld pos Htype Hat.
    unfold get_tile_place. cbn [b]. rewrite Htype. cbn [is_stockpile negb].
    unfold at_tile in Hat. cbn [fst snd] in Hat.
    rewrite (Z.eqb_sym (x1 bld)), (Z.eqb_sym (y1 bld)).
    rewrite <- negb_andb, Hat. reflexivity.
  - intros processors i p pos zk yk xk ctx Hnth Hok.
    pose proof (process_tile_nth pos zk yk xk processors ctx i p Hnth) as Hstep.
    split; [apply process_tile_length |]. split.
    + intros Htile. rewrite Htile in Hstep. eexists.
      split; [exact Hstep |]. cbn [mapdata set_mapdata].
      pose proof (lookup_record_same zk yk xk "" (mapdata p) Hok) as Hl.
      split; [exact Hl |].
      unfold lookup_tile in Hl.
      destruct (Map16.find (Int.to_int16 zk)
                  (record_tile zk yk xk "" (mapdata p))) eqn:E;
        [| discriminate].
      eapply find_some_in, E.
    + intros Htile. now rewrite Htile in Hstep.
  - intros row x Hord Hall Hfind. split.
    + now apply minimal_row_positions.
    + now apply Hcell.
  - intros opts vol area row z y x [Hvol Hareas] Hzs Hys Hxs Hz Hy Hx.
    destruct (found_entry_holds area_ok z area vol Hareas Hz) as [Hrows Hrow].
    pose proof (found_entry_holds (fun r : bp_row => Map16.ordered r) y row
                  area Hrow Hy) as Hord.
    split; [| split; [| split]].
    + destruct vol as [| e vol]; [reflexivity |].
      unfold write_minimal. rewrite write_minimal_layers_gapped.
      now apply write_gapped_slots.
    + unfold minimal_layer.
      rewrite (slot_position _ vol z area Hvol Hzs Hz).
      rewrite write_minimal_area_gapped.
      now rewrite (write_gapped_slots endl (write_minimal_row 0) area Hrows Hys).
    + unfold minimal_line.
      rewrite (slot_position _ area y row Hrows Hys Hy).
      now rewrite (minimal_row_positions row Hord Hxs).
    + now apply Hcell.
Qed.

Lemma empty_placeholder_is_stored_witness :
  designated_anchor (getType farm_plot) = Some north_west
  /\ at_tile (anchor_tile north_west farm_plot) (mk_coord 6 5 0) = false
  /\ get_tile_build (mk_coord 6 5 0) farm_ctx = Some ""
  /\ nth_error [workshop_dig; build_processor] 1 = Some build_processor
  /\ volume_ok (mapdata build_processor)
  /\ (exists p',
         nth_error
           (process_tile (mk_coord 6 5 0) 0 0 1 farm_ctx
              [workshop_dig; build_processor]) 1 = Some p'
         /\ lookup_tile (Int.to_int16 0) (Int.to_int16 0) (Int.to_int16 1)
              (mapdata p') = Some ""
         /\ In (Int.to_int16 0) (Map16.keys (mapdata p')))
  /\ volume_ok workshop_minimal_volume
  /\ write_minimal (build_options "minimal") workshop_minimal_volume
     = join_with ("#<" ++ endl)
         [join_with endl [",,"; ",wm,"; ",,"] ++ endl]
  /\ nth_error (minimal_cells [(0, ""); (1, "wm"); (2, "")]) 2 = Some "".
Proof.
  destruct empty_placeholder_is_stored
    as (Hbuild & _ & Hstore & _ & Htext).
  assert (Hok : volume_ok (mapdata build_processor))
    by (split; constructor).
  assert (Htile : get_tile_build (mk_coord 6 5 0) farm_ctx = Some "")
    by (apply (Hbuild farm_plot north_west); reflexivity).
  assert (Hvol : volume_ok workshop_minimal_volume).
  { split; [repeat constructor |].
    repeat constructor; cbn; lia. }
  split; [reflexivity |].
  split; [reflexivity |].
  split; [exact Htile |].
  split; [reflexivity |].
  split; [exact Hok |].
  split.
  - apply (proj1 (proj2 (Hstore [workshop_dig; build_processor] 1%nat
                           build_processor (mk_coord 6 5 0) 0 0 1 farm_ctx
                           eq_refl Hok))).
    exact Htile.
  - split; [exact Hvol |].
    assert (Hkeys : forall l : list Z,
               l = [0] \/ l = [0; 1; 2] ->
               Forall (fun j => 0 <= j) l).
    { intros l [-> | ->]; repeat constructor; lia. }
    destruct (Htext (build_options "minimal") workshop_minimal_volume
                [(0, [(0, ""); (1, ""); (2, "")]);
                 (1, [(0, ""); (1, "wm"); (2, "")]);
                 (2, [(0, ""); (1, ""); (2, "")])]
                [(0, ""); (1, "wm"); (2, "")] 0 1 2 Hvol
                (Hkeys _ (or_introl eq_refl)) (Hkeys _ (or_intror eq_refl))
                (Hkeys _ (or_intror eq_refl)) eq_refl eq_refl eq_refl)
      as (Hwhole & _ & _ & Hcell).
    split; [rewrite Hwhole; reflexivity | exact Hcell].
Defined.

(** * Further properties of the code *)

(** ** The sparse volume *)

(** X1.  Storing a token and looking it up: in a volume whose three levels
    are ordered, after [record_tile] the keys of the stored tile (its offsets
    narrowed to 16 bits) hold the new token, and every other triple of keys
    holds what it held before. *)
Theorem record_tile_round_trip
    (zk yk xk z y x : Z) (tile : string) (vol : bp_volume) :
  volume_ok vol ->
  lookup_tile z y x (record_tile zk yk xk tile vol)
  = if same_keys (z, y, x)
         (Int.to_int16 zk, Int.to_int16 yk, Int.to_int16 xk)
    then Some tile
    else lookup_tile z y x vol.
Proof.
  intros Hok. unfold same_keys.
  destruct (Z.eqb_spec z (Int.to_int16 zk)) as [-> | Hz];
    [destruct (Z.eqb_spec y (Int.to_int16 yk)) as [-> | Hy];
     [destruct (Z.eqb_spec x (Int.to_int16 xk)) as [-> | Hx] |] |];
    cbn [andb].
  - now apply lookup_record_same.
  - apply lookup_record_other; [exact Hok | congruence].
  - apply lookup_record_other; [exact Hok | congruence].
  - apply lookup_record_other; [exact Hok | congruence].
Qed.

Lemma record_tile_round_trip_witness :
  volume_ok [(1, [(0, [(0, "u")])])]
  /\ lookup_tile 3 0 0 (record_tile 3 0 0 "r" [(1, [(0, [(0, "u")])])])
     = Some "r"
  /\ lookup_tile 1 0 0 (record_tile 3 0 0 "r" [(1, [(0, [(0, "u")])])])
     = Some "u".
Proof.
  assert (Hok : volume_ok [(1, [(0, [(0, "u")])])]).
  { split; [repeat constructor |].
    constructor; [| constructor]. split; repeat constructor. }
  split; [exact Hok |]. split.
  - exact (record_tile_round_trip 3 0 0 3 0 0 "r" _ Hok).
  - exact (record_tile_round_trip 3 0 0 1 0 0 "r" _ Hok).
Defined.

Lemma upsert_ext {V : Type} (k : Z) (d : V) (f g : V -> V) (m : Map16.t V) :
  (forall v, f v = g v) -> Map16.upsert k d f m = Map16.upsert k d g m.
Proof.
  intros Hfg. induction m as [| [k' v] m IH]; cbn [Map16.upsert].
  - now rewrite Hfg.
  - destruct (Z.eqb k k'); [now rewrite Hfg |].
    destruct (Z.ltb k k'); [now rewrite Hfg | now rewrite IH].
Qed.

Lemma upsert_twice {V : Type} (k : Z) (d : V) (f g : V -> V)
    (m : Map16.t V) :
  Map16.upsert k d f (Map16.upsert k d g m)
  = Map16.upsert k d (fun v => f (g v)) m.
Proof.
  induction m as [| [k' v] m IH]; cbn [Map16.upsert].
  - now rewrite Z.eqb_refl.
  - destruct (Z.eqb k k') eqn:E; cbn [Map16.upsert].
    + now rewrite E.
    + destruct (Z.ltb k k') eqn:L; cbn [Map16.upsert].
      * now rewrite Z.eqb_refl.
      * now rewrite E, L, IH.
Qed.

(** X2.  A second token stored under the keys of an earlier one replaces it
    and changes nothing else: the volume is the one that storing the second
    token alone would have given. *)
Theorem record_tile_overwrites
    (zk yk xk : Z) (first second : string) (vol : bp_volume) :
  record_tile zk yk xk second (record_tile zk yk xk first vol)
  = record_tile zk yk xk second vol.
Proof.
  unfold record_tile. rewrite upsert_twice. apply upsert_ext. intros area.
  rewrite upsert_twice. apply upsert_ext. intros row.
  rewrite upsert_twice. reflexivity.
Qed.

(** ** Invariants of the scan *)

Lemma process_tile_code (pos : coord) (zk yk xk : Z)
    (processors : list blueprint_processor) :
  forall ctx : tile_context,
    map processor_code (process_tile pos zk yk xk ctx processors)
    = map processor_code processors.
Proof.
  induction processors as [| p rest IH]; intros ctx; [reflexivity |].
  cbn [process_tile map]. rewrite IH. f_equal.
  now destruct (get_tile p pos _).
Qed.

(** A scan changes the volumes of the processors only. *)
Lemma scan_code (pretty : bool) (start end_ : coord)
    (processors : list blueprint_processor) :
  map processor_code (scan pretty start end_ processors)
  = map processor_code processors.
Proof.
  rewrite scan_tile_by_tile. generalize (scan_tiles start end_).
  intros tiles. revert processors.
  induction tiles as [| [[x y] z] tiles IH]; intros processors;
    [reflexivity |].
  cbn [fold_left]. rewrite IH. apply process_tile_code.
Qed.

Lemma process_tile_keeps (pos : coord) (zk yk xk : Z)
    (processors : list blueprint_processor) :
  forall ctx : tile_context,
    Forall (fun p => volume_ok (mapdata p)) processors ->
    Forall (fun p => volume_ok (mapdata p))
      (process_tile pos zk yk xk ctx processors).
Proof.
  induction processors as [| p rest IH]; intros ctx Hall; [constructor |].
  inversion Hall as [| ? ? Hp Hrest]; subst.
  cbn [process_tile]. constructor; [| now apply IH].
  destruct (get_tile p pos _); [| exact Hp].
  cbn [mapdata set_mapdata]. now apply record_tile_ok.
Qed.

(** X3.  A scan keeps the processors in place: their number, order, phase
    names and classifier functions are unchanged, and if the three levels of
    every volume were ordered before the scan they are ordered after it (as
    they are for the empty volumes a run starts with). *)
Theorem scan_keeps_processors (pretty : bool) (start end_ : coord)
    (processors : list blueprint_processor) :
  Forall (fun p => volume_ok (mapdata p)) processors ->
  Forall (fun p => volume_ok (mapdata p)) (scan pretty start end_ processors)
  /\ map processor_code (scan pretty start end_ processors)
     = map processor_code processors
  /\ List.length (scan pretty start end_ processors) = List.length processors.
Proof.
  intros Hall. split; [| split].
  - rewrite scan_tile_by_tile. generalize (scan_tiles start end_).
    intros tiles. revert processors Hall.
    induction tiles as [| [[x y] z] tiles IH]; intros processors Hall;
      [exact Hall |].
    cbn [fold_left]. apply IH. unfold scan_step.
    now apply process_tile_keeps.
  - apply scan_code.
  - rewrite <- (length_map processor_code (scan pretty start end_ processors)).
    now rewrite scan_code, length_map.
Qed.

Lemma scan_keeps_processors_witness :
  Forall (fun p => volume_ok (mapdata p)) [shaft_dig]
  /\ Forall (fun p => volume_ok (mapdata p))
       (scan false shaft_start shaft_end [shaft_dig])
  /\ map processor_code (scan false shaft_start shaft_end [shaft_dig])
     = map processor_code [shaft_dig].
Proof.
  assert (H : Forall (fun p => volume_ok (mapdata p)) [shaft_dig]).
  { constructor; [split; constructor | constructor]. }
  split; [exact H |].
  destruct (scan_keeps_processors false shaft_start shaft_end [shaft_dig] H)
    as (Hok & Hcode & _).
  split; [exact Hok | exact Hcode].
Defined.

(** *** No tile overwrites another *)

Lemma to_int16_injective (a c : Z) :
  -65536 < a - c < 65536 -> Int.to_int16 a = Int.to_int16 c -> a = c.
Proof.
  unfold Int.to_int16. intros Hclose Heq.
  pose proof (Z.div_mod (a + 32768) 65536).
  pose proof (Z.div_mod (c + 32768) 65536).
  lia.
Qed.

Lemma tile_key_injective_16 (start end_ : coord) (t u : Z * Z * Z) :
  coord_in_range start -> coord_in_range end_ ->
  in_box start end_ t -> in_box start end_ u ->
  tile_key start t = tile_key start u -> t = u.
Proof.
  destruct t as [[x y] z], u as [[x' y'] z'].
  unfold coord_in_range, Int.int16_range, in_box, tile_key.
  intros (Hsx & Hsy & Hsz) (Hex & Hey & Hez) Ht Hu Heq.
  injection Heq as Hz Hy Hx.
  apply to_int16_injective in Hx; [| lia].
  apply to_int16_injective in Hy; [| lia].
  apply to_int16_injective in Hz; [| lia].
  f_equal; [f_equal |]; lia.
Qed.

(** X4.  Whatever the 16-bit start and end coordinates of a scan, no tile of
    the scanned box overwrites the token of another: every tile that gives a
    processor a token is found afterwards in the processor's volume under its
    own keys (its three offsets narrowed to 16 bits). *)
Theorem scan_stores_every_token
    (pretty : bool) (start end_ : coord)
    (processors : list blueprint_processor) (i : nat)
    (p : blueprint_processor) (t : Z * Z * Z) (tile : string) :
  coord_in_range start -> coord_in_range end_ ->
  volume_ok (mapdata p) ->
  nth_error processors i = Some p ->
  in_box start end_ t ->
  token_at pretty processors i p t = Some tile ->
  exists p' : blueprint_processor,
    nth_error (scan pretty start end_ processors) i = Some p'
    /\ (let '(zk, yk, xk) := tile_key start t in
        lookup_tile zk yk xk (mapdata p') = Some tile).
Proof.
  intros Hs He Hok Hnth Hin Htok.
  eexists. rewrite scan_tile_by_tile.
  split; [apply (scan_steps_nth pretty start _ processors i p Hnth) |].
  cbn [mapdata set_mapdata].
  apply (stored_tokens start (token_at pretty processors i p)
           (scan_tiles start end_)
           (fun a c Ha Hc =>
              tile_key_injective_16 start end_ a c Hs He
                (proj1 (scan_tiles_in_box start end_ a) Ha)
                (proj1 (scan_tiles_in_box start end_ c) Hc))
           (mapdata p) t tile Hok
           (proj2 (scan_tiles_in_box start end_ t) Hin) Htok).
Qed.

Lemma scan_stores_every_token_witness :
  coord_in_range shaft_start /\ coord_in_range shaft_end
  /\ volume_ok (mapdata shaft_dig)
  /\ in_box shaft_start shaft_end (0, 0, 9)
  /\ exists p' : blueprint_processor,
       nth_error (scan false shaft_start shaft_end [shaft_dig]) 0 = Some p'
       /\ (let '(zk, yk, xk) := tile_key shaft_start (0, 0, 9) in
           lookup_tile zk yk xk (mapdata p') = Some "u").
Proof.
  assert (Hs : coord_in_range shaft_start)
    by (unfold coord_in_range, Int.int16_range; simpl; lia).
  assert (He : coord_in_range shaft_end)
    by (unfold coord_in_range, Int.int16_range; simpl; lia).
  assert (Hok : volume_ok (mapdata shaft_dig)) by (split; constructor).
  assert (Hin : in_box shaft_start shaft_end (0, 0, 9))
    by (unfold in_box; simpl; lia).
  split; [exact Hs |]. split; [exact He |]. split; [exact Hok |].
  split; [exact Hin |].
  apply (scan_stores_every_token false shaft_start shaft_end [shaft_dig]
           0%nat shaft_dig (0, 0, 9) "u" Hs He Hok eq_refl Hin).
  reflexivity.
Defined.

(** *** Nothing is stored that no tile gave *)

Lemma stored_tokens_come_from_tiles (start : coord)
    (tok : Z * Z * Z -> option string) (tiles : list (Z * Z * Z)) :
  forall (vol : bp_volume) (z y x : Z) (tile : string),
    volume_ok vol ->
    lookup_tile z y x (fold_left (store start tok) tiles vol) = Some tile ->
    lookup_tile z y x vol = Some tile
    \/ exists t, In t tiles /\ tile_key start t = (z, y, x)
                 /\ tok t = Some tile.
Proof.
  induction tiles as [| [[tx ty] tz] tiles IH]; intros vol z y x tile Hok Hl;
    [now left |].
  cbn [fold_left] in Hl.
  assert (Hok' : volume_ok (store start tok vol (tx, ty, tz))).
  { unfold store. destruct (tok (tx, ty, tz));
      [now apply record_tile_ok | exact Hok]. }
  destruct (IH _ z y x tile Hok' Hl) as [Hhere | [t [Hin [Hkey Htok]]]].
  - unfold store in Hhere.
    destruct (tok (tx, ty, tz)) as [s |] eqn:Etok; [| now left].
    destruct (same_keys (z, y, x)
                (Int.to_int16 (Z.abs (tz - pos_z start)),
                 Int.to_int16 (ty - pos_y start),
                 Int.to_int16 (tx - pos_x start))) eqn:Ekeys.
    + right. exists (tx, ty, tz). split; [now left |].
      unfold same_keys in Ekeys.
      apply andb_prop in Ekeys. destruct Ekeys as [Ezy Ex].
      apply andb_prop in Ezy. destruct Ezy as [Ez Ey].
      apply Z.eqb_eq in Ez, Ey, Ex. subst z y x.
      rewrite lookup_record_same in Hhere by exact Hok.
      split; [reflexivity | congruence].
    + left. rewrite lookup_record_other in Hhere; [exact Hhere | exact Hok |].
      intros Heq. injection Heq as -> -> ->.
      unfold same_keys in Ekeys. now rewrite !Z.eqb_refl in Ekeys.
  - right. exists t. split; [now right | now split].
Qed.

(** X5.  The volume is sparse by construction: after a scan that started
    with an empty volume, a token found under some keys was given by a tile
    of the scanned box that has these keys; in particular the volume of a
    processor that got no token from any tile of the box is still empty of
    tokens. *)
Theorem scan_stores_only_tokens
    (pretty : bool) (start end_ : coord)
    (processors : list blueprint_processor) (i : nat)
    (p p' : blueprint_processor) (z y x : Z) (tile : string) :
  mapdata p = [] ->
  nth_error processors i = Some p ->
  nth_error (scan pretty start end_ processors) i = Some p' ->
  lookup_tile z y x (mapdata p') = Some tile ->
  exists t : Z * Z * Z,
    in_box start end_ t
    /\ tile_key start t = (z, y, x)
    /\ token_at pretty processors i p t = Some tile.
Proof.
  intros Hempty Hnth Hnth' Hl.
  rewrite scan_tile_by_tile in Hnth'.
  rewrite (scan_steps_nth pretty start _ processors i p Hnth) in Hnth'.
  injection Hnth' as <-. cbn [mapdata set_mapdata] in Hl.
  assert (Hok : volume_ok (mapdata p))
    by (rewrite Hempty; split; constructor).
  destruct (stored_tokens_come_from_tiles start _ _ _ z y x tile Hok Hl)
    as [Hinit | [t [Hin [Hkey Htok]]]].
  - rewrite Hempty in Hinit. discriminate Hinit.
  - exists t. split; [now apply scan_tiles_in_box | now split].
Qed.

Lemma scan_stores_only_tokens_witness :
  mapdata shaft_dig = []
  /\ lookup_tile 3 0 0
       (mapdata (mk_processor [(1, [(0, [(0, "u")])]); (3, [(0, [(0, "r")])])]
                   "dig" (get_tile_dig shaft_world) None)) = Some "r"
  /\ exists t : Z * Z * Z,
       in_box shaft_start shaft_end t
       /\ tile_key shaft_start t = (3, 0, 0)
       /\ token_at false [shaft_dig] 0 shaft_dig t = Some "r".
Proof.
  split; [reflexivity |]. split; [reflexivity |].
  apply (scan_stores_only_tokens false shaft_start shaft_end [shaft_dig]
           0%nat shaft_dig
           (mk_processor [(1, [(0, [(0, "u")])]); (3, [(0, [(0, "r")])])]
              "dig" (get_tile_dig shaft_world) None)
           3 0 0 "r"); reflexivity.
Defined.

(** *** Every tile once *)

Lemma NoDup_flat_map {A B : Type} (g : A -> list B) (l : list A) :
  NoDup l ->
  (forall a, In a l -> NoDup (g a)) ->
  (forall a a' v, In a l -> In a' l -> In v (g a) -> In v (g a') -> a = a') ->
  NoDup (flat_map g l).
Proof.
  induction l as [| a l IH]; intros Hl Hg Hsep; [constructor |].
  inversion Hl as [| ? ? Hnotin Hl']; subst. cbn [flat_map].
  apply NoDup_app.
  - apply Hg. now left.
  - apply IH; [exact Hl' | |].
    + intros a' Ha'. apply Hg. now right.
    + intros a1 a2 v H1 H2. apply Hsep; now right.
  - intros v Hv Hv'. apply in_flat_map in Hv'.
    destruct Hv' as [a' [Ha' Hva']].
    assert (a = a') by (apply (Hsep a a' v); auto; [now left | now right]).
    subst a'. contradiction.
Qed.

Lemma counter_values_NoDup (from step : Z) (n : nat) :
  step <> 0 -> NoDup (counter_values from step n).
Proof.
  intros Hstep. unfold counter_values.
  apply NoDup_map_NoDup_ForallPairs; [| apply seq_NoDup].
  intros i j _ _ Heq. nia.
Qed.

(** X6.  The three loops of a scan run the loop body ([process_tile] with a
    fresh context and the offsets of the tile as keys) on a sequence of
    tiles, one after the other; the sequence holds every tile of the box
    (the end being exclusive, the layers running from the start layer
    towards the end layer) exactly once and no tile outside it.  A box whose
    end is not beyond the start in x or y, or is at the start layer, has no
    tile, and its scan returns the processors as they were. *)
Theorem scan_visits_box_once (start end_ : coord) :
  (forall (pretty : bool) (processors : list blueprint_processor),
      scan pretty start end_ processors
      = fold_left (scan_step pretty start) (scan_tiles start end_) processors)
  /\ NoDup (scan_tiles start end_)
  /\ (forall t : Z * Z * Z, In t (scan_tiles start end_) <-> in_box start end_ t)
  /\ (pos_x end_ <= pos_x start \/ pos_y end_ <= pos_y start
      \/ pos_z end_ = pos_z start ->
      scan_tiles start end_ = []
      /\ forall (pretty : bool) (processors : list blueprint_processor),
           scan pretty start end_ processors = processors).
Proof.
  assert (Hempty : pos_x end_ <= pos_x start \/ pos_y end_ <= pos_y start
                   \/ pos_z end_ = pos_z start ->
                   scan_tiles start end_ = []).
  { intros Hbox.
    destruct (scan_tiles start end_) as [| [[x y] z] rest] eqn:E;
      [reflexivity |].
    assert (Hin : In (x, y, z) (scan_tiles start end_))
      by (rewrite E; now left).
    apply scan_tiles_in_box in Hin. unfold in_box in Hin. lia. }
  split; [| split; [| split]].
  - intros pretty processors. apply scan_tile_by_tile.
  - unfold scan_tiles. apply NoDup_flat_map.
    + apply counter_values_NoDup.
      destruct (Z.ltb (pos_z start) (pos_z end_)); lia.
    + intros z _. apply NoDup_flat_map.
      * apply counter_values_NoDup. lia.
      * intros y _. apply NoDup_map_NoDup_ForallPairs.
        -- intros x x' _ _ Heq. now injection Heq.
        -- apply counter_values_NoDup. lia.
      * intros y y' v _ _ Hv Hv'.
        apply in_map_iff in Hv. apply in_map_iff in Hv'.
        destruct Hv as [x [<- _]]. destruct Hv' as [x' [Heq _]].
        now injection Heq.
    + intros z z' v _ _ Hv Hv'.
      apply in_flat_map in Hv. apply in_flat_map in Hv'.
      destruct Hv as [y [_ Hv]]. destruct Hv' as [y' [_ Hv']].
      apply in_map_iff in Hv. apply in_map_iff in Hv'.
      destruct Hv as [x [<- _]]. destruct Hv' as [x' [Heq _]].
      now injection Heq.
  - apply scan_tiles_in_box.
  - intros Hbox. split; [now apply Hempty |].
    intros pretty processors.
    now rewrite scan_tile_by_tile, (Hempty Hbox).
Qed.

Lemma scan_visits_box_once_witness :
  (pos_x (mk_coord 4 0 0) <= pos_x (mk_coord 4 0 2)
   \/ pos_y (mk_coord 4 0 0) <= pos_y (mk_coord 4 0 2)
   \/ pos_z (mk_coord 4 0 0) = pos_z (mk_coord 4 0 2))
  /\ scan_tiles (mk_coord 4 0 2) (mk_coord 4 0 0) = []
  /\ scan false (mk_coord 4 0 2) (mk_coord 4 0 0) [shaft_dig] = [shaft_dig].
Proof.
  assert (H : pos_x (mk_coord 4 0 0) <= pos_x (mk_coord 4 0 2)
              \/ pos_y (mk_coord 4 0 0) <= pos_y (mk_coord 4 0 2)
              \/ pos_z (mk_coord 4 0 0) = pos_z (mk_coord 4 0 2))
    by (left; simpl; lia).
  split; [exact H |].
  destruct (proj2 (proj2 (proj2 (scan_visits_box_once (mk_coord 4 0 2)
                                   (mk_coord 4 0 0)))) H)
    as [Htiles Hscan].
  split; [exact Htiles | exact (Hscan false [shaft_dig])].
Defined.

(** ** The minimal layout *)

Lemma count_char_repeat (c : ascii) (n : nat) :
  count_char c (repeat_string (String c EmptyString) n) = n.
Proof.
  induction n as [| n IH]; [reflexivity |].
  cbn [repeat_string append count_char]. rewrite Ascii.eqb_refl, IH.
  reflexivity.
Qed.

Lemma row_commas (row : bp_row) :
  forall x : Z,
    Map16.ordered row -> Forall (fun j => x <= j) (Map16.keys row) ->
    Forall (fun e => count_char "," (snd e) = O) row ->
    count_char "," (write_minimal_row x row) = Z.to_nat (last_key x row - x).
Proof.
  induction row as [| [k tile] row IH]; intros x Hord Hall Htok.
  - simpl. now rewrite Z.sub_diag.
  - destruct (ordered_inv _ _ _ Hord) as [Hord' Hall'].
    inversion Hall as [| ? ? Hle _]; subst. simpl in Hle.
    inversion Htok as [| ? ? Htile Htok']; subst. simpl in Htile.
    pose proof (last_key_ge k row Hord' Hall') as Hlast.
    cbn [write_minimal_row last_key]. rewrite Z.max_r by lia.
    rewrite !count_char_app. unfold write_gap.
    rewrite count_char_repeat, Htile.
    rewrite (IH k Hord'); [lia | | exact Htok'].
    eapply Forall_impl; [| exact Hall']. simpl. intros; lia.
Qed.

(** X7.  The minimal layout never writes a cell beyond the last stored column
    of a row: when the tokens of an ordered row with no negative column hold
    no comma, the line written for the row holds exactly as many commas as
    the index of its last stored column (none for a row whose only token is
    in column 0). *)
Theorem minimal_row_ends_at_last_column (row : bp_row) :
  Map16.ordered row ->
  Forall (fun j => 0 <= j) (Map16.keys row) ->
  Forall (fun e => count_char "," (snd e) = O) row ->
  count_char "," (write_minimal_row 0 row) = Z.to_nat (last_key 0 row).
Proof.
  intros Hord Hall Htok. rewrite (row_commas row 0 Hord Hall Htok).
  f_equal. lia.
Qed.

Lemma minimal_row_ends_at_last_column_witness :
  Map16.ordered gapped_row
  /\ Forall (fun j => 0 <= j) (Map16.keys gapped_row)
  /\ Forall (fun e => count_char "," (snd e) = O) gapped_row
  /\ count_char "," (write_minimal_row 0 gapped_row) = 3%nat.
Proof.
  assert (Hord : Map16.ordered gapped_row)
    by (repeat constructor).
  assert (Hall : Forall (fun j => 0 <= j) (Map16.keys gapped_row))
    by (repeat constructor; simpl; lia).
  assert (Htok : Forall (fun e => count_char "," (snd e) = O) gapped_row)
    by (repeat constructor).
  split; [exact Hord |]. split; [exact Hall |]. split; [exact Htok |].
  exact (minimal_row_ends_at_last_column gapped_row Hord Hall Htok).
Defined.

(** X8.  The lines of a layer in the minimal layout: an ordered area with no
    negative row is written as the lines of its rows 0 to its last stored
    row, a row that is not stored being an empty line, with an end of line
    between consecutive lines and none after the last. *)
Theorem minimal_area_lines (area : bp_area) :
  Map16.ordered area ->
  Forall (fun j => 0 <= j) (Map16.keys area) ->
  write_minimal_area 0 area
  = join_with endl (map (minimal_line area) (keys_to_last area)).
Proof.
  intros Hord Hall. rewrite write_minimal_area_gapped.
  now apply write_gapped_slots.
Qed.

Lemma minimal_area_lines_witness :
  Map16.ordered gapped_area
  /\ Forall (fun j => 0 <= j) (Map16.keys gapped_area)
  /\ write_minimal_area 0 gapped_area
     = join_with endl [",u"; ""; "d,,,d"].
Proof.
  assert (Hord : Map16.ordered gapped_area) by (repeat constructor).
  assert (Hall : Forall (fun j => 0 <= j) (Map16.keys gapped_area))
    by (repeat constructor; simpl; lia).
  split; [exact Hord |]. split; [exact Hall |].
  exact (minimal_area_lines gapped_area Hord Hall).
Defined.

(** X9.  The layers of the minimal layout: an ordered volume with no negative
    layer is written as the texts of its layers 0 to its last stored layer
    with the separator line ("#<" or "#>") between consecutive layers; a
    stored layer gives its lines and the end of its last line, a layer that
    is not stored gives nothing, and an empty volume gives no text at all. *)
Theorem minimal_layers_text (opts : blueprint_options) (vol : bp_volume) :
  Map16.ordered vol ->
  Forall (fun j => 0 <= j) (Map16.keys vol) ->
  write_minimal opts vol
  = join_with (z_key opts ++ endl) (map (minimal_layer vol) (keys_to_last vol)).
Proof.
  intros Hord Hall. destruct vol as [| e vol]; [reflexivity |].
  unfold write_minimal. rewrite write_minimal_layers_gapped.
  now apply write_gapped_slots.
Qed.

Lemma minimal_layers_text_witness :
  Map16.ordered gapped_volume
  /\ Forall (fun j => 0 <= j) (Map16.keys gapped_volume)
  /\ write_minimal (shaft_options "minimal") gapped_volume
     = join_with ("#>" ++ endl)
         [""; ",u" ++ endl ++ endl ++ "d,,,d" ++ endl; ""; "r" ++ endl].
Proof.
  assert (Hord : Map16.ordered gapped_volume) by (repeat constructor).
  assert (Hall : Forall (fun j => 0 <= j) (Map16.keys gapped_volume))
    by (repeat constructor; simpl; lia).
  split; [exact Hord |]. split; [exact Hall |].
  exact (minimal_layers_text (shaft_options "minimal") gapped_volume Hord Hall).
Defined.

(** ** The dense layout *)

(** The text of the dense layout, for extents within the 16-bit range. *)
Lemma write_pretty_text
    (fuel : nat) (opts : blueprint_options) (vol : bp_volume) :
  0 <= width opts <= 32767 ->
  0 <= height opts <= 32767 ->
  Z.abs (depth opts) <= 32767 ->
  width opts <= Z.of_nat fuel ->
  height opts <= Z.of_nat fuel ->
  Z.abs (depth opts) <= Z.of_nat fuel ->
  write_pretty fuel opts vol
  = Some (render_grid (z_key opts) (dense_grid opts vol)).
Proof.
  intros Hw Hh Hd Hfw Hfh Hfd. unfold write_pretty.
  rewrite to_int16_id by (unfold Int.int16_range; lia).
  set (cell := fun z y x => pretty_cell (lookup_tile z y x vol)).
  set (row := fun z y =>
                map (cell z y) (counter_values 0 1 (Z.to_nat (width opts)))).
  set (layer := fun z =>
                  map (row z) (counter_values 0 1 (Z.to_nat (height opts)))).
  rewrite (for_int16_runs _
             (fun z => render_layer (layer z)
                       ++ (if Z.ltb z (Z.abs (depth opts) - 1)
                           then z_key opts ++ endl else ""))
             (Z.abs (depth opts)) Hd
             (Z.to_nat (Z.abs (depth opts))) fuel 0); try lia.
  - rewrite (join_layers (z_key opts ++ endl)
               (fun z => render_layer (layer z))
               (Z.abs (depth opts) - 1)) by lia.
    unfold render_grid, dense_grid. now rewrite map_map.
  - intros z _.
    rewrite (for_int16_runs _ (fun y => render_row (row z y))
               (height opts) (proj2 Hh)
               (Z.to_nat (height opts)) fuel 0); try lia.
    + unfold render_layer, layer. now rewrite map_map.
    + intros y _.
      rewrite (for_int16_runs _ (fun x => cell z y x ++ ",")
                 (width opts) (proj2 Hw)
                 (Z.to_nat (width opts)) fuel 0); try lia.
      * unfold render_row, row. now rewrite map_map.
      * intros x _. unfold cell. now rewrite lookup_tile_unfold.
Qed.

(** X10.  The dense layout shows the requested grid and nothing else: two
    volumes that hold the same tokens at the keys of the grid (layers below
    abs(depth), rows below height, columns below width) are written as the
    same text, whatever they hold outside it. *)
Theorem write_pretty_ignores_outside
    (fuel : nat) (opts : blueprint_options) (vol vol' : bp_volume) :
  0 <= width opts <= 32767 ->
  0 <= height opts <= 32767 ->
  Z.abs (depth opts) <= 32767 ->
  width opts <= Z.of_nat fuel ->
  height opts <= Z.of_nat fuel ->
  Z.abs (depth opts) <= Z.of_nat fuel ->
  (forall z y x : Z,
      in_grid opts z y x -> lookup_tile z y x vol = lookup_tile z y x vol') ->
  write_pretty fuel opts vol = write_pretty fuel opts vol'
  /\ write_pretty fuel opts vol <> None.
Proof.
  intros Hw Hh Hd Hfw Hfh Hfd Hsame.
  rewrite !write_pretty_text by assumption. split; [| discriminate].
  do 2 f_equal. unfold dense_grid.
  apply map_ext_in. intros z Hz. apply counter_values_in in Hz.
  apply map_ext_in. intros y Hy. apply counter_values_in in Hy.
  apply map_ext_in. intros x Hx. apply counter_values_in in Hx.
  rewrite Hsame; [reflexivity |]. unfold in_grid. lia.
Qed.

Lemma write_pretty_ignores_outside_witness :
  0 <= width two_layer_options <= 32767
  /\ 0 <= height two_layer_options <= 32767
  /\ Z.abs (depth two_layer_options) <= 32767
  /\ write_pretty 2 two_layer_options [(1, [(0, [(1, "d")])])]
     = write_pretty 2 two_layer_options
         [(1, [(0, [(1, "d"); (2, "u")]); (4, [(0, "r")])]); (7, [])].
Proof.
  split; [simpl; lia |]. split; [simpl; lia |]. split; [simpl; lia |].
  apply (write_pretty_ignores_outside 2 two_layer_options
           [(1, [(0, [(1, "d")])])]
           [(1, [(0, [(1, "d"); (2, "u")]); (4, [(0, "r")])]); (7, [])]);
    try (simpl; lia).
  intros z y x (Hz & Hy & Hx). simpl in Hz, Hy, Hx.
  assert (y = 0) by lia. subst y.
  assert (Hzc : z = 0 \/ z = 1) by lia.
  assert (Hxc : x = 0 \/ x = 1) by lia.
  destruct Hzc as [-> | ->], Hxc as [-> | ->]; reflexivity.
Defined.

Lemma for_int16_first_fails (fuel : nat) (i bound : Z)
    (body : Z -> option string) :
  i < bound -> body i = None -> for_int16 fuel i bound body = None.
Proof.
  intros Hlt Hbody. destruct fuel as [| fuel]; cbn [for_int16];
    destruct (Z.ltb_spec i bound); try lia; [reflexivity |].
  now rewrite Hbody.
Qed.

(** X11.  A width or a height beyond 32767 keeps the dense serializer from
    ever returning: as soon as there is a layer to write (and, for the width,
    a row), the 16-bit counter of the row or column loop wraps before it
    reaches its bound, whatever the number of iterations allowed. *)
Theorem write_pretty_never_returns
    (fuel : nat) (opts : blueprint_options) (vol : bp_volume) :
  0 < Int.to_int16 (Z.abs (depth opts)) ->
  32767 < height opts \/ (0 < height opts /\ 32767 < width opts) ->
  write_pretty fuel opts vol = None.
Proof.
  intros Hdepth Hbig. unfold write_pretty.
  assert (Hrange0 : Int.int16_range 0) by (unfold Int.int16_range; lia).
  apply for_int16_first_fails; [exact Hdepth |].
  destruct Hbig as [Hh | [Hh Hw]].
  - now rewrite (for_int16_never_ends _ (height opts) Hh fuel 0 Hrange0).
  - rewrite for_int16_first_fails; [reflexivity | exact Hh |].
    now rewrite (for_int16_never_ends _ (width opts) Hw fuel 0 Hrange0).
Qed.

Lemma write_pretty_never_returns_witness :
  0 < Int.to_int16 (Z.abs (depth wide_options))
  /\ (0 < height wide_options /\ 32767 < width wide_options)
  /\ write_pretty 1000 wide_options [] = None.
Proof.
  assert (Hd : 0 < Int.to_int16 (Z.abs (depth wide_options)))
    by (vm_compute; reflexivity).
  assert (Hw : 0 < height wide_options /\ 32767 < width wide_options)
    by (simpl; lia).
  split; [exact Hd |]. split; [exact Hw |].
  exact (write_pretty_never_returns 1000 wide_options [] Hd (or_intror Hw)).
Defined.

(** ** Files *)

Lemma disk_read_update_same (fname : string) (f : string -> string)
    (d : list (string * string)) :
  disk_read fname (disk_update fname f d)
  = Some (f (match disk_read fname d with Some c => c | None => "" end)).
Proof.
  induction d as [| [n c] d IH]; cbn [disk_update disk_read].
  - now rewrite String.eqb_refl.
  - destruct (String.eqb fname n) eqn:E; cbn [disk_read]; now rewrite E.
Qed.

Lemma disk_read_update_other (fname other : string) (f : string -> string)
    (d : list (string * string)) :
  other <> fname ->
  disk_read other (disk_update fname f d) = disk_read other d.
Proof.
  intros Hne. apply String.eqb_neq in Hne.
  induction d as [| [n c] d IH]; cbn [disk_update disk_read].
  - now rewrite Hne.
  - destruct (String.eqb_spec fname n) as [-> | Hfn]; cbn [disk_read].
    + now rewrite Hne.
    + now rewrite IH.
Qed.

(** What [write_blueprint] does to the outside when the file name is
    resolved and the text is produced. *)
Lemma write_blueprint_effect (h : host) (fuel : nat) (outs : output_map)
    (opts : blueprint_options) (p : blueprint_processor) (pretty : bool)
    (s : io) (fname text : string) :
  lua_get_filename h opts (phase p) = lua_string fname ->
  section_text fuel opts pretty p = Some text ->
  match output_at fname outs with
  | None =>
      if file_opens h fname then
        exists s' : io,
          write_blueprint h fuel outs opts p pretty s
          = Some (true, output_insert fname (mk_ofstream fname true) outs, s')
          /\ disk_read fname (disk s') = Some text
          /\ (forall other, other <> fname ->
                            disk_read other (disk s')
                            = disk_read other (disk s))
          /\ open_streams s' = (open_streams s ++ [fname])%list
          /\ printed_errors s' = printed_errors s
          /\ directories s' = directories s
      else
        write_blueprint h fuel outs opts p pretty s
        = Some (true, output_insert fname (mk_ofstream fname false) outs, s)
  | Some stream =>
      if is_open stream then
        exists s' : io,
          write_blueprint h fuel outs opts p pretty s = Some (true, outs, s')
          /\ disk_read (stream_file stream) (disk s')
             = Some (match disk_read (stream_file stream) (disk s) with
                     | Some c => c
                     | None => ""
                     end ++ text)
          /\ (forall other, other <> stream_file stream ->
                            disk_read other (disk s')
                            = disk_read other (disk s))
          /\ open_streams s' = open_streams s
          /\ printed_errors s' = printed_errors s
          /\ directories s' = directories s
      else
        write_blueprint h fuel outs opts p pretty s = Some (true, outs, s)
  end.
Proof.
  intros Hname Htext. unfold write_blueprint, get_filename. rewrite Hname.
  unfold section_text in Htext.
  destruct (if pretty then write_pretty fuel opts (mapdata p)
            else Some (write_minimal opts (mapdata p))) as [body |];
    [| discriminate Htext].
  assert (Hsection : text = get_modeline (phase p) ++ endl ++ body)
    by congruence.
  clear Htext. subst text.
  destruct (output_at fname outs) as [[file open] |].
  - unfold stream_write. cbn [is_open stream_file]. destruct open.
    + eexists. split; [reflexivity |].
      cbn [disk open_streams printed_errors directories].
      repeat split.
      * rewrite !disk_read_update_same. now rewrite !string_app_assoc.
      * intros other Hne. now rewrite !disk_read_update_other.
    + reflexivity.
  - unfold open_trunc. destruct (file_opens h fname).
    + unfold stream_write. cbn [is_open stream_file].
      eexists. split; [reflexivity |].
      cbn [disk open_streams printed_errors directories].
      repeat split.
      * rewrite !disk_read_update_same. now rewrite !string_app_assoc.
      * intros other Hne. now rewrite !disk_read_update_other.
    + reflexivity.
Qed.

(** X12.  What writing one phase does to the outside.  When the file name
    cannot be resolved, [write_blueprint] returns failure with the map of
    output files as it was, one more error line, and no change to any file
    or stream.  When it is resolved and the text is produced,
    [write_blueprint] returns success in every case, prints nothing and
    changes no other file.  For a name that is not yet among the output
    files of the run a stream is made and entered in the map: if the file
    can be opened it is truncated, so that the section (the header line
    "#phase label(phase)" and the text) is its whole content whatever was
    on the disk, and the stream is added to the open ones; if it cannot be
    opened nothing at all changes outside, the section is lost without a
    message.  For a name that is among the output files the map is kept: the
    section is appended to what the file holds if its stream is open, and
    lost if it is not. *)
Theorem write_blueprint_adds_section (h : host) (fuel : nat)
    (outs : output_map) (opts : blueprint_options) (p : blueprint_processor)
    (pretty : bool) (s : io) :
  (unresolved (lua_get_filename h opts (phase p)) = true ->
   exists s' : io,
     write_blueprint h fuel outs opts p pretty s = Some (false, outs, s')
     /\ List.length (printed_errors s') = S (List.length (printed_errors s))
     /\ disk s' = disk s /\ open_streams s' = open_streams s
     /\ directories s' = directories s)
  /\ (forall fname text : string,
         lua_get_filename h opts (phase p) = lua_string fname ->
         section_text fuel opts pretty p = Some text ->
         match output_at fname outs with
         | None =>
             if file_opens h fname then
               exists s' : io,
                 write_blueprint h fuel outs opts p pretty s
                 = Some (true,
                         output_insert fname (mk_ofstream fname true) outs,
                         s')
                 /\ disk_read fname (disk s') = Some text
                 /\ (forall other, other <> fname ->
                                   disk_read other (disk s')
                                   = disk_read other (disk s))
                 /\ open_streams s' = (open_streams s ++ [fname])%list
                 /\ printed_errors s' = printed_errors s
                 /\ directories s' = directories s
             else
               write_blueprint h fuel outs opts p pretty s
               = Some (true,
                       output_insert fname (mk_ofstream fname false) outs, s)
         | Some stream =>
             if is_open stream then
               exists s' : io,
                 write_blueprint h fuel outs opts p pretty s
                 = Some (true, outs, s')
                 /\ disk_read (stream_file stream) (disk s')
                    = Some (match disk_read (stream_file stream) (disk s) with
                            | Some c => c
                            | None => ""
                            end ++ text)
                 /\ (forall other, other <> stream_file stream ->
                                   disk_read other (disk s')
                                   = disk_read other (disk s))
                 /\ open_streams s' = open_streams s
                 /\ printed_errors s' = printed_errors s
                 /\ directories s' = directories s
             else
               write_blueprint h fuel outs opts p pretty s
               = Some (true, outs, s)
         end).
Proof.
  split.
  - intros Hname. unfold write_blueprint, get_filename.
    destruct (lua_get_filename h opts (phase p)); try discriminate Hname;
      (eexists; split; [reflexivity |]);
      cbn [printerr disk open_streams directories printed_errors];
      rewrite length_app; cbn [List.length]; repeat split; lia.
  - intros fname text. apply write_blueprint_effect.
Qed.

Lemma write_blueprint_adds_section_witness :
  lua_get_filename csv_host dig_build_options (phase shaft_dig)
  = lua_string "blueprints/ws-dig.csv"
  /\ section_text 0 dig_build_options false shaft_dig
     = Some ("#dig label(dig)" ++ endl)
  /\ (exists s' : io,
         write_blueprint csv_host 0 [] dig_build_options shaft_dig false
           used_io
         = Some (true,
                 [("blueprints/ws-dig.csv",
                   mk_ofstream "blueprints/ws-dig.csv" true)], s')
         /\ disk_read "blueprints/ws-dig.csv" (disk s')
            = Some ("#dig label(dig)" ++ endl)
         /\ disk_read "notes.txt" (disk s') = Some "keep")
  /\ lua_get_filename locked_host dig_build_options (phase shaft_dig)
     = lua_string "blueprints/ws-dig.csv"
  /\ write_blueprint locked_host 0 [] dig_build_options shaft_dig false
       used_io
     = Some (true,
             [("blueprints/ws-dig.csv",
               mk_ofstream "blueprints/ws-dig.csv" false)], used_io).
Proof.
  split; [reflexivity |]. split; [reflexivity |]. split.
  - destruct (proj2 (write_blueprint_adds_section csv_host 0 []
                       dig_build_options shaft_dig false used_io)
                "blueprints/ws-dig.csv" ("#dig label(dig)" ++ endl)
                eq_refl eq_refl)
      as [s' (Hrun & Hfile & Hother & _)].
    exists s'. split; [exact Hrun |]. split; [exact Hfile |].
    rewrite (Hother "notes.txt"); [reflexivity | discriminate].
  - split; [reflexivity |].
    exact (proj2 (write_blueprint_adds_section locked_host 0 []
                    dig_build_options shaft_dig false used_io)
             "blueprints/ws-dig.csv" ("#dig label(dig)" ++ endl)
             eq_refl eq_refl).
Defined.

(** ** The run as a whole *)

Lemma selected_not_empty (w : world) (opts : blueprint_options) :
  some_phase opts = true -> is_empty (selected_processors w opts) = false.
Proof.
  unfold some_phase, selected_processors.
  destruct (auto_phase opts), (dig opts), (build opts), (place opts),
    (query opts); cbn; intros H; try reflexivity; discriminate H.
Qed.

(** X13.  When a phase is selected but the output directory cannot be
    created, the run prints the error line that names the directory and
    returns failure at once: no file is created or written, no stream is
    opened and the list of file names is returned as it was. *)
Theorem mkdir_failure_stops_run (w : world) (h : host) (fuel : nat)
    (start end_ : coord) (opts : blueprint_options)
    (filenames : list string) (s : io) :
  some_phase opts = true ->
  mkdir_recursive h (parent_path opts) = false ->
  exists s' : io,
    do_transform w h fuel start end_ opts filenames s
    = Some (false, filenames, s')
    /\ printed_errors s'
       = (printed_errors s
          ++ [("could not create output directory: '" ++ parent_path opts
               ++ "'" ++ endl)%string])%list
    /\ directories s' = directories s
    /\ disk s' = disk s
    /\ open_streams s' = open_streams s.
Proof.
  intros Hphase Hmkdir. unfold do_transform.
  rewrite (selected_not_empty w opts Hphase).
  unfold create_output_dir. rewrite Hmkdir. cbn [negb].
  eexists. split; [reflexivity |]. cbn. repeat split.
Qed.

Lemma mkdir_failure_stops_run_witness :
  some_phase dig_build_options = true
  /\ mkdir_recursive readonly_host (parent_path dig_build_options) = false
  /\ exists s' : io,
       do_transform workshop_world readonly_host 3 (mk_coord 0 0 0)
         (mk_coord 3 3 1) dig_build_options [] used_io
       = Some (false, [], s')
       /\ printed_errors s'
          = (printed_errors used_io
             ++ [("could not create output directory: '"
                  ++ parent_path dig_build_options ++ "'" ++ endl)%string])%list
       /\ directories s' = directories used_io
       /\ disk s' = disk used_io
       /\ open_streams s' = open_streams used_io.
Proof.
  split; [reflexivity |]. split; [reflexivity |].
  apply (mkdir_failure_stops_run workshop_world readonly_host 3
           (mk_coord 0 0 0) (mk_coord 3 3 1) dig_build_options [] used_io);
    reflexivity.
Defined.

(** *** The map of output files *)

Lemma ltb_total (a c : string) :
  String.ltb a c = false -> a <> c -> String.ltb c a = true.
Proof.
  unfold String.ltb. intros Hlt Hne.
  rewrite (String.compare_antisym c a).
  destruct (String.compare a c) eqn:E; cbn; try reflexivity;
    try discriminate Hlt.
  exfalso. apply Hne. now apply String.compare_eq_iff.
Qed.

Lemma output_at_names (fname : string) (outs : output_map) :
  output_at fname outs = None <-> ~ In fname (map fst outs).
Proof.
  induction outs as [| [n st] outs IH]; cbn [output_at map In fst].
  - tauto.
  - destruct (String.eqb_spec fname n) as [-> | Hne].
    + split; [discriminate | intros H; exfalso; apply H; now left].
    + rewrite IH. intuition congruence.
Qed.

Lemma output_at_member (fname : string) (stream : ofstream)
    (outs : output_map) :
  output_at fname outs = Some stream -> In (fname, stream) outs.
Proof.
  induction outs as [| [n st] outs IH]; cbn [output_at In];
    [discriminate |].
  destruct (String.eqb_spec fname n) as [-> | Hne].
  - intros H. injection H as <-. now left.
  - intros H. right. now apply IH.
Qed.

Lemma output_insert_names (fname n : string) (stream : ofstream)
    (outs : output_map) :
  In n (map fst (output_insert fname stream outs))
  <-> n = fname \/ In n (map fst outs).
Proof.
  induction outs as [| [m st] outs IH]; cbn [output_insert map In fst].
  - intuition.
  - destruct (String.eqb_spec fname m) as [-> | Hne]; cbn [map In fst].
    + intuition.
    + destruct (String.ltb fname m); cbn [map In fst]; [intuition |].
      rewrite IH. intuition.
Qed.

Lemma output_insert_keeps (fname : string) (stream : ofstream)
    (outs : output_map) (e : string * ofstream) :
  output_at fname outs = None -> In e outs ->
  In e (output_insert fname stream outs).
Proof.
  induction outs as [| [m st] outs IH]; cbn [output_insert output_at];
    [contradiction |].
  destruct (String.eqb fname m); [discriminate |].
  intros Hnone [<- | Hin].
  - destruct (String.ltb fname m); [right |]; now left.
  - destruct (String.ltb fname m); right; [now right | now apply IH].
Qed.

Lemma output_insert_new (fname : string) (stream : ofstream)
    (outs : output_map) :
  In (fname, stream) (output_insert fname stream outs).
Proof.
  induction outs as [| [m st] outs IH]; cbn [output_insert]; [now left |].
  destruct (String.eqb_spec fname m) as [-> | Hne]; [now left |].
  destruct (String.ltb fname m); [now left | now right].
Qed.

Lemma output_insert_values (P : string * ofstream -> Prop) (fname : string)
    (stream : ofstream) (outs : output_map) :
  P (fname, stream) ->
  Forall P outs -> Forall P (output_insert fname stream outs).
Proof.
  intros Hnew.
  induction outs as [| [m st] outs IH]; intros Hall; cbn [output_insert].
  - repeat constructor. exact Hnew.
  - inversion Hall as [| ? ? Hm Hrest]; subst.
    destruct (String.eqb_spec fname m) as [-> | Hne].
    + constructor; [exact Hnew | exact Hrest].
    + destruct (String.ltb fname m).
      * constructor; [exact Hnew | exact Hall].
      * constructor; [exact Hm | now apply IH].
Qed.

Lemma output_insert_ascending (fname : string) (stream : ofstream)
    (outs : output_map) :
  names_ascending (map fst outs) ->
  names_ascending (map fst (output_insert fname stream outs)).
Proof.
  unfold names_ascending.
  induction outs as [| [m st] outs IH]; intros Hsorted; cbn [output_insert].
  - repeat constructor.
  - cbn [map fst] in Hsorted. apply Sorted_inv in Hsorted.
    destruct Hsorted as [Htail Hhd].
    destruct (String.eqb_spec fname m) as [-> | Hne].
    + cbn [map fst]. now constructor.
    + destruct (String.ltb fname m) eqn:Hlt; cbn [map fst].
      * constructor; [now constructor |]. now constructor.
      * constructor; [now apply IH |].
        pose proof (ltb_total fname m Hlt Hne) as Hgt.
        destruct outs as [| [m' st'] outs]; cbn [output_insert map fst].
        -- now constructor.
        -- cbn [map fst] in Hhd. apply HdRel_inv in Hhd.
           destruct (String.eqb fname m'); [now constructor |].
           destruct (String.ltb fname m'); now constructor.
Qed.

Lemma write_blueprint_keeps (h : host) (fuel : nat) (outs outs' : output_map)
    (opts : blueprint_options) (p : blueprint_processor) (pretty : bool)
    (s s' : io) (flag : bool) :
  write_blueprint h fuel outs opts p pretty s = Some (flag, outs', s') ->
  outputs_ok outs s ->
  outputs_ok outs' s'
  /\ (flag = true ->
      exists n, resolved_name h opts p n
                /\ forall m, In m (map fst outs')
                             <-> m = n \/ In m (map fst outs)).
Proof.
  unfold write_blueprint, get_filename, resolved_name.
  intros Hrun (Hval & Hopen & Hasc).
  destruct (lua_get_filename h opts (phase p)) as [| | | fname];
    try (injection Hrun as <- <- <-; split;
         [split; [exact Hval | split; [exact Hopen | exact Hasc]]
         | discriminate]).
  destruct (output_at fname outs) as [stream |] eqn:Hat.
  - destruct (if pretty then write_pretty fuel opts (mapdata p)
              else Some (write_minimal opts (mapdata p))) as [body |];
      try discriminate Hrun; injection Hrun as <- <- <-.
    split.
    + split; [exact Hval |]. split; [| exact Hasc].
      intros n Hn. apply Hopen. unfold stream_write in Hn.
      destruct (is_open stream); exact Hn.
    + intros _. exists fname. split; [reflexivity |].
      intros m. apply output_at_member in Hat.
      apply (in_map fst) in Hat. cbn [fst] in Hat. intuition congruence.
  - unfold open_trunc in Hrun.
    destruct (file_opens h fname);
      destruct (if pretty then write_pretty fuel opts (mapdata p)
                else Some (write_minimal opts (mapdata p))) as [body |];
      try discriminate Hrun; injection Hrun as <- <- <-.
    + split.
      * split; [now apply output_insert_values |].
        split; [| now apply output_insert_ascending].
        intros n Hn. unfold stream_write in Hn.
        cbn [is_open open_streams] in Hn.
        apply in_app_or in Hn.
        destruct Hn as [Hn | [<- | []]].
        -- apply output_insert_keeps; [exact Hat | now apply Hopen].
        -- apply output_insert_new.
      * intros _. exists fname. split; [reflexivity |].
        intros m. apply output_insert_names.
    + split.
      * split; [now apply output_insert_values |].
        split; [| now apply output_insert_ascending].
        intros n Hn. unfold stream_write in Hn. cbn [is_open] in Hn.
        apply output_insert_keeps; [exact Hat | now apply Hopen].
      * intros _. exists fname. split; [reflexivity |].
        intros m. apply output_insert_names.
Qed.

Lemma write_all_keeps (h : host) (fuel : nat) (opts : blueprint_options)
    (pretty : bool) (processors : list blueprint_processor) :
  forall (outs outs' : output_map) (s s' : io),
    write_all h fuel outs opts processors pretty s = Some (true, outs', s') ->
    outputs_ok outs s ->
    outputs_ok outs' s'
    /\ (forall m, In m (map fst outs')
                  <-> In m (map fst outs)
                      \/ exists p, In p processors /\ resolved_name h opts p m)
    /\ (forall p, In p processors -> exists n, resolved_name h opts p n).
Proof.
  induction processors as [| p rest IH]; intros outs outs' s s' Hrun Hok.
  - injection Hrun as <- <-. split; [exact Hok |]. split.
    + intros m. split; [now left | intros [H | [p [[] _]]]; exact H].
    + intros p [].
  - cbn [write_all] in Hrun.
    destruct (write_blueprint h fuel outs opts p pretty s)
      as [[[flag outs1] s1] |] eqn:Hstep; [| discriminate Hrun].
    destruct flag; [| discriminate Hrun].
    destruct (write_blueprint_keeps _ _ _ _ _ _ _ _ _ _ Hstep Hok)
      as [Hok1 Hnames].
    destruct (Hnames eq_refl) as [n [Hn Hiff]].
    destruct (IH _ _ _ _ Hrun Hok1) as (Hok' & Hiff' & Hall).
    split; [exact Hok' |]. split.
    + intros m. rewrite Hiff', Hiff. split.
      * intros [[-> | Hin] | [q [Hq Hres]]].
        -- right. exists p. split; [now left | exact Hn].
        -- now left.
        -- right. exists q. split; [now right | exact Hres].
      * intros [Hin | [q [[<- | Hq] Hres]]].
        -- left. now right.
        -- left. left. unfold resolved_name in Hres, Hn. congruence.
        -- right. exists q. now split.
    + intros q [<- | Hq]; [now exists n | now apply Hall].
Qed.

Lemma close_all_effect (outs : output_map) :
  forall (filenames : list string) (s : io),
    let (filenames', s') := close_all outs filenames s in
    filenames' = (filenames ++ map fst outs)%list
    /\ (forall n, In n (open_streams s') ->
                  In n (open_streams s)
                  /\ ~ In (mk_ofstream n true) (map snd outs))
    /\ disk s' = disk s
    /\ directories s' = directories s
    /\ printed_errors s' = printed_errors s.
Proof.
  induction outs as [| [fname stream] outs IH]; intros filenames s.
  - cbn [close_all map]. rewrite app_nil_r. repeat split; tauto.
  - cbn [close_all].
    specialize (IH (filenames ++ [fname])%list (stream_close stream s)).
    destruct (close_all outs (filenames ++ [fname])%list
                (stream_close stream s)) as [filenames' s'].
    destruct IH as (Hnames & Hopen & Hdisk & Hdirs & Herr).
    unfold stream_close in *.
    split; [rewrite Hnames, <- app_assoc; reflexivity |].
    split; [| destruct (is_open stream); now repeat split].
    intros n Hn. destruct (Hopen n Hn) as [Hin Hnot].
    destruct stream as [file open]. cbn [is_open stream_file] in Hin.
    cbn [map snd In]. destruct open.
    + cbn [open_streams] in Hin. apply filter_In in Hin.
      destruct Hin as [Hin Hneq]. split; [exact Hin |].
      intros [Heq | Hrest]; [| contradiction].
      injection Heq as ->. now rewrite String.eqb_refl in Hneq.
    + split; [exact Hin |].
      intros [Heq | Hrest]; [discriminate Heq | contradiction].
Qed.

Lemma same_code_member (l l' : list blueprint_processor)
    (p : blueprint_processor) :
  map processor_code l = map processor_code l' -> In p l ->
  exists q, In q l' /\ phase q = phase p.
Proof.
  intros Hmap Hin.
  apply (in_map processor_code) in Hin. rewrite Hmap in Hin.
  apply in_map_iff in Hin. destruct Hin as [q [Hcode Hq]].
  exists q. split; [exact Hq |].
  unfold processor_code in Hcode. congruence.
Qed.

(** X14.  A run that returns success leaves none of its streams open, and
    the file names it adds to the list are the names the host gave for the
    selected phases (every selected phase has one), each once however many
    phases share it, in ascending order. *)
Theorem successful_run_closes_files (w : world) (h : host) (fuel : nat)
    (start end_ : coord) (opts : blueprint_options)
    (filenames filenames' : list string) (s s' : io) :
  do_transform w h fuel start end_ opts filenames s
  = Some (true, filenames', s') ->
  open_streams s = [] ->
  open_streams s' = []
  /\ exists names : list string,
       filenames' = (filenames ++ names)%list
       /\ names_ascending names
       /\ (forall n, In n names
                     <-> exists p, In p (selected_processors w opts)
                                   /\ resolved_name h opts p n)
       /\ (forall p, In p (selected_processors w opts) ->
                     exists n, resolved_name h opts p n).
Proof.
  intros Hrun Hopen. unfold do_transform in Hrun.
  destruct (is_empty (selected_processors w opts)); [discriminate Hrun |].
  unfold create_output_dir in Hrun.
  destruct (mkdir_recursive h (parent_path opts)); cbn [negb] in Hrun;
    [| discriminate Hrun].
  set (pretty := negb (String.eqb (format opts) "minimal")) in Hrun.
  set (s1 := mk_io (printed_errors s) (directories s ++ [parent_path opts])
               (disk s) (open_streams s)) in Hrun.
  destruct (write_all h fuel [] opts
              (scan pretty start end_ (selected_processors w opts)) pretty s1)
    as [[[flag outs] s2] |] eqn:Hwrite; [| discriminate Hrun].
  destruct flag; [| discriminate Hrun].
  pose proof (close_all_effect outs filenames s2) as Hclose.
  destruct (close_all outs filenames s2) as [fs s3].
  injection Hrun as <- <-.
  destruct Hclose as (Hnames & Hstill & _).
  assert (Hok1 : outputs_ok [] s1).
  { split; [constructor |]. split; [| constructor].
    intros n Hn. unfold s1 in Hn. cbn [open_streams] in Hn.
    rewrite Hopen in Hn. destruct Hn. }
  destruct (write_all_keeps _ _ _ _ _ _ _ _ _ Hwrite Hok1)
    as ((Hval & Hin & Hasc) & Hiff & Hall).
  pose proof (scan_code pretty start end_ (selected_processors w opts))
    as Hcode.
  split.
  - destruct (open_streams s3) as [| n rest] eqn:E; [reflexivity |].
    exfalso. destruct (Hstill n) as [Hn Hnot]; [now left |].
    apply Hnot. apply Hin in Hn.
    apply (in_map snd) in Hn. exact Hn.
  - exists (map fst outs). split; [exact Hnames |]. split; [exact Hasc |].
    split.
    + intros n. rewrite Hiff. cbn [map In]. split.
      * intros [[] | [p [Hp Hres]]].
        destruct (same_code_member _ _ p Hcode Hp) as [q [Hq Hphase]].
        exists q. split; [exact Hq |].
        unfold resolved_name in *. now rewrite Hphase.
      * intros [p [Hp Hres]]. right.
        destruct (same_code_member _ _ p (eq_sym Hcode) Hp)
          as [q [Hq Hphase]].
        exists q. split; [exact Hq |].
        unfold resolved_name in *. now rewrite Hphase.
    + intros p Hp.
      destruct (same_code_member _ _ p (eq_sym Hcode) Hp) as [q [Hq Hphase]].
      destruct (Hall q Hq) as [n Hn]. exists n.
      unfold resolved_name in *. now rewrite <- Hphase.
Qed.

Lemma successful_run_closes_files_witness :
  do_transform workshop_world csv_host 3 (mk_coord 0 0 0) (mk_coord 3 3 1)
    dig_build_options [] empty_io
  = Some (true, ["blueprints/ws-build.csv"; "blueprints/ws-dig.csv"],
          workshop_two_files)
  /\ open_streams empty_io = []
  /\ open_streams workshop_two_files = []
  /\ exists names : list string,
       ["blueprints/ws-build.csv"; "blueprints/ws-dig.csv"]
       = ([] ++ names)%list
       /\ names_ascending names.
Proof.
  assert (Hrun : do_transform workshop_world csv_host 3 (mk_coord 0 0 0)
                   (mk_coord 3 3 1) dig_build_options [] empty_io
                 = Some (true,
                         ["blueprints/ws-build.csv"; "blueprints/ws-dig.csv"],
                         workshop_two_files))
    by (vm_compute; reflexivity).
  destruct (successful_run_closes_files workshop_world csv_host 3
              (mk_coord 0 0 0) (mk_coord 3 3 1) dig_build_options [] _
              empty_io _ Hrun eq_refl)
    as (Hclosed & names & Hfs & Hasc & _).
  split; [exact Hrun |]. split; [reflexivity |]. split; [exact Hclosed |].
  exists names. split; [exact Hfs | exact Hasc].
Defined.

(** *** Phases that share a file *)

Lemma write_all_appends (h : host) (fuel : nat) (opts : blueprint_options)
    (pretty : bool) (fname : string)
    (processors : list blueprint_processor) :
  forall (texts : list string) (outs : output_map) (s : io) (c : string),
    output_at fname outs = Some (mk_ofstream fname true) ->
    disk_read fname (disk s) = Some c ->
    (forall p, In p processors -> resolved_name h opts p fname) ->
    Forall2 (fun p t => section_text fuel opts pretty p = Some t)
      processors texts ->
    exists s' : io,
      write_all h fuel outs opts processors pretty s = Some (true, outs, s')
      /\ disk_read fname (disk s') = Some (c ++ concat_strings texts)
      /\ (forall other, other <> fname ->
                        disk_read other (disk s') = disk_read other (disk s))
      /\ open_streams s' = open_streams s.
Proof.
  induction processors as [| p rest IH];
    intros texts outs s c Hat Hread Hres Htexts.
  - inversion Htexts; subst. exists s. cbn [write_all concat_strings].
    rewrite string_app_nil_r. repeat split. exact Hread.
  - inversion Htexts as [| ? t ? texts' Ht Hrest]; subst.
    pose proof (write_blueprint_effect h fuel outs opts p pretty s fname t
                  (Hres p (or_introl eq_refl)) Ht) as Hstep.
    rewrite Hat in Hstep. cbn [is_open stream_file] in Hstep.
    destruct Hstep as [s1 (Hstep & Hfile & Hother & Hopen & _)].
    rewrite Hread in Hfile.
    destruct (IH texts' outs s1 (c ++ t) Hat Hfile
                (fun q Hq => Hres q (or_intror Hq)) Hrest)
      as [s' (Hrun & Hfile' & Hother' & Hopen')].
    exists s'. cbn [write_all]. rewrite Hstep.
    split; [exact Hrun |]. split.
    + rewrite Hfile'. cbn [concat_strings]. now rewrite string_app_assoc.
    + split; [| congruence].
      intros other Hne. rewrite Hother' by exact Hne. now apply Hother.
Qed.

Lemma write_all_lost (h : host) (fuel : nat) (opts : blueprint_options)
    (pretty : bool) (fname : string) (stream : ofstream)
    (processors : list blueprint_processor) :
  forall (texts : list string) (outs : output_map) (s : io),
    output_at fname outs = Some stream -> is_open stream = false ->
    (forall p, In p processors -> resolved_name h opts p fname) ->
    Forall2 (fun p t => section_text fuel opts pretty p = Some t)
      processors texts ->
    write_all h fuel outs opts processors pretty s = Some (true, outs, s).
Proof.
  induction processors as [| p rest IH];
    intros texts outs s Hat Hclosed Hres Htexts; [reflexivity |].
  inversion Htexts as [| ? t ? texts' Ht Hrest]; subst.
  pose proof (write_blueprint_effect h fuel outs opts p pretty s fname t
                (Hres p (or_introl eq_refl)) Ht) as Hstep.
  rewrite Hat, Hclosed in Hstep.
  cbn [write_all]. rewrite Hstep.
  exact (IH texts' outs s Hat Hclosed (fun q Hq => Hres q (or_intror Hq))
           Hrest).
Qed.

(** X15.  Phases that resolve to the same file name share the file.  Written
    from an empty map of output files, one stream is made for the name.  If
    the file can be opened, it is opened once (and truncated) and holds the
    sections of the phases one after the other, in the order of the
    processors, each led by its header line; the stream is left open for the
    closing loop and no other file changes.  If the file cannot be opened,
    the loop still returns success for every phase and nothing has changed
    outside: all the sections are lost without a message. *)
Theorem phases_share_file (h : host) (fuel : nat) (opts : blueprint_options)
    (pretty : bool) (fname : string) (p : blueprint_processor)
    (rest : list blueprint_processor) (texts : list string) (s : io) :
  (forall q, In q (p :: rest) -> resolved_name h opts q fname) ->
  Forall2 (fun q t => section_text fuel opts pretty q = Some t)
    (p :: rest) texts ->
  if file_opens h fname then
    exists s' : io,
      write_all h fuel [] opts (p :: rest) pretty s
      = Some (true, [(fname, mk_ofstream fname true)], s')
      /\ disk_read fname (disk s') = Some (concat_strings texts)
      /\ (forall other, other <> fname ->
                        disk_read other (disk s') = disk_read other (disk s))
      /\ open_streams s' = (open_streams s ++ [fname])%list
  else
    write_all h fuel [] opts (p :: rest) pretty s
    = Some (true, [(fname, mk_ofstream fname false)], s).
Proof.
  intros Hres Htexts.
  inversion Htexts as [| ? t ? texts' Ht Hrest]; subst.
  pose proof (write_blueprint_effect h fuel [] opts p pretty s fname t
                (Hres p (or_introl eq_refl)) Ht) as Hstep.
  cbn [output_at output_insert] in Hstep.
  destruct (file_opens h fname).
  - destruct Hstep as [s1 (Hstep & Hfile & Hother & Hopen & _)].
    destruct (write_all_appends h fuel opts pretty fname rest texts'
                [(fname, mk_ofstream fname true)] s1 t)
      as [s' (Hrun & Hfile' & Hother' & Hopen')].
    + cbn [output_at]. now rewrite String.eqb_refl.
    + exact Hfile.
    + intros q Hq. apply Hres. now right.
    + exact Hrest.
    + exists s'. cbn [write_all]. rewrite Hstep.
      split; [exact Hrun |]. split; [exact Hfile' |].
      split; [| congruence].
      intros other Hne. rewrite Hother' by exact Hne. now apply Hother.
  - cbn [write_all]. rewrite Hstep.
    apply (write_all_lost h fuel opts pretty fname
             (mk_ofstream fname false) rest texts').
    + cbn [output_at]. now rewrite String.eqb_refl.
    + reflexivity.
    + intros q Hq. apply Hres. now right.
    + exact Hrest.
Qed.

Lemma phases_share_file_witness :
  (forall q, In q [dig_done; build_done] ->
             resolved_name one_file_host one_file_options q
               "blueprints/ws.csv")
  /\ Forall2 (fun q t => section_text 0 one_file_options false q = Some t)
       [dig_done; build_done] [dig_section; workshop_minimal_text]
  /\ (exists s' : io,
         write_all one_file_host 0 [] one_file_options [dig_done; build_done]
           false used_io
         = Some (true,
                 [("blueprints/ws.csv", mk_ofstream "blueprints/ws.csv" true)],
                 s')
         /\ disk_read "blueprints/ws.csv" (disk s')
            = Some (concat_strings [dig_section; workshop_minimal_text]))
  /\ (forall q, In q [dig_done; build_done] ->
                resolved_name locked_file_host one_file_options q
                  "blueprints/ws.csv")
  /\ write_all locked_file_host 0 [] one_file_options [dig_done; build_done]
       false used_io
     = Some (true,
             [("blueprints/ws.csv", mk_ofstream "blueprints/ws.csv" false)],
             used_io).
Proof.
  assert (Hres : forall q, In q [dig_done; build_done] ->
                           resolved_name one_file_host one_file_options q
                             "blueprints/ws.csv")
    by (intros q _; reflexivity).
  assert (Hres' : forall q, In q [dig_done; build_done] ->
                            resolved_name locked_file_host one_file_options q
                              "blueprints/ws.csv")
    by (intros q _; reflexivity).
  assert (Htexts :
            Forall2 (fun q t => section_text 0 one_file_options false q
                                = Some t)
              [dig_done; build_done] [dig_section; workshop_minimal_text]).
  { constructor; [vm_compute; reflexivity |].
    constructor; [vm_compute; reflexivity | constructor]. }
  split; [exact Hres |]. split; [exact Htexts |]. split.
  - destruct (phases_share_file one_file_host 0 one_file_options false
                "blueprints/ws.csv" dig_done [build_done] _ used_io
                Hres Htexts)
      as [s' (Hrun & Hfile & _)].
    exists s'. split; [exact Hrun | exact Hfile].
  - split; [exact Hres' |].
    exact (phases_share_file locked_file_host 0 one_file_options false
             "blueprints/ws.csv" dig_done [build_done] _ used_io
             Hres' Htexts).
Defined.

(** *** Files that cannot be opened *)

Lemma write_blueprint_lost (h : host) (fuel : nat) (outs outs' : output_map)
    (opts : blueprint_options) (p : blueprint_processor) (pretty : bool)
    (s s' : io) :
  (forall n, file_opens h n = false) ->
  Forall (fun e => is_open (snd e) = false) outs ->
  write_blueprint h fuel outs opts p pretty s = Some (true, outs', s') ->
  s' = s /\ Forall (fun e => is_open (snd e) = false) outs'.
Proof.
  intros Hlocked Hall. unfold write_blueprint, get_filename.
  destruct (lua_get_filename h opts (phase p)) as [| | | fname];
    try discriminate.
  destruct (output_at fname outs) as [stream |] eqn:Hat.
  - apply output_at_member in Hat. rewrite Forall_forall in Hall.
    pose proof (Hall _ Hat) as Hclosed. cbn [snd] in Hclosed.
    unfold stream_write. rewrite Hclosed.
    destruct (if pretty then write_pretty fuel opts (mapdata p)
              else Some (write_minimal opts (mapdata p))) as [body |];
      [| discriminate].
    intros H. injection H as <- <-. split; [reflexivity |].
    now apply Forall_forall.
  - unfold open_trunc. rewrite Hlocked. unfold stream_write. cbn [is_open].
    destruct (if pretty then write_pretty fuel opts (mapdata p)
              else Some (write_minimal opts (mapdata p))) as [body |];
      [| discriminate].
    intros H. injection H as <- <-. split; [reflexivity |].
    now apply output_insert_values.
Qed.

Lemma write_all_locked (h : host) (fuel : nat) (opts : blueprint_options)
    (pretty : bool) (processors : list blueprint_processor) :
  (forall n, file_opens h n = false) ->
  forall (outs outs' : output_map) (s s' : io),
    Forall (fun e => is_open (snd e) = false) outs ->
    write_all h fuel outs opts processors pretty s = Some (true, outs', s') ->
    s' = s /\ Forall (fun e => is_open (snd e) = false) outs'.
Proof.
  intros Hlocked.
  induction processors as [| p rest IH]; intros outs outs' s s' Hall Hrun.
  - injection Hrun as <- <-. now split.
  - cbn [write_all] in Hrun.
    destruct (write_blueprint h fuel outs opts p pretty s)
      as [[[flag outs1] s1] |] eqn:Hstep; [| discriminate Hrun].
    destruct flag; [| discriminate Hrun].
    destruct (write_blueprint_lost _ _ _ _ _ _ _ _ _ Hlocked Hall Hstep)
      as [-> Hall1].
    exact (IH _ _ _ _ Hall1 Hrun).
Qed.

Lemma close_all_closed (outs : output_map) :
  Forall (fun e => is_open (snd e) = false) outs ->
  forall (filenames : list string) (s : io),
    snd (close_all outs filenames s) = s.
Proof.
  induction outs as [| [fname stream] outs IH]; intros Hall filenames s;
    [reflexivity |].
  inversion Hall as [| ? ? Hclosed Hrest]; subst. cbn [snd] in Hclosed.
  cbn [close_all]. unfold stream_close. rewrite Hclosed. now apply IH.
Qed.

(** X28.  The plugin never tests whether a file was opened.  On a host on
    which no file can be opened for writing, a run that returns success has
    created the output directory and nothing else: no file is created or
    changed, no stream is open and no error line is printed, although the
    names of the files are reported as written. *)
Theorem failed_open_is_silent (w : world) (h : host) (fuel : nat)
    (start end_ : coord) (opts : blueprint_options)
    (filenames filenames' : list string) (s s' : io) :
  (forall n, file_opens h n = false) ->
  do_transform w h fuel start end_ opts filenames s
  = Some (true, filenames', s') ->
  disk s' = disk s
  /\ open_streams s' = open_streams s
  /\ printed_errors s' = printed_errors s
  /\ directories s' = (directories s ++ [parent_path opts])%list.
Proof.
  intros Hlocked Hrun. unfold do_transform in Hrun.
  destruct (is_empty (selected_processors w opts)); [discriminate Hrun |].
  unfold create_output_dir in Hrun.
  destruct (mkdir_recursive h (parent_path opts)); cbn [negb] in Hrun;
    [| discriminate Hrun].
  set (pretty := negb (String.eqb (format opts) "minimal")) in Hrun.
  set (s1 := mk_io (printed_errors s) (directories s ++ [parent_path opts])
               (disk s) (open_streams s)) in Hrun.
  destruct (write_all h fuel [] opts
              (scan pretty start end_ (selected_processors w opts)) pretty s1)
    as [[[flag outs] s2] |] eqn:Hwrite; [| discriminate Hrun].
  destruct flag; [| discriminate Hrun].
  destruct (write_all_locked h fuel opts pretty _ Hlocked [] outs s1 s2
              (Forall_nil _) Hwrite) as [-> Hclosed].
  pose proof (close_all_closed outs Hclosed filenames s1) as Hclose.
  destruct (close_all outs filenames s1) as [fs s3].
  cbn [snd] in Hclose. subst s3.
  injection Hrun as _ <-. now repeat split.
Qed.

Lemma failed_open_is_silent_witness :
  (forall n, file_opens locked_host n = false)
  /\ do_transform workshop_world locked_host 3 (mk_coord 0 0 0)
       (mk_coord 3 3 1) dig_build_options [] used_io
     = Some (true, ["blueprints/ws-build.csv"; "blueprints/ws-dig.csv"],
             mk_io [] ["blueprints"; "blueprints"] (disk used_io) [])
  /\ disk_read "blueprints/ws-build.csv" (disk used_io) = None
  /\ disk (mk_io [] ["blueprints"; "blueprints"] (disk used_io) [])
     = disk used_io.
Proof.
  assert (Hlocked : forall n, file_opens locked_host n = false)
    by (intros n; reflexivity).
  assert (Hrun : do_transform workshop_world locked_host 3 (mk_coord 0 0 0)
                   (mk_coord 3 3 1) dig_build_options [] used_io
                 = Some (true,
                         ["blueprints/ws-build.csv"; "blueprints/ws-dig.csv"],
                         mk_io [] ["blueprints"; "blueprints"]
                           (disk used_io) []))
    by (vm_compute; reflexivity).
  split; [exact Hlocked |]. split; [exact Hrun |]. split; [reflexivity |].
  exact (proj1 (failed_open_is_silent workshop_world locked_host 3
                  (mk_coord 0 0 0) (mk_coord 3 3 1) dig_build_options [] _
                  used_io _ Hlocked Hrun)).
Defined.

(** X16.  When the output directory is created but the file name of the
    first selected phase cannot be resolved, the run returns failure with
    one more error line and has opened and written no file; the directory
    remains created. *)
Theorem unresolved_first_name_writes_nothing (w : world) (h : host)
    (fuel : nat) (start end_ : coord) (opts : blueprint_options)
    (filenames : list string) (s : io)
    (p : blueprint_processor) (rest : list blueprint_processor) :
  selected_processors w opts = p :: rest ->
  mkdir_recursive h (parent_path opts) = true ->
  unresolved (lua_get_filename h opts (phase p)) = true ->
  exists s' : io,
    do_transform w h fuel start end_ opts filenames s
    = Some (false, filenames, s')
    /\ disk s' = disk s
    /\ open_streams s' = open_streams s
    /\ directories s' = (directories s ++ [parent_path opts])%list
    /\ List.length (printed_errors s') = S (List.length (printed_errors s)).
Proof.
  intros Hsel Hmkdir Hname. unfold do_transform.
  rewrite Hsel. cbn [is_empty].
  unfold create_output_dir. rewrite Hmkdir. cbn [negb].
  set (pretty := negb (String.eqb (format opts) "minimal")).
  pose proof (scan_code pretty start end_ (p :: rest)) as Hcode.
  destruct (scan pretty start end_ (p :: rest)) as [| p' rest'];
    [discriminate Hcode |].
  cbn [map] in Hcode. injection Hcode as Hcode _.
  assert (Hphase : phase p' = phase p)
    by (unfold processor_code in Hcode; congruence).
  cbn [write_all]. unfold write_blueprint, get_filename. rewrite Hphase.
  destruct (lua_get_filename h opts (phase p)); try discriminate Hname;
    (eexists; split; [reflexivity |]);
    cbn [printerr disk open_streams directories printed_errors];
    rewrite length_app; cbn [List.length]; repeat split; lia.
Qed.

Lemma unresolved_first_name_writes_nothing_witness :
  selected_processors workshop_world dig_build_options
  = new_processor "dig" (get_tile_dig workshop_world) None
    :: [new_processor "build" get_tile_build
          (Some (ensure_building workshop_world))]
  /\ mkdir_recursive mute_host (parent_path dig_build_options) = true
  /\ exists s' : io,
       do_transform workshop_world mute_host 3 (mk_coord 0 0 0)
         (mk_coord 3 3 1) dig_build_options [] used_io
       = Some (false, [], s')
       /\ disk s' = disk used_io
       /\ open_streams s' = open_streams used_io.
Proof.
  split; [reflexivity |]. split; [reflexivity |].
  destruct (unresolved_first_name_writes_nothing workshop_world mute_host 3
              (mk_coord 0 0 0) (mk_coord 3 3 1) dig_build_options [] used_io
              _ _ eq_refl eq_refl eq_refl)
    as [s' (Hrun & Hdisk & Hopen & _)].
  exists s'. split; [exact Hrun |]. split; [exact Hdisk | exact Hopen].
Defined.

(** ** The classifier *)

(** X17.  The construction and the designation phase divide the buildings
    between them: a tile with no building gets a token from neither, a tile
    of a stockpile gets a token from the designation phase only, and a tile
    of any other building gets a token from the construction phase only. *)
Theorem build_and_place_divide_buildings (pos : coord) (ctx : tile_context) :
  match b ctx with
  | None => get_tile_build pos ctx = None /\ get_tile_place pos ctx = None
  | Some bld =>
      if is_stockpile (getType bld)
      then get_tile_build pos ctx = None
           /\ is_some (get_tile_place pos ctx) = true
      else is_some (get_tile_build pos ctx) = true
           /\ get_tile_place pos ctx = None
  end.
Proof.
  unfold get_tile_build, get_tile_place.
  destruct (b ctx) as [bld |]; [| now split].
  destruct (is_stockpile (getType bld)); cbn [negb].
  - split; [reflexivity |].
    now destruct (negb (Z.eqb (x1 bld) (pos_x pos))
                  || negb (Z.eqb (y1 bld) (pos_y pos))).
  - split; [| reflexivity].
    destruct (get_build_keys pos ctx bld) as [keys add_size].
    now destruct (negb add_size).
Qed.

Lemma descriptor_not_placeholder (bld : building) :
  exists c rest, descriptor bld = String c rest /\ c <> "`"%char.
Proof.
  unfold descriptor, get_bridge_str, get_siege_str, get_workshop_str,
    get_furnace_str, get_screw_pump_str, get_water_wheel_str, get_axle_str,
    get_roller_str.
  destruct (getType bld);
    repeat match goal with
           | |- context [match ?t with _ => _ end] => destruct t
           end; (do 2 eexists; split; [reflexivity | discriminate]).
Qed.

Lemma unanchored_token_not_placeholder (bld : building) (pos : coord)
    (layout : bool) :
  designated_anchor (getType bld) = None ->
  is_stockpile (getType bld) = false ->
  exists c rest,
    get_tile_build pos (mk_ctx layout (Some bld)) = Some (String c rest)
    /\ c <> "`"%char.
Proof.
  intros Ha Hs. unfold get_tile_build, get_build_keys. cbn [b].
  rewrite Hs.
  unfold get_construction_str, get_trap_str, cache.
  destruct (getType bld); cbn in Ha, Hs; try discriminate Ha;
    try discriminate Hs; cbn [negb];
    repeat match goal with
           | |- context [match ?t with _ => _ end] => destruct t
           end; cbn [append];
    (do 2 eexists; split; [reflexivity | discriminate]).
Qed.

(** X18.  In the construction phase the continuation placeholder (the
    backtick in the dense layout, the empty string in the minimal one) marks
    the tiles of multi-tile buildings that are not the anchor, and only
    them: every other token of the phase starts with a character that is not
    the backtick.  In particular the token is empty in one case only, off
    the anchor in the minimal layout. *)
Theorem placeholder_iff_off_anchor (pos : coord) (ctx : tile_context) :
  get_tile_build pos ctx = Some (if_pretty ctx "`")
  <-> exists (bld : building) (a : anchor),
        b ctx = Some bld
        /\ designated_anchor (getType bld) = Some a
        /\ at_tile (anchor_tile a bld) pos = false.
Proof.
  destruct ctx as [layout ob]. cbn [b]. split.
  - intros Htok. destruct ob as [bld |]; [| discriminate Htok].
    assert (Hfirst : forall c rest,
               c <> "`"%char ->
               Some (String c rest) <> Some (if_pretty (mk_ctx layout (Some bld)) "`")).
    { intros c rest Hc. unfold if_pretty. cbn [pretty].
      destruct layout; [| discriminate]. intros H. injection H as H _.
      contradiction. }
    destruct (designated_anchor (getType bld)) as [a |] eqn:Ha.
    + rewrite (get_tile_build_anchored bld a pos layout Ha) in Htok.
      destruct (at_tile (anchor_tile a bld) pos) eqn:Hat;
        [| exists bld, a; auto].
      exfalso. destruct (descriptor_not_placeholder bld) as [c [rest [Hd Hc]]].
      destruct (carries_size (getType bld));
        [unfold add_expansion_syntax, cache in Htok |];
        rewrite Hd in Htok; cbn [append] in Htok;
        exact (Hfirst c _ Hc Htok).
    + exfalso. destruct (is_stockpile (getType bld)) eqn:Hs.
      * unfold get_tile_build in Htok. cbn [b] in Htok.
        rewrite Hs in Htok. discriminate Htok.
      * destruct (unanchored_token_not_placeholder bld pos layout Ha Hs)
          as [c [rest [Hne Hc]]].
        rewrite Hne in Htok. exact (Hfirst c rest Hc Htok).
  - intros [bld [a [-> [Ha Hat]]]].
    rewrite (get_tile_build_anchored bld a pos layout Ha), Hat. reflexivity.
Qed.

Lemma placeholder_iff_off_anchor_witness :
  (exists (bld : building) (a : anchor),
      b farm_ctx = Some bld
      /\ designated_anchor (getType bld) = Some a
      /\ at_tile (anchor_tile a bld) (mk_coord 7 6 0) = false)
  /\ get_tile_build (mk_coord 7 6 0) farm_ctx = Some "".
Proof.
  assert (H : exists (bld : building) (a : anchor),
                b farm_ctx = Some bld
                /\ designated_anchor (getType bld) = Some a
                /\ at_tile (anchor_tile a bld) (mk_coord 7 6 0) = false).
  { exists farm_plot, north_west. repeat split. }
  split; [exact H |].
  exact (proj2 (placeholder_iff_off_anchor (mk_coord 7 6 0) farm_ctx) H).
Defined.

(** X19.  A building of a kind that is not anchored gets the same token at
    every tile and in both layouts. *)
Theorem unanchored_token_is_fixed (bld : building) (pos pos' : coord)
    (layout layout' : bool) :
  designated_anchor (getType bld) = None ->
  get_tile_build pos (mk_ctx layout (Some bld))
  = get_tile_build pos' (mk_ctx layout' (Some bld)).
Proof.
  intros Ha. unfold get_tile_build, get_build_keys. cbn [b].
  destruct (getType bld); cbn in Ha; try discriminate Ha; reflexivity.
Qed.

Lemma unanchored_token_is_fixed_witness :
  designated_anchor (getType door) = None
  /\ get_tile_build (mk_coord 3 3 0) (mk_ctx true (Some door))
     = get_tile_build (mk_coord 9 9 9) (mk_ctx false (Some door)).
Proof.
  split; [reflexivity |].
  exact (unanchored_token_is_fixed door (mk_coord 3 3 0) (mk_coord 9 9 9)
           true false eq_refl).
Defined.

Lemma size_suffix_not_fallback (k rest : string) :
  k ++ "(" ++ rest <> "~".
Proof.
  destruct k as [| c k]; [discriminate |].
  destruct k as [| c' k]; discriminate.
Qed.

(** X20.  At the north-west corner of a well-formed stockpile the
    designation phase always gives a token, in either layout.  When exactly
    one category flag of the stockpile is on and it is one of the sixteen
    categories of the table (animals "a", food "f", furniture "u", corpses
    "y", refuse "r", wood "w", stone "s", gems "e", bars and blocks "b",
    cloth "h", leather "l", ammo "z", coins "n", finished goods "g", weapons
    "p", armor "d"), the token is the letter of that category followed by the
    size "(WxH)" of the footprint.  Otherwise (no flag, several flags, a flag
    outside the table) it is the bare fallback "~", and only then. *)
Theorem stockpile_corner_token (bld : building) (pos : coord)
    (layout : bool) :
  getType bld = Stockpile -> well_formed bld ->
  at_tile (x1 bld, y1 bld) pos = true ->
  let letter := match single_category bld with
                | Some g => category_letter g
                | None => None
                end in
  get_tile_place pos (mk_ctx layout (Some bld))
  = Some (match letter with
          | Some k =>
              k ++ "(" ++ show_unsigned (footprint_width bld) ++ "x"
                ++ show_unsigned (footprint_height bld) ++ ")"
          | None => "~"
          end)
  /\ (get_tile_place pos (mk_ctx layout (Some bld)) = Some "~"
      <-> letter = None).
Proof.
  intros Htype Hwf Hat letter.
  assert (Hkeys : get_place_keys (mk_ctx layout (Some bld)) = letter).
  { unfold letter, single_category, get_place_keys, category_letter.
    cbn [b]. destruct (dyn bld) as [| | | | | | | | | | flags |];
      try reflexivity.
    destruct flags as [g | whole]; [destruct g |]; reflexivity. }
  assert (Htok : get_tile_place pos (mk_ctx layout (Some bld))
                 = Some (match letter with
                         | Some k =>
                             k ++ "(" ++ show_unsigned (footprint_width bld)
                               ++ "x" ++ show_unsigned (footprint_height bld)
                               ++ ")"
                         | None => "~"
                         end)).
  { unfold get_tile_place. cbn [b]. rewrite Htype. cbn [is_stockpile negb].
    unfold at_tile in Hat. cbn [fst snd] in Hat.
    rewrite (Z.eqb_sym (x1 bld)), (Z.eqb_sym (y1 bld)).
    rewrite <- negb_andb, Hat. cbn [negb]. rewrite Hkeys.
    destruct letter as [k |];
      [now rewrite add_expansion_syntax_size | reflexivity]. }
  split; [exact Htok |]. rewrite Htok.
  destruct letter as [k |]; split; intros H;
    try reflexivity; try discriminate H.
  injection H as H. now apply size_suffix_not_fallback in H.
Qed.

Lemma stockpile_corner_token_witness :
  getType stone_pile = Stockpile /\ well_formed stone_pile
  /\ at_tile (x1 stone_pile, y1 stone_pile) (mk_coord 1 1 0) = true
  /\ get_tile_place (mk_coord 1 1 0) (mk_ctx true (Some stone_pile))
     = Some "s(2x2)"
  /\ well_formed mixed_pile
  /\ get_tile_place (mk_coord 1 1 0) (mk_ctx true (Some mixed_pile))
     = Some "~".
Proof.
  assert (Hwf : well_formed stone_pile) by (unfold well_formed; simpl; lia).
  assert (Hwf' : well_formed mixed_pile) by (unfold well_formed; simpl; lia).
  split; [reflexivity |]. split; [exact Hwf |]. split; [reflexivity |].
  split; [| split; [exact Hwf' |]].
  - exact (proj1 (stockpile_corner_token stone_pile (mk_coord 1 1 0) true
                    eq_refl Hwf eq_refl)).
  - exact (proj1 (stockpile_corner_token mixed_pile (mk_coord 1 1 0) true
                    eq_refl Hwf' eq_refl)).
Defined.

Lemma decode_injective {T : Type} (token : T -> string) (named : list T)
    (fallback : string) :
  (forall t, token t <> fallback -> decode token named (token t) = Some t) ->
  forall t t', token t = token t' -> token t <> fallback -> t = t'.
Proof.
  intros Hdecode t t' Heq Hne.
  pose proof (Hdecode t Hne) as H.
  assert (Hne' : token t' <> fallback) by (rewrite <- Heq; exact Hne).
  pose proof (Hdecode t' Hne') as H'.
  rewrite Heq in H. congruence.
Qed.

Lemma workshop_decodes (t : workshop_type.t) :
  workshop_token t <> "~" ->
  decode workshop_token named_workshops (workshop_token t) = Some t.
Proof.
  destruct t; intros Hne; try (vm_compute; reflexivity);
    exfalso; apply Hne; reflexivity.
Qed.

Lemma furnace_decodes (t : furnace_type.t) :
  furnace_token t <> "~" ->
  decode furnace_token named_furnaces (furnace_token t) = Some t.
Proof.
  destruct t; intros Hne; try (vm_compute; reflexivity);
    exfalso; apply Hne; reflexivity.
Qed.

Lemma construction_decodes (t : construction_type.t) :
  construction_token t <> "~" ->
  decode construction_token named_constructions (construction_token t)
  = Some t.
Proof.
  destruct t; intros Hne; try (vm_compute; reflexivity);
    exfalso; apply Hne; reflexivity.
Qed.

Lemma screw_pump_decodes (d : screw_pump_direction.t) :
  screw_pump_token d <> "~" ->
  decode screw_pump_token named_directions (screw_pump_token d) = Some d.
Proof.
  destruct d; intros Hne; try (vm_compute; reflexivity);
    exfalso; apply Hne; reflexivity.
Qed.

Lemma roller_decodes (d : screw_pump_direction.t) :
  roller_token d <> "~" ->
  decode roller_token named_directions (roller_token d) = Some d.
Proof.
  destruct d; intros Hne; try (vm_compute; reflexivity);
    exfalso; apply Hne; reflexivity.
Qed.

Lemma bridge_decodes (d : bridge_direction.t) :
  bridge_token d <> "g" ->
  decode bridge_token named_bridges (bridge_token d) = Some d.
Proof.
  destruct d; intros Hne; try (vm_compute; reflexivity);
    exfalso; apply Hne; reflexivity.
Qed.

Lemma group_decodes (g : stockpile_group.t) :
  letter_or_none g <> "~" ->
  decode letter_or_none named_groups (letter_or_none g) = Some g.
Proof.
  destruct g; intros Hne; try (vm_compute; reflexivity);
    exfalso; apply Hne; reflexivity.
Qed.

(** X21.  The tables of sub-variants lose nothing: two workshops, two
    furnaces, two constructions, two screw pumps or two sets of rollers that
    get the same token other than the fallback "~" are of the same type or
    direction; so are two bridges that get the same token other than the
    bare "g", and two stockpiles with the same category letter hold the same
    category. *)
Theorem sub_variant_tokens_distinct :
  (forall (bld bld' : building) (t t' : workshop_type.t),
      dyn bld = building_workshopst t -> dyn bld' = building_workshopst t' ->
      get_workshop_str bld = get_workshop_str bld' ->
      get_workshop_str bld <> "~" -> t = t')
  /\ (forall (bld bld' : building) (t t' : furnace_type.t),
         dyn bld = building_furnacest t -> dyn bld' = building_furnacest t' ->
         get_furnace_str bld = get_furnace_str bld' ->
         get_furnace_str bld <> "~" -> t = t')
  /\ (forall (bld bld' : building) (t t' : construction_type.t),
         dyn bld = building_constructionst t ->
         dyn bld' = building_constructionst t' ->
         get_construction_str bld = get_construction_str bld' ->
         get_construction_str bld <> "~" -> t = t')
  /\ (forall (bld bld' : building) (d d' : screw_pump_direction.t),
         dyn bld = building_screw_pumpst d ->
         dyn bld' = building_screw_pumpst d' ->
         get_screw_pump_str bld = get_screw_pump_str bld' ->
         get_screw_pump_str bld <> "~" -> d = d')
  /\ (forall (bld bld' : building) (d d' : screw_pump_direction.t),
         dyn bld = building_rollersst d -> dyn bld' = building_rollersst d' ->
         get_roller_str bld = get_roller_str bld' ->
         get_roller_str bld <> "~" -> d = d')
  /\ (forall (bld bld' : building) (d d' : bridge_direction.t),
         dyn bld = building_bridgest d -> dyn bld' = building_bridgest d' ->
         get_bridge_str bld = get_bridge_str bld' ->
         get_bridge_str bld <> "g" -> d = d')
  /\ (forall (bld bld' : building) (l l' : bool)
             (g g' : stockpile_group.t) (k : string),
         dyn bld = building_stockpilest (mask g) ->
         dyn bld' = building_stockpilest (mask g') ->
         get_place_keys (mk_ctx l (Some bld)) = Some k ->
         get_place_keys (mk_ctx l' (Some bld')) = Some k -> g = g').
Proof.
  repeat split.
  - intros bld bld' t t' H H'.
    replace (get_workshop_str bld) with (workshop_token t)
      by (unfold workshop_token, get_workshop_str; now rewrite H).
    replace (get_workshop_str bld') with (workshop_token t')
      by (unfold workshop_token, get_workshop_str; now rewrite H').
    apply (decode_injective _ _ _ workshop_decodes).
  - intros bld bld' t t' H H'.
    replace (get_furnace_str bld) with (furnace_token t)
      by (unfold furnace_token, get_furnace_str; now rewrite H).
    replace (get_furnace_str bld') with (furnace_token t')
      by (unfold furnace_token, get_furnace_str; now rewrite H').
    apply (decode_injective _ _ _ furnace_decodes).
  - intros bld bld' t t' H H'.
    replace (get_construction_str bld) with (construction_token t)
      by (unfold construction_token, get_construction_str; now rewrite H).
    replace (get_construction_str bld') with (construction_token t')
      by (unfold construction_token, get_construction_str; now rewrite H').
    apply (decode_injective _ _ _ construction_decodes).
  - intros bld bld' d d' H H'.
    replace (get_screw_pump_str bld) with (screw_pump_token d)
      by (unfold screw_pump_token, get_screw_pump_str; now rewrite H).
    replace (get_screw_pump_str bld') with (screw_pump_token d')
      by (unfold screw_pump_token, get_screw_pump_str; now rewrite H').
    apply (decode_injective _ _ _ screw_pump_decodes).
  - intros bld bld' d d' H H'.
    replace (get_roller_str bld) with (roller_token d)
      by (unfold roller_token, get_roller_str; now rewrite H).
    replace (get_roller_str bld') with (roller_token d')
      by (unfold roller_token, get_roller_str; now rewrite H').
    apply (decode_injective _ _ _ roller_decodes).
  - intros bld bld' d d' H H'.
    replace (get_bridge_str bld) with (bridge_token d)
      by (unfold bridge_token, get_bridge_str; now rewrite H).
    replace (get_bridge_str bld') with (bridge_token d')
      by (unfold bridge_token, get_bridge_str; now rewrite H').
    apply (decode_injective _ _ _ bridge_decodes).
  - intros bld bld' l l' g g' k H H' Hk Hk'.
    assert (Hg : letter_or_none g = k).
    { unfold letter_or_none, stockpile_letter, get_place_keys in *.
      cbn [b dyn with_class] in *. rewrite H in Hk. now rewrite Hk. }
    assert (Hg' : letter_or_none g' = k).
    { unfold letter_or_none, stockpile_letter, get_place_keys in *.
      cbn [b dyn with_class] in *. rewrite H' in Hk'. now rewrite Hk'. }
    apply (decode_injective _ _ _ group_decodes); [congruence |].
    rewrite Hg. intros ->.
    unfold get_place_keys in Hk. cbn [b] in Hk. rewrite H in Hk.
    destruct g; discriminate Hk.
Qed.

Lemma sub_variant_tokens_distinct_witness :
  dyn masons = building_workshopst workshop_type.Masons
  /\ get_workshop_str masons = get_workshop_str masons
  /\ get_workshop_str masons <> "~"
  /\ workshop_type.Masons = workshop_type.Masons.
Proof.
  assert (Hne : get_workshop_str masons <> "~") by discriminate.
  split; [reflexivity |]. split; [reflexivity |]. split; [exact Hne |].
  exact (proj1 sub_variant_tokens_distinct masons masons
           workshop_type.Masons workshop_type.Masons
           eq_refl eq_refl eq_refl Hne).
Defined.

Lemma context_for_fixed (pos : coord) (ctx : tile_context)
    (processors : list blueprint_processor) :
  (forall p, In p processors ->
             match init_ctx p with
             | Some init => init pos ctx = ctx
             | None => True
             end) ->
  forall i : nat, context_for pos ctx processors i = ctx.
Proof.
  induction processors as [| p rest IH]; intros Hfix i; [reflexivity |].
  cbn [context_for].
  assert (Hp : match init_ctx p with
               | Some init => init pos ctx
               | None => ctx
               end = ctx).
  { pose proof (Hfix p (or_introl eq_refl)) as H.
    destruct (init_ctx p); [exact H | reflexivity]. }
  rewrite Hp. destruct i as [| i]; [reflexivity |].
  apply IH. intros q Hq. apply Hfix. now right.
Qed.

(** X22.  The building the phases of a run see at a tile.  The dig phase
    classifies the tile with no building in its context, and each of the
    build, place and query phases classifies it with the building
    [findAtTile] gives for the tile, whichever of them are selected.  A
    building that the context holds is kept by every phase: [ensure_building]
    returns at once and the result of a lookup never replaces it.  A context
    that holds no building is filled by a lookup at each call, so that on a
    tile with no building each of the three phases looks the tile up
    again. *)
Theorem building_is_shared (w : world) (opts : blueprint_options)
    (pos : coord) (layout : bool) :
  (forall (i : nat) (p : blueprint_processor),
      nth_error (selected_processors w opts) i = Some p ->
      context_for pos (mk_ctx layout None) (selected_processors w opts) i
      = if String.eqb (phase p) "dig" then mk_ctx layout None
        else mk_ctx layout (findAtTile w pos))
  /\ (forall (bld : building) (i : nat),
         context_for pos (mk_ctx layout (Some bld))
           (selected_processors w opts) i
         = mk_ctx layout (Some bld))
  /\ (forall (bld : building) (w' : world) (pos' : coord),
         ensure_building w' pos' (mk_ctx layout (Some bld))
         = mk_ctx layout (Some bld))
  /\ (forall pos' : coord,
         ensure_building w pos' (mk_ctx layout None)
         = mk_ctx layout (findAtTile w pos')).
Proof.
  split; [| split; [| split]].
  - intros i p. unfold selected_processors.
    destruct (auto_phase opts || dig opts), (auto_phase opts || build opts),
      (auto_phase opts || place opts), (auto_phase opts || query opts);
      cbn [app];
      repeat (destruct i as [| i]; cbn [nth_error];
              [intros H; injection H as <-; cbn; unfold ensure_building;
               cbn [b pretty]; destruct (findAtTile w pos); reflexivity |]);
      intros H; try discriminate H; destruct i; discriminate H.
  - intros bld i. apply context_for_fixed. intros p Hp.
    unfold selected_processors in Hp.
    destruct (auto_phase opts || dig opts), (auto_phase opts || build opts),
      (auto_phase opts || place opts), (auto_phase opts || query opts);
      cbn [app In] in Hp;
      repeat (destruct Hp as [<- | Hp]; [reflexivity |]); destruct Hp.
  - intros bld w' pos'. reflexivity.
  - intros pos'. reflexivity.
Qed.

Lemma building_is_shared_witness :
  nth_error (selected_processors door_world all_phases_options) 2
  = Some (new_processor "place" get_tile_place
            (Some (ensure_building door_world)))
  /\ context_for (mk_coord 3 3 0) (mk_ctx false None)
       (selected_processors door_world all_phases_options) 2
     = mk_ctx false (Some door).
Proof.
  split; [reflexivity |].
  exact (proj1 (building_is_shared door_world all_phases_options
                  (mk_coord 3 3 0) false) 2%nat _ eq_refl).
Defined.

(** ** The scanned box *)

(** X23.  From a start position on the map, the end coordinate that
    [do_blueprint] computes is within the bounds a scan relies on: not
    beyond the counts of the map and not below layer -1.  When the requested
    extents are positive (non-zero for the depth) and fit the 16-bit range,
    the box from the start to this end holds the start tile, so that the
    scanned area is at least 1x1x1. *)
Theorem blueprint_end_bounds (start : coord) (opts : blueprint_options)
    (x_count y_count z_count : Z) :
  valid_start start x_count y_count z_count ->
  let end_ := blueprint_end start opts x_count y_count z_count in
  scan_bounds start end_
  /\ pos_x end_ <= x_count /\ pos_y end_ <= y_count
  /\ -1 <= pos_z end_ <= z_count
  /\ (extents_fit start opts ->
      in_box start end_ (pos_x start, pos_y start, pos_z start)).
Proof.
  unfold valid_start, scan_bounds, blueprint_end, make_coord.
  intros (Hx & Hxc & Hy & Hyc & Hz & Hzc). cbn [pos_x pos_y pos_z].
  pose proof (to_int16_range (pos_x start + width opts)) as Rx.
  pose proof (to_int16_range (pos_y start + height opts)) as Ry.
  pose proof (to_int16_range (pos_z start + depth opts)) as Rz.
  unfold Int.int16_range in Rx, Ry, Rz.
  rewrite !(to_int16_id x_count), !(to_int16_id y_count),
    !(to_int16_id z_count) by (unfold Int.int16_range; lia).
  set (tx := Int.to_int16 (pos_x start + width opts)) in *.
  set (ty := Int.to_int16 (pos_y start + height opts)) in *.
  set (tz := Int.to_int16 (pos_z start + depth opts)) in *.
  replace (if Z.ltb x_count tx then x_count else tx) with (Z.min x_count tx)
    by (destruct (Z.ltb_spec x_count tx); lia).
  replace (if Z.ltb y_count ty then y_count else ty) with (Z.min y_count ty)
    by (destruct (Z.ltb_spec y_count ty); lia).
  replace (if Z.ltb z_count tz then z_count else tz) with (Z.min z_count tz)
    by (destruct (Z.ltb_spec z_count tz); lia).
  replace (if Z.ltb (Z.min z_count tz) (-1) then -1 else Z.min z_count tz)
    with (Z.max (-1) (Z.min z_count tz))
    by (destruct (Z.ltb_spec (Z.min z_count tz) (-1)); lia).
  split; [lia |]. split; [lia |]. split; [lia |]. split; [lia |].
  unfold extents_fit. intros (Hw & Hwf & Hh & Hhf & Hd & Hdf).
  clear Rx Ry Rz. subst tx ty tz. unfold in_box. cbn [pos_x pos_y pos_z].
  rewrite !to_int16_id by (unfold Int.int16_range; lia). lia.
Qed.

Lemma blueprint_end_bounds_witness :
  valid_start shaft_start 48 48 20
  /\ extents_fit shaft_start (shaft_options "minimal")
  /\ blueprint_end shaft_start (shaft_options "minimal") 48 48 20 = shaft_end
  /\ in_box shaft_start
       (blueprint_end shaft_start (shaft_options "minimal") 48 48 20)
       (pos_x shaft_start, pos_y shaft_start, pos_z shaft_start).
Proof.
  assert (Hv : valid_start shaft_start 48 48 20)
    by (unfold valid_start; simpl; lia).
  assert (He : extents_fit shaft_start (shaft_options "minimal"))
    by (unfold extents_fit; simpl; lia).
  split; [exact Hv |]. split; [exact He |]. split; [reflexivity |].
  exact (proj2 (proj2 (proj2 (proj2
           (blueprint_end_bounds shaft_start (shaft_options "minimal")
              48 48 20 Hv)))) He).
Defined.

(** ** Track stops *)

Lemma count_char_repeat_other (c d : ascii) (n : nat) :
  Ascii.eqb d c = false ->
  count_char c (repeat_string (String d EmptyString) n) = O.
Proof.
  intros Hne. induction n as [| n IH]; [reflexivity |].
  cbn [repeat_string append count_char]. now rewrite Hne, IH.
Qed.

Lemma track_stop_token_form (bld : building) (use_dump : bool)
    (dx dy friction : Z) :
  dyn bld = building_trapst trap_type.TrackStop use_dump dx dy friction ->
  get_trap_str bld
  = "CS" ++ repeat_string "d" (dump_marks use_dump dx dy)
         ++ repeat_string "a" (labels_from friction friction_labels).
Proof.
  intros Hdyn. unfold get_trap_str, cache. rewrite Hdyn.
  unfold track_stop_dump, dump_marks, track_stop_friction, friction_labels,
    labels_from.
  destruct use_dump, (Z.eqb dx 0), (Z.ltb 0 dy), (Z.ltb dx 0),
    (Z.eqb friction 10), (Z.eqb friction 50), (Z.eqb friction 500),
    (Z.eqb friction 10000); reflexivity.
Qed.

(** X24.  The token of a track stop is "CS", then one 'd' for a dump along y
    (two when the y-shift is positive), three for a dump along x (four when
    the x-shift is negative) and none without a dump, then the friction
    marks; so two track stops get the same token exactly when they have the
    same number of dump marks and the same number of friction marks.  A
    y-shift of zero is not told from a negative one. *)
Theorem track_stop_token_decodes (bld bld' : building)
    (use_dump use_dump' : bool) (dx dy friction dx' dy' friction' : Z) :
  dyn bld = building_trapst trap_type.TrackStop use_dump dx dy friction ->
  dyn bld' = building_trapst trap_type.TrackStop use_dump' dx' dy' friction' ->
  count_char "d" (get_trap_str bld) = dump_marks use_dump dx dy
  /\ (get_trap_str bld = get_trap_str bld'
      <-> dump_marks use_dump dx dy = dump_marks use_dump' dx' dy'
          /\ labels_from friction friction_labels
             = labels_from friction' friction_labels).
Proof.
  intros Hdyn Hdyn'.
  assert (Hd : forall b0 u x y f,
             dyn b0 = building_trapst trap_type.TrackStop u x y f ->
             count_char "d" (get_trap_str b0) = dump_marks u x y).
  { intros b0 u x y f H. rewrite (track_stop_token_form b0 u x y f H).
    rewrite !count_char_app, count_char_repeat,
      count_char_repeat_other by reflexivity.
    cbn. lia. }
  split; [exact (Hd _ _ _ _ _ Hdyn) |]. split.
  - intros Heq. split.
    + rewrite <- (Hd _ _ _ _ _ Hdyn), <- (Hd _ _ _ _ _ Hdyn'). now rewrite Heq.
    + rewrite <- (track_stop_markers _ _ _ _ _ Hdyn),
        <- (track_stop_markers _ _ _ _ _ Hdyn'). now rewrite Heq.
  - intros [Hmarks Hlabels].
    rewrite (track_stop_token_form _ _ _ _ _ Hdyn),
      (track_stop_token_form _ _ _ _ _ Hdyn').
    now rewrite Hmarks, Hlabels.
Qed.

Lemma track_stop_token_decodes_witness :
  dump_marks true 0 0 = dump_marks true 0 (-1)
  /\ labels_from 500 friction_labels = labels_from 500 friction_labels
  /\ get_trap_str (track_stop true 0 0 500)
     = get_trap_str (track_stop true 0 (-1) 500).
Proof.
  split; [reflexivity |]. split; [reflexivity |].
  apply (proj2 (proj2 (track_stop_token_decodes
           (track_stop true 0 0 500) (track_stop true 0 (-1) 500)
           true true 0 0 500 0 (-1) 500 eq_refl eq_refl))).
  split; reflexivity.
Defined.

(** ** Stockpiles *)

Lemma size_suffix_not_placeholder (k rest : string) :
  k ++ "(" ++ rest <> "`" /\ k ++ "(" ++ rest <> "".
Proof.
  split.
  - destruct k as [| c k]; [discriminate |].
    destruct k as [| c' k]; discriminate.
  - destruct k; discriminate.
Qed.

Lemma corner_token_not_placeholder (bld : building) (layout : bool) :
  String.eqb (if_pretty (mk_ctx layout (Some bld)) "`") (corner_token bld)
  = false.
Proof.
  apply String.eqb_neq. unfold corner_token, add_expansion_syntax, cache,
    if_pretty. cbn [pretty].
  destruct (get_place_keys (mk_ctx false (Some bld))) as [k |].
  - destruct (size_suffix_not_placeholder k
                (show_unsigned (fst (get_building_size bld)) ++ "x"
                 ++ show_unsigned (snd (get_building_size bld)) ++ ")"))
      as [Hdense Hminimal].
    destruct layout; intros H; [now apply Hdense | now apply Hminimal].
  - destruct layout; discriminate.
Qed.

Lemma get_tile_place_corner (bld : building) (pos : coord) (layout : bool) :
  getType bld = Stockpile ->
  get_tile_place pos (mk_ctx layout (Some bld))
  = Some (if at_tile (x1 bld, y1 bld) pos then corner_token bld
          else if_pretty (mk_ctx layout (Some bld)) "`").
Proof.
  intros Htype. unfold get_tile_place, corner_token, at_tile.
  cbn [b fst snd]. rewrite Htype. cbn [is_stockpile negb].
  rewrite (Z.eqb_sym (x1 bld)), (Z.eqb_sym (y1 bld)), <- negb_andb.
  destruct (Z.eqb (pos_x pos) (x1 bld) && Z.eqb (pos_y pos) (y1 bld));
    reflexivity.
Qed.

(** X25.  In the designation phase a well-formed stockpile of w x h tiles
    gets its token (the category letter with the size, or the fallback) at
    its north-west corner only: of the w*h tiles of the footprint exactly one
    gets this token and the other w*h - 1 get the continuation placeholder
    of the layout. *)
Theorem stockpile_token_at_corner_only
    (bld : building) (layout : bool) (z : Z) :
  getType bld = Stockpile ->
  well_formed bld ->
  let ctx := mk_ctx layout (Some bld) in
  let tiles := footprint bld z in
  List.length (filter (place_token_is ctx (corner_token bld)) tiles) = 1%nat
  /\ Z.of_nat
       (List.length (filter (place_token_is ctx (if_pretty ctx "`")) tiles))
     = footprint_width bld * footprint_height bld - 1
  /\ get_tile_place (mk_coord (x1 bld) (y1 bld) z) ctx
     = Some (corner_token bld).
Proof.
  intros Htype Hwf ctx tiles.
  pose proof (corner_token_not_placeholder bld layout) as Hne. fold ctx in Hne.
  assert (Hcorner : forall pos,
             place_token_is ctx (corner_token bld) pos
             = at_tile (anchor_tile north_west bld) pos).
  { intros pos. unfold place_token_is, ctx.
    rewrite (get_tile_place_corner bld pos layout Htype). fold ctx.
    cbn [anchor_tile].
    destruct (at_tile (x1 bld, y1 bld) pos);
      [apply String.eqb_refl | exact Hne]. }
  assert (Hrest : forall pos,
             place_token_is ctx (if_pretty ctx "`") pos
             = negb (at_tile (anchor_tile north_west bld) pos)).
  { intros pos. unfold place_token_is, ctx.
    rewrite (get_tile_place_corner bld pos layout Htype). fold ctx.
    cbn [anchor_tile].
    destruct (at_tile (x1 bld, y1 bld) pos); cbn [negb];
      [rewrite String.eqb_sym; exact Hne | apply String.eqb_refl]. }
  pose proof (anchor_count bld north_west z Hwf) as Hcount.
  pose proof (footprint_length bld z Hwf) as Hlen.
  fold tiles in Hcount, Hlen.
  split; [rewrite (filter_ext _ _ Hcorner); exact Hcount |].
  split.
  - rewrite (filter_ext _ _ Hrest).
    pose proof (filter_length (at_tile (anchor_tile north_west bld)) tiles).
    lia.
  - unfold ctx. rewrite (get_tile_place_corner bld _ layout Htype).
    unfold at_tile. cbn [pos_x pos_y fst snd]. now rewrite !Z.eqb_refl.
Qed.

Lemma stockpile_token_at_corner_only_witness :
  getType stone_pile = Stockpile /\ well_formed stone_pile
  /\ List.length
       (filter (place_token_is (mk_ctx false (Some stone_pile))
                  (corner_token stone_pile)) (footprint stone_pile 0))
     = 1%nat
  /\ get_tile_place (mk_coord (x1 stone_pile) (y1 stone_pile) 0)
       (mk_ctx false (Some stone_pile)) = Some (corner_token stone_pile).
Proof.
  assert (Hwf : well_formed stone_pile) by (unfold well_formed; simpl; lia).
  destruct (stockpile_token_at_corner_only stone_pile false 0 eq_refl Hwf)
    as (Hone & _ & Htok).
  split; [reflexivity |]. split; [exact Hwf |].
  split; [exact Hone | exact Htok].
Defined.

(** ** The string cache *)

Lemma ascii_compare_lt_trans (a c d : ascii) :
  Ascii.compare a c = Lt -> Ascii.compare c d = Lt -> Ascii.compare a d = Lt.
Proof.
  unfold Ascii.compare. rewrite !N.compare_lt_iff. apply N.lt_trans.
Qed.

Lemma string_compare_lt_trans (a : string) :
  forall c d : string,
    String.compare a c = Lt -> String.compare c d = Lt ->
    String.compare a d = Lt.
Proof.
  induction a as [| x a IH]; intros [| y c] [| z d]; cbn [String.compare];
    try discriminate; try reflexivity.
  destruct (Ascii.compare x y) eqn:Exy; try discriminate;
    destruct (Ascii.compare y z) eqn:Eyz; try discriminate; intros Hac Hcd.
  - apply Ascii.compare_eq_iff in Exy, Eyz. subst y z.
    assert (Hxx : Ascii.compare x x = Eq).
    { pose proof (Ascii.compare_antisym x x) as H.
      destruct (Ascii.compare x x); cbn in H; congruence. }
    rewrite Hxx. now apply (IH c d).
  - apply Ascii.compare_eq_iff in Exy. subst y. now rewrite Eyz.
  - apply Ascii.compare_eq_iff in Eyz. subst z. now rewrite Exy.
  - now rewrite (ascii_compare_lt_trans x y z Exy Eyz).
Qed.

Lemma ltb_trans (a c d : string) :
  String.ltb a c = true -> String.ltb c d = true -> String.ltb a d = true.
Proof.
  unfold String.ltb. intros Hac Hcd.
  destruct (String.compare a c) eqn:Eac; try discriminate Hac.
  destruct (String.compare c d) eqn:Ecd; try discriminate Hcd.
  now rewrite (string_compare_lt_trans a c d Eac Ecd).
Qed.

Lemma ltb_irrefl (a : string) : String.ltb a a = false.
Proof.
  unfold String.ltb. pose proof (String.compare_antisym a a) as H.
  destruct (String.compare a a); cbn in H; congruence.
Qed.

Lemma emplace_members (s t : string) (c : StringCache.t) :
  In t (StringCache.emplace s c) <-> t = s \/ In t c.
Proof.
  induction c as [| n c IH]; cbn [StringCache.emplace In].
  - intuition.
  - destruct (String.eqb_spec s n) as [-> | Hne]; cbn [In]; [intuition |].
    destruct (String.ltb s n); cbn [In]; [intuition |].
    rewrite IH. intuition.
Qed.

Lemma emplace_ordered (s : string) (c : StringCache.t) :
  StringCache.ordered c -> StringCache.ordered (StringCache.emplace s c).
Proof.
  unfold StringCache.ordered.
  induction c as [| n c IH]; intros Hord; cbn [StringCache.emplace].
  - repeat constructor.
  - inversion Hord as [| ? ? Htail Hall]; subst.
    destruct (String.eqb_spec s n) as [-> | Hne]; [exact Hord |].
    destruct (String.ltb s n) eqn:Hlt.
    + constructor; [exact Hord |]. constructor; [exact Hlt |].
      eapply Forall_impl; [| exact Hall]. cbn. intros t Ht.
      now apply (ltb_trans s n t).
    + constructor; [now apply IH |].
      apply Forall_forall. intros t Ht. apply emplace_members in Ht.
      destruct Ht as [-> | Ht].
      * now apply ltb_total.
      * rewrite Forall_forall in Hall. now apply Hall.
Qed.

Lemma emplace_present (s : string) (c : StringCache.t) :
  StringCache.ordered c -> In s c -> StringCache.emplace s c = c.
Proof.
  unfold StringCache.ordered.
  induction c as [| n c IH]; intros Hord Hin; [destruct Hin |].
  inversion Hord as [| ? ? Htail Hall]; subst. cbn [StringCache.emplace].
  destruct (String.eqb_spec s n) as [-> | Hne]; [reflexivity |].
  destruct Hin as [-> | Hin]; [contradiction |].
  rewrite Forall_forall in Hall. pose proof (Hall s Hin) as Hns.
  destruct (String.ltb s n) eqn:Hsn.
  - pose proof (ltb_trans s n s Hsn Hns) as Hss.
    rewrite ltb_irrefl in Hss. discriminate Hss.
  - now rewrite IH.
Qed.

Lemma ordered_NoDup (c : StringCache.t) : StringCache.ordered c -> NoDup c.
Proof.
  unfold StringCache.ordered. induction c as [| n c IH]; intros Hord;
    [constructor |].
  inversion Hord as [| ? ? Htail Hall]; subst.
  constructor; [| now apply IH].
  intros Hin. rewrite Forall_forall in Hall. specialize (Hall n Hin).
  rewrite ltb_irrefl in Hall. discriminate Hall.
Qed.

Lemma find_emplaced (s : string) (c : StringCache.t) :
  In s c -> List.find (String.eqb s) c = Some s.
Proof.
  induction c as [| n c IH]; intros Hin; [destruct Hin |].
  cbn [List.find]. destruct (String.eqb_spec s n) as [-> | Hne];
    [reflexivity |].
  destruct Hin as [-> | Hin]; [contradiction | now apply IH].
Qed.

(** X26.  The string cache gives back the text it is given: [cache] on a
    string returns a stored string equal to it and leaves in the set that
    string and the strings it held, in ascending order if they were; on a
    null argument it returns null and empties the set. *)
Theorem cache_interns (s : string) (c : StringCache.t) :
  fst (StringCache.cache (Some s) c) = Some s
  /\ (forall t, In t (snd (StringCache.cache (Some s) c)) <-> t = s \/ In t c)
  /\ (StringCache.ordered c ->
      StringCache.ordered (snd (StringCache.cache (Some s) c)))
  /\ StringCache.cache None c = (None, []).
Proof.
  cbn [StringCache.cache fst snd]. split; [| split; [| split]].
  - apply find_emplaced. apply emplace_members. now left.
  - intros t. apply emplace_members.
  - apply emplace_ordered.
  - reflexivity.
Qed.

Lemma cache_interns_witness :
  StringCache.ordered ["Cf"; "d"]
  /\ StringCache.ordered (snd (StringCache.cache (Some "CSa") ["Cf"; "d"]))
  /\ fst (StringCache.cache (Some "CSa") ["Cf"; "d"]) = Some "CSa".
Proof.
  assert (Hord : StringCache.ordered ["Cf"; "d"]).
  { unfold StringCache.ordered. repeat constructor. }
  split; [exact Hord |]. split.
  - exact (proj1 (proj2 (proj2 (cache_interns "CSa" ["Cf"; "d"]))) Hord).
  - exact (proj1 (cache_interns "CSa" ["Cf"; "d"])).
Defined.

Lemma intern_all_ordered (l : list string) :
  forall c, StringCache.ordered c ->
            StringCache.ordered (StringCache.intern_all l c).
Proof.
  unfold StringCache.intern_all.
  induction l as [| s l IH]; intros c Hord; [exact Hord |].
  cbn [fold_left]. apply IH. cbn [StringCache.cache snd].
  now apply emplace_ordered.
Qed.

Lemma intern_all_members (l : list string) :
  forall c t, In t (StringCache.intern_all l c) <-> In t l \/ In t c.
Proof.
  unfold StringCache.intern_all.
  induction l as [| s l IH]; intros c t; cbn [fold_left In]; [intuition |].
  rewrite IH. cbn [StringCache.cache snd]. rewrite emplace_members.
  intuition.
Qed.

(** X27.  The string cache holds each text once: a text that is already in
    the (ordered) set is not stored again, the set is left exactly as it
    was; and after any sequence of texts has gone through an empty cache the
    set holds these texts and nothing else, without repetition, so that its
    size is the number of different texts, however many tiles gave them. *)
Theorem cache_holds_each_text_once :
  (forall (s : string) (c : StringCache.t),
      StringCache.ordered c -> In s c ->
      StringCache.cache (Some s) c = (Some s, c))
  /\ (forall l : list string,
         NoDup (StringCache.intern_all l [])
         /\ (forall t, In t (StringCache.intern_all l []) <-> In t l)).
Proof.
  split.
  - intros s c Hord Hin. cbn [StringCache.cache].
    rewrite (emplace_present s c Hord Hin).
    now rewrite (find_emplaced s c Hin).
  - intros l. split.
    + apply ordered_NoDup, intern_all_ordered. constructor.
    + intros t. rewrite intern_all_members. cbn [In]. intuition.
Qed.

Lemma cache_holds_each_text_once_witness :
  StringCache.ordered ["`"; "wm"] /\ In "`" ["`"; "wm"]
  /\ StringCache.cache (Some "`") ["`"; "wm"] = (Some "`", ["`"; "wm"]).
Proof.
  assert (Hord : StringCache.ordered ["`"; "wm"]).
  { unfold StringCache.ordered. repeat constructor. }
  assert (Hin : In "`" ["`"; "wm"]) by now left.
  split; [exact Hord |]. split; [exact Hin |].
  exact (proj1 cache_holds_each_text_once "`" ["`"; "wm"] Hord Hin).
Defined.
